(** * Cluster set-up script of trustyai-tests: model and verified properties

    Shallow embedding of [src/trustyai_tests/setup/setup_cluster.py].

    The script talks to a cluster through listing calls that are repeated
    until a condition holds, through install and create calls, and it
    reads two files.  The cluster and the file system are a [World]: the
    answer of the n-th call of each kind.  The script itself is a program
    in a state-and-exception monad whose state holds the trace of the
    calls issued so far, the number of calls of each kind, and the local
    variables that live across loop iterations ([tries], [found],
    [previous_return_list]).  Loops take fuel; the statements say how
    much is enough.

    What the model takes for granted:
    - [get_client] and the three listing calls return; the install and
      create calls and the two file reads may raise;
    - the status read through [pod.exists.status] is the one carried by
      the listed pod; it and the container statuses are resource fields
      of the client library, whose subscript yields [None] when the key
      is absent;
    - a parsed configuration is a list of operator entries with all six
      keys; [yaml.load] is a function of the world;
    - the order in which a set is iterated is a function of the world
      ([set_order]), every element once ([set_order_ok]);
    - a log record is kept as the format string and its argument. *)

From Stdlib Require Import String Ascii.
From stdpp Require Import gmap strings list.

Local Open Scope string_scope.

(** ** Constants of the module *)

Definition DEFAULT_REPO : string :=
  "https://github.com/trustyai-explainability/trustyai-service-operator/tarball/main".
Definition RECHECK_INTERVAL : nat := 5.
Definition TOKEN : string := "TRUSTYAI_REPO_PLACEHOLDER".

(** ** Data *)

(** One entry of the operator configuration document. *)
Record OperatorSpec := {
  name : string;
  channel : string;
  catalogSource : string;
  namespace : string;
  version : string;
  correspondingPods : list string
}.

Record CatalogSource := { cs_name : string }.
Record PackageManifest := { pm_name : string }.

(** A container status; [started] is [None] when the status has no
    ['started'] key, which is also what its subscript then yields. *)
Record Container := { started : option bool }.

(** A listed pod with the status read through [pod.exists.status];
    [containerStatuses] is [None] when the status has no such key. *)
Record Pod := {
  pod_name : string;
  containerStatuses : option (list Container)
}.

(** The keyword arguments of one [install_operator] call. *)
Record InstallRequest := {
  target_namespaces : list string;
  req_name : string;
  req_channel : string;
  source : string;
  operator_namespace : string;
  timeout : nat;
  install_plan_approval : string;
  starting_csv : string
}.

Inductive Exn :=
| TimeoutError (msg : string)
| FileNotFoundError (filename : string)
| TypeError (msg : string)
| OtherError (descr : string).

Inductive Level := INFO | ERROR.

Inductive FmtArg :=
| AStr (s : string)
| ASet (X : gset string).

(** A log message: [fmt.format(arg)], a literal, or an exception object. *)
Inductive LogMsg :=
| Fmt (fmt : string) (arg : FmtArg)
| Plain (s : string)
| OfExn (e : Exn).

Inductive Event :=
| ELog (lvl : Level) (msg : LogMsg)
| ESleep (seconds : nat)
| EListCatalogSources
| EListPackageManifests
| EListPods (ns : string)
| EInstallOperator (req : InstallRequest)
| ECreateDSCI (yaml_file : string)
| ECreateDSC (document : string).

(** ** The world outside the script *)

Record World := {
  (** answer of the n-th [CatalogSource.get] *)
  catalog_sources_at : nat -> list CatalogSource;
  (** answer of the n-th [PackageManifest.get] *)
  package_manifests_at : nat -> list PackageManifest;
  (** answer of the n-th [Pod.get], for the namespace asked *)
  pods_at : nat -> string -> list Pod;
  (** error raised by the n-th [install_operator], if any *)
  install_operator_outcome : nat -> InstallRequest -> option Exn;
  dsci_create_outcome : option Exn;
  dsc_create_outcome : string -> option Exn;
  (** [open(path, 'r')] then [read()] *)
  open_read : string -> Exn + string;
  (** [yaml.load] of the text of the configuration file *)
  yaml_load : string -> Exn + list OperatorSpec;
  (** the order in which a [set] of strings is iterated *)
  set_order : gset string -> list string
}.

(** Iterating a set visits each element once. *)
Definition set_order_ok (w : World) : Prop :=
  forall X : gset string,
    NoDup (set_order w X) /\ (forall x, x ∈ set_order w X <-> x ∈ X).

(** ** Program state *)

Record State := {
  trace : list Event;                 (* newest event first *)
  n_catalog_list : nat;
  n_manifest_list : nat;
  n_pod_list : nat;
  n_install : nat;
  tries : nat;
  found : bool;
  previous_manifests : option (list PackageManifest);
  previous_pods : option (list Pod)
}.

Definition initial_state : State :=
  {| trace := []; n_catalog_list := 0; n_manifest_list := 0; n_pod_list := 0;
     n_install := 0; tries := 0; found := false;
     previous_manifests := None; previous_pods := None |}.

Definition add_event (e : Event) (st : State) : State :=
  {| trace := e :: trace st; n_catalog_list := n_catalog_list st;
     n_manifest_list := n_manifest_list st; n_pod_list := n_pod_list st;
     n_install := n_install st; tries := tries st; found := found st;
     previous_manifests := previous_manifests st;
     previous_pods := previous_pods st |}.

Definition with_tries (n : nat) (st : State) : State :=
  {| trace := trace st; n_catalog_list := n_catalog_list st;
     n_manifest_list := n_manifest_list st; n_pod_list := n_pod_list st;
     n_install := n_install st; tries := n; found := found st;
     previous_manifests := previous_manifests st;
     previous_pods := previous_pods st |}.

Definition with_found (b : bool) (st : State) : State :=
  {| trace := trace st; n_catalog_list := n_catalog_list st;
     n_manifest_list := n_manifest_list st; n_pod_list := n_pod_list st;
     n_install := n_install st; tries := tries st; found := b;
     previous_manifests := previous_manifests st;
     previous_pods := previous_pods st |}.

Definition with_previous_manifests (c : option (list PackageManifest))
    (st : State) : State :=
  {| trace := trace st; n_catalog_list := n_catalog_list st;
     n_manifest_list := n_manifest_list st; n_pod_list := n_pod_list st;
     n_install := n_install st; tries := tries st; found := found st;
     previous_manifests := c; previous_pods := previous_pods st |}.

Definition with_previous_pods (c : option (list Pod)) (st : State) : State :=
  {| trace := trace st; n_catalog_list := n_catalog_list st;
     n_manifest_list := n_manifest_list st; n_pod_list := n_pod_list st;
     n_install := n_install st; tries := tries st; found := found st;
     previous_manifests := previous_manifests st; previous_pods := c |}.

Definition count_catalog_list (st : State) : State :=
  {| trace := EListCatalogSources :: trace st;
     n_catalog_list := S (n_catalog_list st);
     n_manifest_list := n_manifest_list st; n_pod_list := n_pod_list st;
     n_install := n_install st; tries := tries st; found := found st;
     previous_manifests := previous_manifests st;
     previous_pods := previous_pods st |}.

Definition count_manifest_list (st : State) : State :=
  {| trace := EListPackageManifests :: trace st;
     n_catalog_list := n_catalog_list st;
     n_manifest_list := S (n_manifest_list st); n_pod_list := n_pod_list st;
     n_install := n_install st; tries := tries st; found := found st;
     previous_manifests := previous_manifests st;
     previous_pods := previous_pods st |}.

Definition count_pod_list (ns : string) (st : State) : State :=
  {| trace := EListPods ns :: trace st;
     n_catalog_list := n_catalog_list st;
     n_manifest_list := n_manifest_list st; n_pod_list := S (n_pod_list st);
     n_install := n_install st; tries := tries st; found := found st;
     previous_manifests := previous_manifests st;
     previous_pods := previous_pods st |}.

Definition count_install (req : InstallRequest) (st : State) : State :=
  {| trace := EInstallOperator req :: trace st;
     n_catalog_list := n_catalog_list st;
     n_manifest_list := n_manifest_list st; n_pod_list := n_pod_list st;
     n_install := S (n_install st); tries := tries st; found := found st;
     previous_manifests := previous_manifests st;
     previous_pods := previous_pods st |}.

(** ** The monad: state, exceptions, and loops bounded by fuel *)

Inductive Outcome (A : Type) :=
| Ok (a : A)
| Raise (e : Exn)
| OutOfFuel.
Arguments Ok {A} a.
Arguments Raise {A} e.
Arguments OutOfFuel {A}.

Definition M (A : Type) : Type := State -> Outcome A * State.

Definition ret {A} (a : A) : M A := fun st => (Ok a, st).
Definition raise {A} (e : Exn) : M A := fun st => (Raise e, st).
Definition out_of_fuel {A} : M A := fun st => (OutOfFuel, st).

Definition bind {A B} (m : M A) (k : A -> M B) : M B :=
  fun st =>
    match m st with
    | (Ok a, st') => k a st'
    | (Raise e, st') => (Raise e, st')
    | (OutOfFuel, st') => (OutOfFuel, st')
    end.

Notation "x <- m ;; k" := (bind m (fun x => k))
  (at level 100, m at next level, k at level 200, right associativity).
Notation "m ;; k" := (bind m (fun _ => k))
  (at level 100, k at level 200, right associativity).

(** [try: body / except: handler] *)
Definition try_except {A} (body : M A) (handler : Exn -> M A) : M A :=
  fun st =>
    match body st with
    | (Raise e, st') => handler e st'
    | r => r
    end.

Definition read {A} (f : State -> A) : M A := fun st => (Ok (f st), st).
Definition modify (f : State -> State) : M unit := fun st => (Ok tt, f st).
Definition lift_result {A} (r : Exn + A) : M A :=
  match r with inl e => raise e | inr a => ret a end.
Definition lift_outcome (o : option Exn) : M unit :=
  match o with Some e => raise e | None => ret tt end.

Inductive LoopCtl := Next | Break.

(** [while True: body] *)
Fixpoint while_true (fuel : nat) (body : M LoopCtl) : M unit :=
  match fuel with
  | O => out_of_fuel
  | S fuel' =>
      c <- body ;;
      match c with
      | Break => ret tt
      | Next => while_true fuel' body
      end
  end.

(** [while not found: body] *)
Fixpoint while_not_found (fuel : nat) (body : M unit) : M unit :=
  match fuel with
  | O => out_of_fuel
  | S fuel' =>
      b <- read found ;;
      if b then ret tt else (body ;; while_not_found fuel' body)
  end.

(** [for x in l: body x] *)
Fixpoint for_each {A} (l : list A) (body : A -> M unit) : M unit :=
  match l with
  | [] => ret tt
  | x :: rest => body x ;; for_each rest body
  end.

(** [for x in l: body x], where the body may [break] *)
Fixpoint for_break {A} (l : list A) (body : A -> M LoopCtl) : M unit :=
  match l with
  | [] => ret tt
  | x :: rest =>
      c <- body x ;;
      match c with
      | Break => ret tt
      | Next => for_break rest body
      end
  end.

(** ** Strings *)

(** [t in s] for strings *)
Fixpoint str_in (t s : string) : bool :=
  if String.prefix t s then true
  else match s with
       | EmptyString => false
       | String _ s' => str_in t s'
       end.

(** [s.replace(old, new)] for a non-empty [old]: occurrences are taken
    from the left and do not overlap.  [skip] counts the characters of a
    matched occurrence that are still to be passed over. *)
Fixpoint replace_from (old new : string) (skip : nat) (s : string) : string :=
  match s with
  | EmptyString => EmptyString
  | String c s' =>
      match skip with
      | S k => replace_from old new k s'
      | O =>
          if String.prefix old s
          then new ++ replace_from old new (String.length old - 1) s'
          else String c (replace_from old new O s')
      end
  end.

Definition replace (old new s : string) : string := replace_from old new 0 s.

(** [s.split(sep)] for a non-empty [sep], and [sep.join(l)] *)
Fixpoint split_from (sep : string) (skip : nat) (s : string) : list string :=
  match s with
  | EmptyString => [EmptyString]
  | String c s' =>
      match skip with
      | S k => split_from sep k s'
      | O =>
          if String.prefix sep s
          then EmptyString :: split_from sep (String.length sep - 1) s'
          else match split_from sep O s' with
               | seg :: rest => String c seg :: rest
               | [] => [String c EmptyString]
               end
      end
  end.

Definition split (sep s : string) : list string := split_from sep 0 s.

Fixpoint join (sep : string) (l : list string) : string :=
  match l with
  | [] => EmptyString
  | [x] => x
  | x :: rest => x ++ sep ++ join sep rest
  end.

(** [old] has a border: a proper non-empty suffix that is also a prefix,
    so that two occurrences of [old] can overlap. *)
Fixpoint suffix_prefix (old s : string) : bool :=
  match s with
  | EmptyString => false
  | String _ s' => String.prefix s old || suffix_prefix old s'
  end.

Definition has_border (old : string) : bool :=
  match old with
  | EmptyString => false
  | String _ s => suffix_prefix old s
  end.

(** ** The script *)

Section Program.
Context (w : World).

Definition emit (e : Event) : M unit := modify (add_event e).
Definition log (lvl : Level) (msg : LogMsg) : M unit := emit (ELog lvl msg).
Definition sleep (seconds : nat) : M unit := emit (ESleep seconds).

Definition header (text : string) : M unit :=
  log INFO (Fmt "============== {} ==============" (AStr text)).

(** The three listing calls: each one is recorded and answered by the
    world according to the number of earlier calls of its kind. *)
Definition CatalogSource_get : M (list CatalogSource) :=
  fun st => (Ok (catalog_sources_at w (n_catalog_list st)),
             count_catalog_list st).

Definition PackageManifest_get : M (list PackageManifest) :=
  fun st => (Ok (package_manifests_at w (n_manifest_list st)),
             count_manifest_list st).

Definition Pod_get (ns : string) : M (list Pod) :=
  fun st => (Ok (pods_at w (n_pod_list st) ns), count_pod_list ns st).

Definition install_operator (req : InstallRequest) : M unit :=
  fun st =>
    (match install_operator_outcome w (n_install st) req with
     | Some e => Raise e
     | None => Ok tt
     end, count_install req st).

(** *** wait_for_catalog_sources *)

(** One pass through the body of [while True]. *)
Definition catalog_source_iteration (catalog_sources : gset string)
    (catalog_source : string) : M LoopCtl :=
  sources <- CatalogSource_get ;;
  let available_sources := map cs_name sources in
  if bool_decide (catalog_source ∈ available_sources) then
    log INFO (Fmt "{} catalog found" (ASet catalog_sources)) ;;
    ret Break
  else
    sleep RECHECK_INTERVAL ;;
    t <- read tries ;;
    if Nat.ltb (300 / RECHECK_INTERVAL) t then
      log ERROR (Fmt "Catalog Source {} not found" (AStr catalog_source)) ;;
      raise (TimeoutError
               ("Catalog Source " ++ catalog_source ++ " not found"))
    else
      modify (with_tries (t + 1)) ;;
      ret Next.

Definition await_catalog_source (fuel : nat) (catalog_sources : gset string)
    (catalog_source : string) : M unit :=
  modify (with_tries 0) ;;
  while_true fuel (catalog_source_iteration catalog_sources catalog_source).

Definition wait_for_catalog_sources (fuel : nat)
    (operator_data : list OperatorSpec) : M unit :=
  header "Waiting for Catalog Sources" ;;
  let catalog_sources : gset string :=
    list_to_set (map catalogSource operator_data) in
  for_each (set_order w catalog_sources)
           (await_catalog_source fuel catalog_sources).

(** *** wait_for_package_manifests *)

Definition manifest_matches (operator : OperatorSpec)
    (package_manifest : PackageManifest) : M LoopCtl :=
  if String.eqb (pm_name package_manifest) (name operator) then
    log INFO (Fmt "{} package manifest found" (AStr (name operator))) ;;
    modify (with_found true) ;;
    ret Break
  else ret Next.

(** The listing used by an iteration: the cached one on the first
    iteration once a cache exists, a fresh one otherwise. *)
Definition cached_package_manifests : M (list PackageManifest) :=
  t <- read tries ;;
  prev <- read previous_manifests ;;
  match t, prev with
  | O, Some l => ret l
  | _, _ =>
      l <- PackageManifest_get ;;
      modify (with_previous_manifests (Some l)) ;;
      ret l
  end.

(** The rest of the loop body, after the listing has been chosen. *)
Definition package_manifest_check (operator : OperatorSpec)
    (package_manifests : list PackageManifest) : M unit :=
  for_break package_manifests (manifest_matches operator) ;;
  f <- read found ;;
  (if negb f then sleep RECHECK_INTERVAL else ret tt) ;;
  t <- read tries ;;
  if Nat.ltb (900 / RECHECK_INTERVAL) t then
    log ERROR (Fmt "Package Manifests for {} not found"
                   (AStr (name operator))) ;;
    raise (TimeoutError
             ("Package Manifests for " ++ name operator ++ " not found"))
  else
    modify (with_tries (t + 1)).

Definition package_manifest_iteration (operator : OperatorSpec) : M unit :=
  package_manifests <- cached_package_manifests ;;
  package_manifest_check operator package_manifests.

Definition await_package_manifest (fuel : nat) (operator : OperatorSpec)
    : M unit :=
  modify (with_tries 0) ;;
  modify (with_found false) ;;
  while_not_found fuel (package_manifest_iteration operator).

Definition wait_for_package_manifests (fuel : nat)
    (operator_data : list OperatorSpec) : M unit :=
  header "Waiting for Package Manifests" ;;
  modify (with_previous_manifests None) ;;
  for_each operator_data (await_package_manifest fuel).

(** *** install_operators *)

Definition install_request (operator : OperatorSpec) : InstallRequest :=
  {| target_namespaces := [];
     req_name := name operator;
     req_channel := channel operator;
     source := catalogSource operator;
     operator_namespace := namespace operator;
     timeout := 600;
     install_plan_approval := "Manual";
     starting_csv := name operator ++ ".v" ++ version operator |}.

Definition install_operators (operator_data : list OperatorSpec) : M unit :=
  header "Installing Operators" ;;
  for_each operator_data
           (fun operator => install_operator (install_request operator)).

(** *** verify_operator_running *)

(** [container['started']] taken as a condition: [None], the value of a
    missing key, is false. *)
Definition is_started (container : Container) : bool :=
  match started container with
  | Some b => b
  | None => false
  end.

(** [sum([1 for container in statuses if container['started']])].  The
    sum raises nothing; its result has the type of [pod_status_count]. *)
Definition num_running_containers (statuses : list Container) : Exn + nat :=
  inr (list_sum (map (fun _ => 1) (List.filter is_started statuses))).

(** The error of [for container in None]. *)
Definition not_iterable : Exn :=
  TypeError "'NoneType' object is not iterable".

(** The count for one pod.  [status['containerStatuses']] is [None] when
    the status has no such key, and the comprehension cannot iterate
    over it. *)
Definition pod_status_count (pod : Pod) : Exn + nat :=
  match containerStatuses pod with
  | None => inl not_iterable
  | Some statuses => num_running_containers statuses
  end.

Definition pod_matches (target_pod_name : string) (pod : Pod) : M LoopCtl :=
  n <- lift_result (pod_status_count pod) ;;
  if str_in target_pod_name (pod_name pod) && Nat.eqb n 1 then
    log INFO (Fmt "{} pod running" (AStr target_pod_name)) ;;
    modify (with_found true) ;;
    ret Break
  else ret Next.

Definition cached_running_pods (operator : OperatorSpec) : M (list Pod) :=
  t <- read tries ;;
  prev <- read previous_pods ;;
  match t, prev with
  | O, Some l => ret l
  | _, _ =>
      l <- Pod_get (namespace operator) ;;
      modify (with_previous_pods (Some l)) ;;
      ret l
  end.

Definition running_pods_check (target_pod_name : string)
    (running_pods : list Pod) : M unit :=
  for_break running_pods (pod_matches target_pod_name) ;;
  f <- read found ;;
  (if negb f then sleep RECHECK_INTERVAL else ret tt) ;;
  t <- read tries ;;
  if Nat.ltb (RECHECK_INTERVAL / RECHECK_INTERVAL) t then
    log ERROR (Fmt "Timeout waiting for {} pod" (AStr target_pod_name)) ;;
    raise (TimeoutError
             ("Timeout waiting for " ++ target_pod_name ++ " pod"))
  else
    modify (with_tries (t + 1)).

Definition operator_pod_iteration (operator : OperatorSpec)
    (target_pod_name : string) : M unit :=
  running_pods <- cached_running_pods operator ;;
  running_pods_check target_pod_name running_pods.

Definition await_operator_pod (fuel : nat) (operator : OperatorSpec)
    (target_pod_name : string) : M unit :=
  modify (with_tries 0) ;;
  modify (with_found false) ;;
  while_not_found fuel (operator_pod_iteration operator target_pod_name).

Definition verify_operator_running (fuel : nat)
    (operator_data : list OperatorSpec) : M unit :=
  header "Verifying Operator Pods" ;;
  modify (with_previous_pods None) ;;
  for_each operator_data (fun operator =>
    for_each (correspondingPods operator)
             (await_operator_pod fuel operator)).

(** *** install_dsci and install_datascience_cluster *)

Definition install_dsci : M unit :=
  header "Installing DSCI" ;;
  emit (ECreateDSCI "manifests/dsci.yaml") ;;
  lift_outcome (dsci_create_outcome w).

Definition install_datascience_cluster (trustyai_manifests_url : string)
    : M unit :=
  header "Installing Datascience Cluster" ;;
  log INFO (Fmt "Using manifests from {}" (AStr trustyai_manifests_url)) ;;
  template <- lift_result (open_read w "manifests/dsc_template.yaml") ;;
  let config := replace TOKEN trustyai_manifests_url template in
  emit (ECreateDSC config) ;;
  lift_outcome (dsc_create_outcome w config).

(** *** setup_cluster *)

Definition load_config (operator_config_yaml : string)
    : M (list OperatorSpec) :=
  try_except
    (text <- lift_result (open_read w operator_config_yaml) ;;
     lift_result (yaml_load w text))
    (fun e =>
       match e with
       | FileNotFoundError _ =>
           log ERROR (OfExn e) ;;
           log ERROR (Plain "Operator config yaml not found, make sure your working directory is trustyai-tests/") ;;
           raise e
       | _ => raise e
       end).

Definition setup_cluster (fuel : nat) (operator_config_yaml : string)
    (trustyai_manifests_url : string) : M unit :=
  operator_data <- load_config operator_config_yaml ;;
  wait_for_catalog_sources fuel operator_data ;;
  wait_for_package_manifests fuel operator_data ;;
  install_operators operator_data ;;
  verify_operator_running fuel operator_data ;;
  install_dsci ;;
  install_datascience_cluster trustyai_manifests_url.

(** The module's entry point: the manifests URL is [sys.argv[1]] when it
    is given. *)
Definition main (fuel : nat) (argv : list string) : M unit :=
  let operator_config_yaml := "setup/operators_config.yaml" in
  let trustyai_manifests_url :=
    match argv with
    | _ :: url :: _ => url
    | _ => DEFAULT_REPO
    end in
  setup_cluster fuel operator_config_yaml trustyai_manifests_url.

(** *** The variants that fetch on every attempt

    These two follow the specification's words ("fetch every attempt")
    and differ from the source only in the listing used by an
    iteration. *)

Definition package_manifest_iteration_fetch_every_attempt
    (operator : OperatorSpec) : M unit :=
  package_manifests <- PackageManifest_get ;;
  package_manifest_check operator package_manifests.

Definition wait_for_package_manifests_fetch_every_attempt (fuel : nat)
    (operator_data : list OperatorSpec) : M unit :=
  header "Waiting for Package Manifests" ;;
  for_each operator_data (fun operator =>
    modify (with_tries 0) ;;
    modify (with_found false) ;;
    while_not_found fuel
      (package_manifest_iteration_fetch_every_attempt operator)).

Definition operator_pod_iteration_fetch_every_attempt
    (operator : OperatorSpec) (target_pod_name : string) : M unit :=
  running_pods <- Pod_get (namespace operator) ;;
  running_pods_check target_pod_name running_pods.

Definition verify_operator_running_fetch_every_attempt (fuel : nat)
    (operator_data : list OperatorSpec) : M unit :=
  header "Verifying Operator Pods" ;;
  for_each operator_data (fun operator =>
    for_each (correspondingPods operator) (fun target_pod_name =>
      modify (with_tries 0) ;;
      modify (with_found false) ;;
      while_not_found fuel
        (operator_pod_iteration_fetch_every_attempt operator
           target_pod_name))).

End Program.

(** ** Observations on a trace *)

Definition slept (e : Event) : nat :=
  match e with ESleep n => n | _ => 0 end.

(** Total number of seconds slept along a trace. *)
Definition seconds_slept (tr : list Event) : nat :=
  foldr (fun e acc => slept e + acc) 0 tr.

(** ** Pure descriptions used in the statements *)

(** The offset of the first index, among [len] indices from [start], at
    which [p] holds. *)
Fixpoint first_hit (p : nat -> bool) (start len : nat) : option nat :=
  match len with
  | O => None
  | S len' => if p start then Some 0 else S <$> first_hit p (S start) len'
  end.

(** The n-th listing of catalog sources names [catalog_source]. *)
Definition available (w : World) (catalog_source : string) (n : nat) : bool :=
  bool_decide (catalog_source ∈ map cs_name (catalog_sources_at w n)).

(** Every source of [srcs], taken in order, is listed within [window]
    consecutive listings, the listings for a source starting right after
    the one in which the source before it was found. *)
Fixpoint all_found (w : World) (window start : nat) (srcs : list string)
    : bool :=
  match srcs with
  | [] => true
  | s :: rest =>
      match first_hit (available w s) start window with
      | Some i => all_found w window (start + S i) rest
      | None => false
      end
  end.

(** What the scan of a pod listing for [target] amounts to: an error of
    the count of started containers, or whether a pod is ready. *)
Fixpoint find_ready (target : string) (pods : list Pod) : Exn + bool :=
  match pods with
  | [] => inr false
  | pod :: rest =>
      match pod_status_count pod with
      | inl e => inl e
      | inr n =>
          if str_in target (pod_name pod) && Nat.eqb n 1 then inr true
          else find_ready target rest
      end
  end.

Definition has_manifest (operator : OperatorSpec)
    (l : list PackageManifest) : bool :=
  existsb (fun pm => String.eqb (pm_name pm) (name operator)) l.


(** ** Errors and log records of the three loops *)

Definition catalog_timeout (src : string) : Exn :=
  TimeoutError ("Catalog Source " ++ src ++ " not found").

Definition manifest_timeout (operator : OperatorSpec) : Exn :=
  TimeoutError ("Package Manifests for " ++ name operator ++ " not found").

Definition pod_timeout (target : string) : Exn :=
  TimeoutError ("Timeout waiting for " ++ target ++ " pod").

Definition manifest_found_log (operator : OperatorSpec) : Event :=
  ELog INFO (Fmt "{} package manifest found" (AStr (name operator))).

Definition manifest_error_log (operator : OperatorSpec) : Event :=
  ELog ERROR (Fmt "Package Manifests for {} not found"
                  (AStr (name operator))).

Definition pod_found_log (target : string) : Event :=
  ELog INFO (Fmt "{} pod running" (AStr target)).

Definition pod_error_log (target : string) : Event :=
  ELog ERROR (Fmt "Timeout waiting for {} pod" (AStr target)).

Definition pods_header : Event :=
  ELog INFO (Fmt "============== {} ==============" (AStr "Verifying Operator Pods")).

Definition dsc_header : Event :=
  ELog INFO (Fmt "============== {} ==============" (AStr "Installing Datascience Cluster")).

Definition config_not_found_log : Event :=
  ELog ERROR (Plain "Operator config yaml not found, make sure your working directory is trustyai-tests/").

(** ** States and listings met by the loops *)

(** The state after the scan of a listing and the optional sleep. *)
Definition after_scan (found_log : Event) (hit : bool) (st : State) : State :=
  if hit then with_found true (add_event found_log st)
  else add_event (ESleep RECHECK_INTERVAL) st.

(** The n-th listing of package manifests has one for [operator]. *)
Definition listed (w : World) (operator : OperatorSpec) (n : nat) : bool :=
  has_manifest operator (package_manifests_at w n).

(** The listing scanned by the first iteration, and whether it had to be
    fetched. *)
Definition first_listing (w : World) (operator : OperatorSpec) (st : State)
    : list Pod :=
  match previous_pods st with
  | Some l => l
  | None => pods_at w (n_pod_list st) (namespace operator)
  end.

Definition first_fetch (st : State) : nat :=
  match previous_pods st with Some _ => 0 | None => 1 end.

(** The state in which the first pod target is awaited. *)
Definition pods_start (st : State) : State :=
  with_previous_pods None (add_event pods_header st).


(** ** Outcomes when the listings do not change *)

(** The outcome of waiting for the package manifests of [ops] when every
    listing is [L]. *)
Fixpoint manifests_outcome (L : list PackageManifest)
    (ops : list OperatorSpec) : Outcome unit :=
  match ops with
  | [] => Ok tt
  | operator :: rest =>
      if has_manifest operator L then manifests_outcome L rest
      else Raise (manifest_timeout operator)
  end.

(** The outcome of the wait for one target when every listing is [P]. *)
Definition target_outcome (P : list Pod) (target : string) : Outcome unit :=
  match find_ready target P with
  | inl e => Raise e
  | inr true => Ok tt
  | inr false => Raise (pod_timeout target)
  end.

(** The outcome of waiting for pod targets when every listing is [P]. *)
Fixpoint targets_outcome (P : list Pod) (targets : list string)
    : Outcome unit :=
  match targets with
  | [] => Ok tt
  | target :: rest =>
      match find_ready target P with
      | inl e => Raise e
      | inr true => targets_outcome P rest
      | inr false => Raise (pod_timeout target)
      end
  end.

Fixpoint pods_outcome (P : list Pod) (ops : list OperatorSpec)
    : Outcome unit :=
  match ops with
  | [] => Ok tt
  | operator :: rest =>
      match targets_outcome P (correspondingPods operator) with
      | Ok _ => pods_outcome P rest
      | r => r
      end
  end.

(** ** Reading the configuration and running the stages *)

(** The error, if any, of reading and parsing the configuration file. *)
Definition config_error (w : World) (path : string) : option Exn :=
  match open_read w path with
  | inl e => Some e
  | inr text => match yaml_load w text with inl e => Some e | inr _ => None end
  end.

(** The state in which [load_config] raises [e]. *)
Definition after_config_error (e : Exn) (st : State) : State :=
  match e with
  | FileNotFoundError _ =>
      add_event config_not_found_log (add_event (ELog ERROR (OfExn e)) st)
  | _ => st
  end.

(** The six stages in the order in which setup_cluster runs them. *)
Definition stages (w : World) (fuel : nat) (url : string)
    (operator_data : list OperatorSpec) : list (M unit) :=
  [ wait_for_catalog_sources w fuel operator_data;
    wait_for_package_manifests w fuel operator_data;
    install_operators w operator_data;
    verify_operator_running w fuel operator_data;
    install_dsci w;
    install_datascience_cluster w url ].

Fixpoint run_stages (l : list (M unit)) : M unit :=
  match l with
  | [] => ret tt
  | m :: rest => m ;; run_stages rest
  end.

(** ** Properties of programs: no install request, a growing trace *)

Fixpoint installs_of (tr : list Event) : list InstallRequest :=
  match tr with
  | [] => []
  | EInstallOperator req :: tr' => req :: installs_of tr'
  | _ :: tr' => installs_of tr'
  end.

(** [quiet m]: running [m] leaves the install requests of the trace and
    their count as they were. *)
Definition quiet {A} (m : M A) : Prop :=
  forall st,
    installs_of (trace (snd (m st))) = installs_of (trace st) /\
    n_install (snd (m st)) = n_install st.

(** [grows m]: running [m] only adds events to the trace. *)
Definition grows {A} (m : M A) : Prop :=
  forall st, exists events, trace (snd (m st)) = (events ++ trace st)%list.

(** ** Sample configurations and worlds *)

Definition sample_operator (n cs ns : string) (pods : list string)
    : OperatorSpec :=
  {| name := n; channel := "stable"; catalogSource := cs; namespace := ns;
     version := "1.0"; correspondingPods := pods |}.




(** A cluster in which nothing is ever listed and no file exists. *)
Definition bare_world : World :=
  {| catalog_sources_at := fun _ => [];
     package_manifests_at := fun _ => [];
     pods_at := fun _ _ => [];
     install_operator_outcome := fun _ _ => None;
     dsci_create_outcome := None;
     dsc_create_outcome := fun _ => None;
     open_read := fun path => inl (FileNotFoundError path);
     yaml_load := fun _ => inl (OtherError "yaml");
     set_order := elements |}.

(** A cluster whose first listing of catalog sources has [a] and [b] and
    whose later listings are empty. *)
Definition early_world : World :=
  {| catalog_sources_at := fun n =>
       match n with
       | O => [ {| cs_name := "a" |}; {| cs_name := "b" |} ]
       | _ => []
       end;
     package_manifests_at := fun n =>
       match n with
       | O => [ {| pm_name := "a" |}; {| pm_name := "b" |} ]
       | _ => []
       end;
     pods_at := fun _ _ => [];
     install_operator_outcome := fun _ _ => None;
     dsci_create_outcome := None;
     dsc_create_outcome := fun _ => None;
     open_read := fun path => inl (FileNotFoundError path);
     yaml_load := fun _ => inl (OtherError "yaml");
     set_order := elements |}.

(** A cluster in which the catalog source appears in the 62nd listing
    only and the package manifest in the 182nd listing only. *)
Definition late_world : World :=
  {| catalog_sources_at := fun n =>
       if Nat.eqb n 61 then [ {| cs_name := "src" |} ] else [];
     package_manifests_at := fun n =>
       if Nat.eqb n 181 then [ {| pm_name := "op" |} ] else [];
     pods_at := fun _ _ => [];
     install_operator_outcome := fun _ _ => None;
     dsci_create_outcome := None;
     dsc_create_outcome := fun _ => None;
     open_read := fun path => inl (FileNotFoundError path);
     yaml_load := fun _ => inl (OtherError "yaml");
     set_order := elements |}.

(** A cluster whose listings never change: they hold the manifest and a
    ready pod of ["a"] only. *)
Definition stable_world : World :=
  {| catalog_sources_at := fun _ => [];
     package_manifests_at := fun _ => [ {| pm_name := "a" |} ];
     pods_at := fun _ _ =>
       [ {| pod_name := "a-1";
            containerStatuses := Some [ {| started := Some true |} ] |} ];
     install_operator_outcome := fun _ _ => None;
     dsci_create_outcome := None;
     dsc_create_outcome := fun _ => None;
     open_read := fun path => inl (FileNotFoundError path);
     yaml_load := fun _ => inl (OtherError "yaml");
     set_order := elements |}.


(** A cluster with a ready pod for ["a"] and one for ["b"] in the
    namespace ["ns1"] and no pod anywhere else. *)
Definition two_namespace_world : World :=
  {| catalog_sources_at := fun _ => [];
     package_manifests_at := fun _ => [];
     pods_at := fun _ ns =>
       if String.eqb ns "ns1" then
         [ {| pod_name := "a-1";
              containerStatuses := Some [ {| started := Some true |} ] |};
           {| pod_name := "b-1";
              containerStatuses := Some [ {| started := Some true |} ] |} ]
       else [];
     install_operator_outcome := fun _ _ => None;
     dsci_create_outcome := None;
     dsc_create_outcome := fun _ => None;
     open_read := fun path => inl (FileNotFoundError path);
     yaml_load := fun _ => inl (OtherError "yaml");
     set_order := elements |}.

(** A world whose template file names the placeholder twice. *)
Definition template_world : World :=
  {| catalog_sources_at := fun _ => [];
     package_manifests_at := fun _ => [];
     pods_at := fun _ _ => [];
     install_operator_outcome := fun _ _ => None;
     dsci_create_outcome := None;
     dsc_create_outcome := fun _ => None;
     open_read := fun path =>
       if String.eqb path "manifests/dsc_template.yaml"
       then inr "uri: TRUSTYAI_REPO_PLACEHOLDER, alt: TRUSTYAI_REPO_PLACEHOLDER;"
       else inl (FileNotFoundError path);
     yaml_load := fun _ => inl (OtherError "yaml");
     set_order := elements |}.

(** A world with a readable, well-formed configuration, the catalog
    source it names, and no package manifest. *)
Definition no_manifest_world : World :=
  {| catalog_sources_at := fun _ => [ {| cs_name := "src" |} ];
     package_manifests_at := fun _ => [];
     pods_at := fun _ _ => [];
     install_operator_outcome := fun _ _ => None;
     dsci_create_outcome := None;
     dsc_create_outcome := fun _ => None;
     open_read := fun path => inr "config";
     yaml_load := fun _ => inr [sample_operator "op" "src" "ns" ["pod"]];
     set_order := elements |}.

(** ** Further observations on a run *)

(** The calls of a trace that change the cluster, newest first. *)
Fixpoint actions_of (tr : list Event) : list Event :=
  match tr with
  | [] => []
  | EInstallOperator req :: tr' => EInstallOperator req :: actions_of tr'
  | ECreateDSCI f :: tr' => ECreateDSCI f :: actions_of tr'
  | ECreateDSC d :: tr' => ECreateDSC d :: actions_of tr'
  | _ :: tr' => actions_of tr'
  end.

(** [silent m]: running [m] issues no call that changes the cluster. *)
Definition silent {A} (m : M A) : Prop :=
  forall st, actions_of (trace (snd (m st))) = actions_of (trace st).

(** [terminates m]: [m] never runs out of fuel. *)
Definition terminates {A} (m : M A) : Prop :=
  forall st, fst (m st) <> OutOfFuel.

(** The install requests of a configuration, as events, newest first. *)
Definition install_events (ops : list OperatorSpec) : list Event :=
  rev (map (fun operator => EInstallOperator (install_request operator)) ops).

Definition installs_header : Event :=
  ELog INFO (Fmt "============== {} ==============" (AStr "Installing Operators")).

Definition catalog_header : Event :=
  ELog INFO (Fmt "============== {} ==============" (AStr "Waiting for Catalog Sources")).

Definition manifests_header : Event :=
  ELog INFO (Fmt "============== {} ==============" (AStr "Waiting for Package Manifests")).

Definition dsci_header : Event :=
  ELog INFO (Fmt "============== {} ==============" (AStr "Installing DSCI")).

(** A world in which the second install request fails. *)
Definition failing_install_world : World :=
  {| catalog_sources_at := fun _ => [];
     package_manifests_at := fun _ => [];
     pods_at := fun _ _ => [];
     install_operator_outcome := fun n _ =>
       if Nat.eqb n 1 then Some (OtherError "install") else None;
     dsci_create_outcome := None;
     dsc_create_outcome := fun _ => None;
     open_read := fun path => inl (FileNotFoundError path);
     yaml_load := fun _ => inl (OtherError "yaml");
     set_order := elements |}.

(** A world in which every stage succeeds at its first attempt. *)
Definition ready_world : World :=
  {| catalog_sources_at := fun _ => [ {| cs_name := "src" |} ];
     package_manifests_at := fun _ => [ {| pm_name := "op" |} ];
     pods_at := fun _ _ =>
       [ {| pod_name := "pod-1";
            containerStatuses := Some [ {| started := Some true |} ] |} ];
     install_operator_outcome := fun _ _ => None;
     dsci_create_outcome := None;
     dsc_create_outcome := fun _ => None;
     open_read := fun path =>
       if String.eqb path "manifests/dsc_template.yaml"
       then inr "uri: TRUSTYAI_REPO_PLACEHOLDER"
       else inr "config";
     yaml_load := fun _ => inr [sample_operator "op" "src" "ns" ["pod"]];
     set_order := elements |}.

(** A world whose configuration is an empty list of operators. *)
Definition empty_config_world : World :=
  {| catalog_sources_at := fun _ => [];
     package_manifests_at := fun _ => [];
     pods_at := fun _ _ => [];
     install_operator_outcome := fun _ _ => None;
     dsci_create_outcome := None;
     dsc_create_outcome := fun _ => None;
     open_read := fun path =>
       if String.eqb path "manifests/dsc_template.yaml"
       then inr "uri: TRUSTYAI_REPO_PLACEHOLDER"
       else inr "config";
     yaml_load := fun _ => inr [];
     set_order := elements |}.

(** A world in which every stage but the last succeeds: the template of
    the data science cluster cannot be read. *)
Definition no_template_world : World :=
  {| catalog_sources_at := fun _ => [ {| cs_name := "src" |} ];
     package_manifests_at := fun _ => [ {| pm_name := "op" |} ];
     pods_at := fun _ _ =>
       [ {| pod_name := "pod-1";
            containerStatuses := Some [ {| started := Some true |} ] |} ];
     install_operator_outcome := fun _ _ => None;
     dsci_create_outcome := None;
     dsc_create_outcome := fun _ => None;
     open_read := fun path =>
       if String.eqb path "manifests/dsc_template.yaml"
       then inl (FileNotFoundError path)
       else inr "config";
     yaml_load := fun _ => inr [sample_operator "op" "src" "ns" ["pod"]];
     set_order := elements |}.

(** A world whose template does not name the placeholder. *)
Definition plain_template_world : World :=
  {| catalog_sources_at := fun _ => [];
     package_manifests_at := fun _ => [];
     pods_at := fun _ _ => [];
     install_operator_outcome := fun _ _ => None;
     dsci_create_outcome := None;
     dsc_create_outcome := fun _ => None;
     open_read := fun path => inr "kind: DataScienceCluster";
     yaml_load := fun _ => inr [];
     set_order := elements |}.


Definition infix_pod : Pod :=
  {| pod_name := "my-operator-7f9";
     containerStatuses := Some [ {| started := Some true |} ] |}.

(** The number of containers whose ['started'] is true. *)
Definition started_count (statuses : list Container) : nat :=
  length (List.filter
            (fun c => match started c with Some true => true | _ => false end)
            statuses).

(** A world in which every listing holds the catalog sources ["s1"] and
    ["s2"]. *)
Definition two_sources_world : World :=
  {| catalog_sources_at := fun _ =>
       [ {| cs_name := "s1" |}; {| cs_name := "s2" |} ];
     package_manifests_at := fun _ => [];
     pods_at := fun _ _ => [];
     install_operator_outcome := fun _ _ => None;
     dsci_create_outcome := None;
     dsc_create_outcome := fun _ => None;
     open_read := fun path => inl (FileNotFoundError path);
     yaml_load := fun _ => inl (OtherError "yaml");
     set_order := elements |}.

(** One if the outcome is a normal return, zero otherwise. *)
Definition returned {A} (o : Outcome A) : nat :=
  match o with Ok _ => 1 | _ => 0 end.

(** A world whose every listing of package manifests holds ["a"], ["b"]
    and ["c"]. *)
Definition three_manifests_world : World :=
  {| catalog_sources_at := fun _ => [];
     package_manifests_at := fun _ =>
       [ {| pm_name := "a" |}; {| pm_name := "b" |}; {| pm_name := "c" |} ];
     pods_at := fun _ _ => [];
     install_operator_outcome := fun _ _ => None;
     dsci_create_outcome := None;
     dsc_create_outcome := fun _ => None;
     open_read := fun path => inl (FileNotFoundError path);
     yaml_load := fun _ => inl (OtherError "yaml");
     set_order := elements |}.

(** The cached listing of package manifests, if any, was returned by a
    listing call numbered from [n0] on. *)
Definition manifests_cache_from (w : World) (n0 : nat) (st : State) : Prop :=
  n0 <= n_manifest_list st /\
  forall l, previous_manifests st = Some l ->
    exists m, n0 <= m < n_manifest_list st /\ l = package_manifests_at w m.

(** The cached listing of pods, if any, was returned by a listing call
    numbered from [n0] on, for the namespace of an operator of [ops]. *)
Definition pods_cache_from (w : World) (ops : list OperatorSpec) (n0 : nat)
    (st : State) : Prop :=
  n0 <= n_pod_list st /\
  forall l, previous_pods st = Some l ->
    exists m o, n0 <= m < n_pod_list st /\ o ∈ ops /\
                l = pods_at w m (namespace o).

(** The number of pod targets of a configuration. *)
Fixpoint target_count (ops : list OperatorSpec) : nat :=
  match ops with
  | [] => 0
  | operator :: rest => length (correspondingPods operator) + target_count rest
  end.

(** ** The listing scanned at each attempt

    An attempt is one iteration of a polling loop; it is numbered by the
    value of [tries] in it. *)




(** ** Arithmetic of the three bounds *)

Lemma catalog_bound : 300 / RECHECK_INTERVAL = 60.
Proof. reflexivity. Qed.

Lemma manifest_bound : 900 / RECHECK_INTERVAL = 180.
Proof. reflexivity. Qed.

Lemma pod_bound : RECHECK_INTERVAL / RECHECK_INTERVAL = 1.
Proof. reflexivity. Qed.

(** ** Facts about [first_hit] *)

Lemma first_hit_S p start len :
  first_hit p start (S len) =
  if p start then Some 0 else S <$> first_hit p (S start) len.
Proof. reflexivity. Qed.

Lemma first_hit_Some p : forall len start i,
  first_hit p start len = Some i ->
  i < len /\ p (start + i) = true /\ forall j, j < i -> p (start + j) = false.
Proof.
  induction len as [|len IH]; intros start i H; simpl in H; [discriminate|].
  destruct (p start) eqn:Hp.
  - injection H as <-. rewrite Nat.add_0_r. repeat split; [lia|done|lia].
  - destruct (first_hit p (S start) len) as [i'|] eqn:Hh; [|discriminate].
    injection H as <-. destruct (IH _ _ Hh) as (Hlt & Hi & Hbefore).
    repeat split; [lia| |].
    + by rewrite <- Nat.add_succ_comm.
    + intros [|j] Hj; [by rewrite Nat.add_0_r|].
      rewrite <- Nat.add_succ_comm. apply Hbefore. lia.
Qed.


Lemma first_hit_never p start len :
  (forall n, p n = false) -> first_hit p start len = None.
Proof.
  intros Hp. revert start. induction len as [|len IH]; intros start; [done|].
  simpl. by rewrite Hp, IH.
Qed.

(** ** Unfolding the loops *)

Lemma while_true_S fuel body st :
  while_true (S fuel) body st =
  match body st with
  | (Ok Break, st') => (Ok tt, st')
  | (Ok Next, st') => while_true fuel body st'
  | (Raise e, st') => (Raise e, st')
  | (OutOfFuel, st') => (OutOfFuel, st')
  end.
Proof.
  cbn [while_true]. unfold bind.
  destruct (body st) as [[[]| |] st']; reflexivity.
Qed.

Lemma while_not_found_S fuel body st :
  while_not_found (S fuel) body st =
  if found st then (Ok tt, st)
  else match body st with
       | (Ok _, st') => while_not_found fuel body st'
       | (Raise e, st') => (Raise e, st')
       | (OutOfFuel, st') => (OutOfFuel, st')
       end.
Proof.
  cbn [while_not_found]. unfold bind, read.
  destruct (found st); [reflexivity|].
  destruct (body st) as [[| |] st']; reflexivity.
Qed.

Lemma for_each_cons {A} (x : A) rest body st :
  for_each (x :: rest) body st =
  match body x st with
  | (Ok _, st') => for_each rest body st'
  | (Raise e, st') => (Raise e, st')
  | (OutOfFuel, st') => (OutOfFuel, st')
  end.
Proof.
  cbn [for_each]. unfold bind.
  destruct (body x st) as [[| |] st']; reflexivity.
Qed.

(** ** One iteration and the whole loop of wait_for_catalog_sources *)

Section CatalogSources.
Context (w : World) (X : gset string) (src : string).

Lemma catalog_source_iteration_eq st :
  catalog_source_iteration w X src st =
  if available w src (n_catalog_list st) then
    (Ok Break,
     add_event (ELog INFO (Fmt "{} catalog found" (ASet X)))
               (count_catalog_list st))
  else if Nat.ltb (300 / RECHECK_INTERVAL) (tries st) then
    (Raise (catalog_timeout src),
     add_event (ELog ERROR (Fmt "Catalog Source {} not found" (AStr src)))
               (add_event (ESleep RECHECK_INTERVAL) (count_catalog_list st)))
  else
    (Ok Next,
     with_tries (tries st + 1)
                (add_event (ESleep RECHECK_INTERVAL) (count_catalog_list st))).
Proof.
  unfold catalog_source_iteration, available, bind, CatalogSource_get.
  destruct (bool_decide _); [reflexivity|].
  unfold sleep, emit, modify, read; simpl.
  destruct (Nat.ltb _ _); reflexivity.
Qed.

(** The loop entered with [tries st = 61 - k]: it stops at the first of
    the next [k + 1] listings that names the source, and raises after
    the last of them otherwise. *)
Lemma while_catalog_spec : forall k fuel st,
  tries st + S k = 300 / RECHECK_INTERVAL + 2 ->
  S k <= fuel ->
  let r := while_true fuel (catalog_source_iteration w X src) st in
  match first_hit (available w src) (n_catalog_list st) (S k) with
  | Some i =>
      fst r = Ok tt /\
      n_catalog_list (snd r) = n_catalog_list st + S i /\
      tries (snd r) = tries st + i
  | None =>
      fst r = Raise (catalog_timeout src) /\
      n_catalog_list (snd r) = n_catalog_list st + S k /\
      tries (snd r) = 300 / RECHECK_INTERVAL + 1
  end.
Proof.
  rewrite catalog_bound.
  induction k as [|k IH]; intros fuel st Ht Hfuel;
    (destruct fuel as [|fuel]; [lia|]);
    cbv zeta;
    rewrite first_hit_S, while_true_S, catalog_source_iteration_eq,
      catalog_bound;
    destruct (available w src (n_catalog_list st)) eqn:Hav;
    try (simpl; repeat split; lia).
  - destruct (Nat.ltb_spec 60 (tries st)); [|lia].
    simpl. repeat split; lia.
  - destruct (Nat.ltb_spec 60 (tries st)); [lia|].
    specialize (IH fuel
      (with_tries (tries st + 1)
         (add_event (ESleep RECHECK_INTERVAL) (count_catalog_list st)))).
    cbn [tries n_catalog_list with_tries add_event count_catalog_list] in IH.
    specialize (IH ltac:(lia) ltac:(lia)).
    destruct (first_hit _ (S (n_catalog_list st)) (S k)) as [i|];
      cbn [fmap option_fmap option_map];
      destruct IH as (H1 & H2 & H3); repeat split; try done; lia.
Qed.
End CatalogSources.

(** ** One iteration of the two loops that keep a cached listing *)

Section Iterations.
Context (w : World).

Lemma for_break_manifests operator l : forall st,
  for_break l (manifest_matches operator) st =
  if has_manifest operator l
  then (Ok tt, with_found true (add_event (manifest_found_log operator) st))
  else (Ok tt, st).
Proof.
  induction l as [|pm l IH]; intros st; [reflexivity|].
  cbn [for_break has_manifest existsb]. unfold bind, manifest_matches at 1.
  destruct (String.eqb (pm_name pm) (name operator)); [reflexivity|].
  simpl. apply IH.
Qed.

Lemma package_manifest_check_eq operator l st :
  found st = false ->
  package_manifest_check operator l st =
  let st1 := after_scan (manifest_found_log operator)
                        (has_manifest operator l) st in
  if Nat.ltb (900 / RECHECK_INTERVAL) (tries st)
  then (Raise (manifest_timeout operator),
        add_event (manifest_error_log operator) st1)
  else (Ok tt, with_tries (tries st + 1) st1).
Proof.
  intros Hf. unfold package_manifest_check, bind at 1.
  rewrite for_break_manifests. unfold after_scan.
  destruct (has_manifest operator l); unfold bind, read, sleep, emit, modify;
    simpl; rewrite ?Hf; simpl;
    destruct (Nat.ltb _ (tries st)); reflexivity.
Qed.

Lemma for_break_pods target l : forall st,
  for_break l (pod_matches target) st =
  match find_ready target l with
  | inl e => (Raise e, st)
  | inr true => (Ok tt, with_found true (add_event (pod_found_log target) st))
  | inr false => (Ok tt, st)
  end.
Proof.
  induction l as [|pod l IH]; intros st; [reflexivity|].
  cbn [for_break find_ready]. unfold bind, pod_matches at 1.
  destruct (pod_status_count pod) as [e|n]; [reflexivity|].
  unfold lift_result, bind, ret.
  destruct (str_in target (pod_name pod) && Nat.eqb n 1); [reflexivity|].
  apply IH.
Qed.

Lemma running_pods_check_eq target l st :
  found st = false ->
  running_pods_check target l st =
  match find_ready target l with
  | inl e => (Raise e, st)
  | inr hit =>
      let st1 := after_scan (pod_found_log target) hit st in
      if Nat.ltb (RECHECK_INTERVAL / RECHECK_INTERVAL) (tries st)
      then (Raise (pod_timeout target),
            add_event (pod_error_log target) st1)
      else (Ok tt, with_tries (tries st + 1) st1)
  end.
Proof.
  intros Hf. unfold running_pods_check, bind at 1.
  rewrite for_break_pods. unfold after_scan.
  destruct (find_ready target l) as [e|[]]; [reflexivity| |];
    unfold bind, read, sleep, emit, modify;
    simpl; rewrite ?Hf; simpl;
    destruct (Nat.ltb _ (tries st)); reflexivity.
Qed.

(** The listing an iteration works on, and the state once it is chosen. *)
Lemma cached_package_manifests_eq st :
  cached_package_manifests w st =
  match tries st, previous_manifests st with
  | O, Some l => (Ok l, st)
  | _, _ =>
      let l := package_manifests_at w (n_manifest_list st) in
      (Ok l, with_previous_manifests (Some l) (count_manifest_list st))
  end.
Proof.
  unfold cached_package_manifests, bind, read.
  destruct (tries st), (previous_manifests st); reflexivity.
Qed.

Lemma cached_running_pods_eq operator st :
  cached_running_pods w operator st =
  match tries st, previous_pods st with
  | O, Some l => (Ok l, st)
  | _, _ =>
      let l := pods_at w (n_pod_list st) (namespace operator) in
      (Ok l, with_previous_pods (Some l)
               (count_pod_list (namespace operator) st))
  end.
Proof.
  unfold cached_running_pods, bind, read.
  destruct (tries st), (previous_pods st); reflexivity.
Qed.
End Iterations.

(** ** The loop of wait_for_package_manifests *)

Section PackageManifests.
Context (w : World) (operator : OperatorSpec).

Lemma package_manifest_iteration_fresh st :
  1 <= tries st \/ previous_manifests st = None ->
  package_manifest_iteration w operator st =
  let l := package_manifests_at w (n_manifest_list st) in
  package_manifest_check operator l
    (with_previous_manifests (Some l) (count_manifest_list st)).
Proof.
  intros Hc. unfold package_manifest_iteration, bind at 1.
  rewrite cached_package_manifests_eq.
  destruct Hc as [Ht|Hp].
  - destruct (tries st); [lia|reflexivity].
  - rewrite Hp. destruct (tries st); reflexivity.
Qed.

Lemma package_manifest_iteration_cached st l :
  tries st = 0 -> previous_manifests st = Some l ->
  package_manifest_iteration w operator st =
  package_manifest_check operator l st.
Proof.
  intros Ht Hp. unfold package_manifest_iteration, bind at 1.
  by rewrite cached_package_manifests_eq, Ht, Hp.
Qed.

(** From an iteration that fetches, with [tries st = 181 - k]: the loop
    succeeds at the first of the next [k] listings that has the
    manifest; otherwise it fetches once more and raises. *)
Lemma while_manifest_fresh : forall k fuel st,
  found st = false ->
  1 <= tries st \/ previous_manifests st = None ->
  tries st + k = 900 / RECHECK_INTERVAL + 1 ->
  S k <= fuel ->
  let r := while_not_found fuel (package_manifest_iteration w operator) st in
  previous_manifests (snd r) =
    Some (package_manifests_at w (pred (n_manifest_list (snd r)))) /\
  match first_hit (listed w operator) (n_manifest_list st) k with
  | Some i =>
      fst r = Ok tt /\
      n_manifest_list (snd r) = n_manifest_list st + S i /\
      tries (snd r) = tries st + S i
  | None =>
      fst r = Raise (manifest_timeout operator) /\
      n_manifest_list (snd r) = n_manifest_list st + S k /\
      tries (snd r) = 900 / RECHECK_INTERVAL + 1
  end.
Proof.
  rewrite manifest_bound.
  induction k as [|k IH]; intros fuel st Hf Hc Ht Hfuel;
    (destruct fuel as [|fuel]; [lia|]); cbv zeta;
    rewrite while_not_found_S, Hf, package_manifest_iteration_fresh by done;
    cbv zeta; rewrite package_manifest_check_eq, manifest_bound by done;
    cbn [tries with_previous_manifests count_manifest_list].
  - destruct (Nat.ltb_spec 180 (tries st)); [|lia].
    destruct (has_manifest _ _); simpl; repeat split; lia.
  - destruct (Nat.ltb_spec 180 (tries st)); [lia|].
    rewrite first_hit_S. fold (listed w operator (n_manifest_list st)).
    destruct (listed w operator (n_manifest_list st)) eqn:Hl; cbv zeta.
    + destruct fuel as [|fuel]; [lia|].
      rewrite while_not_found_S. simpl. repeat split; lia.
    + match goal with |- context [while_not_found fuel _ ?s] =>
        specialize (IH fuel s) end.
      cbn [after_scan tries n_manifest_list found previous_manifests
           with_tries add_event with_previous_manifests count_manifest_list]
        in IH |- *.
      destruct (IH Hf ltac:(lia) ltac:(lia) ltac:(lia)) as [Hprev IH'].
      split; [exact Hprev|].
      destruct (first_hit (listed w operator) (S (n_manifest_list st)) k) as [i|];
        cbn [fmap option_fmap option_map];
        destruct IH' as (H1 & H2 & H3); repeat split; try done; lia.
Qed.

(** The whole wait for one operator, by the cache it starts with. *)
Lemma await_package_manifest_spec fuel st :
  900 / RECHECK_INTERVAL + 3 <= fuel ->
  let r := await_package_manifest w fuel operator st in
  let n := n_manifest_list st in
  ((exists n', previous_manifests (snd r) = Some (package_manifests_at w n')) \/
   (exists l, previous_manifests st = Some l /\
              previous_manifests (snd r) = Some l)) /\
  match previous_manifests st with
  | None =>
      match first_hit (listed w operator) n (900 / RECHECK_INTERVAL + 1) with
      | Some i =>
          fst r = Ok tt /\ n_manifest_list (snd r) = n + S i /\
          tries (snd r) = S i
      | None =>
          fst r = Raise (manifest_timeout operator) /\
          n_manifest_list (snd r) = n + (900 / RECHECK_INTERVAL + 2) /\
          tries (snd r) = 900 / RECHECK_INTERVAL + 1
      end
  | Some l =>
      if has_manifest operator l then
        fst r = Ok tt /\ n_manifest_list (snd r) = n /\ tries (snd r) = 1 /\
        previous_manifests (snd r) = Some l
      else
        match first_hit (listed w operator) n (900 / RECHECK_INTERVAL) with
        | Some i =>
            fst r = Ok tt /\ n_manifest_list (snd r) = n + S i /\
            tries (snd r) = S (S i)
        | None =>
            fst r = Raise (manifest_timeout operator) /\
            n_manifest_list (snd r) = n + (900 / RECHECK_INTERVAL + 1) /\
            tries (snd r) = 900 / RECHECK_INTERVAL + 1
        end
  end.
Proof.
  rewrite manifest_bound. intros Hfuel. cbv zeta.
  unfold await_package_manifest, bind, modify.
  destruct (previous_manifests st) as [l|] eqn:Hp.
  - destruct fuel as [|fuel]; [lia|].
    rewrite while_not_found_S. cbn [found with_found].
    rewrite (package_manifest_iteration_cached _ l),
      package_manifest_check_eq by done.
    cbv zeta. cbn [tries with_found with_tries]. rewrite manifest_bound.
    destruct (Nat.ltb_spec 180 0); [lia|].
    destruct (has_manifest operator l) eqn:Hl.
    + destruct fuel as [|fuel]; [lia|].
      rewrite while_not_found_S. simpl. split; [right; eauto|done].
    + match goal with |- context [while_not_found fuel _ ?s] =>
        pose proof (while_manifest_fresh 180 fuel s) as H' end.
      cbn [after_scan tries n_manifest_list found previous_manifests
           with_tries with_found add_event] in H' |- *.
      destruct (H' eq_refl ltac:(lia) ltac:(by rewrite manifest_bound)
                   ltac:(lia)) as [Hprev H''].
      rewrite manifest_bound in H''. split; [left; eauto|].
      destruct (first_hit (listed w operator) (n_manifest_list st) 180);
        destruct H'' as (H1 & H2 & H3); repeat split; try done; lia.
  - match goal with |- context [while_not_found fuel _ ?s] =>
      pose proof (while_manifest_fresh 181 fuel s) as H' end.
    cbn [tries n_manifest_list found previous_manifests
         with_tries with_found] in H'.
    destruct (H' eq_refl ltac:(by right) ltac:(by rewrite manifest_bound)
                 ltac:(lia)) as [Hprev H''].
    rewrite manifest_bound in H''. change (180 + 1) with 181.
    split; [left; eauto|].
    destruct (first_hit (listed w operator) (n_manifest_list st) 181);
      destruct H'' as (H1 & H2 & H3); repeat split; try done; lia.
Qed.
End PackageManifests.

(** ** The loop of verify_operator_running *)

Section OperatorPods.
Context (w : World) (operator : OperatorSpec) (target : string).

Lemma operator_pod_iteration_first st :
  tries st = 0 ->
  operator_pod_iteration w operator target st =
  running_pods_check target (first_listing w operator st)
    (match previous_pods st with
     | Some _ => st
     | None => with_previous_pods
                 (Some (pods_at w (n_pod_list st) (namespace operator)))
                 (count_pod_list (namespace operator) st)
     end).
Proof.
  intros Ht. unfold operator_pod_iteration, bind at 1, first_listing.
  rewrite cached_running_pods_eq, Ht.
  destruct (previous_pods st); reflexivity.
Qed.

Lemma operator_pod_iteration_later st :
  1 <= tries st ->
  operator_pod_iteration w operator target st =
  let l := pods_at w (n_pod_list st) (namespace operator) in
  running_pods_check target l
    (with_previous_pods (Some l) (count_pod_list (namespace operator) st)).
Proof.
  intros Ht. unfold operator_pod_iteration, bind at 1.
  rewrite cached_running_pods_eq.
  destruct (tries st); [lia|reflexivity].
Qed.

Lemma seconds_slept_cons e tr :
  seconds_slept (e :: tr) = slept e + seconds_slept tr.
Proof. reflexivity. Qed.

(** The loop from its second iteration on. *)
Lemma while_pod_later fuel st :
  3 <= fuel -> found st = false -> tries st = 1 ->
  let r := while_not_found fuel (operator_pod_iteration w operator target) st in
  let ns := namespace operator in
  let n := n_pod_list st in
  let s0 := seconds_slept (trace st) in
  match find_ready target (pods_at w n ns) with
  | inl e =>
      fst r = Raise e /\ n_pod_list (snd r) = n + 1 /\ tries (snd r) = 1 /\
      seconds_slept (trace (snd r)) = s0
  | inr true =>
      fst r = Ok tt /\ n_pod_list (snd r) = n + 1 /\ tries (snd r) = 2 /\
      seconds_slept (trace (snd r)) = s0 /\
      previous_pods (snd r) = Some (pods_at w n ns)
  | inr false =>
      match find_ready target (pods_at w (S n) ns) with
      | inl e =>
          fst r = Raise e /\ n_pod_list (snd r) = n + 2 /\
          tries (snd r) = 2 /\
          seconds_slept (trace (snd r)) = s0 + RECHECK_INTERVAL
      | inr hit =>
          fst r = Raise (pod_timeout target) /\
          n_pod_list (snd r) = n + 2 /\ tries (snd r) = 2 /\
          seconds_slept (trace (snd r)) =
            s0 + (if hit then 1 else 2) * RECHECK_INTERVAL
      end
  end.
Proof.
  intros Hfuel Hf Ht. cbv zeta.
  do 3 (destruct fuel as [|fuel]; [lia|]).
  rewrite while_not_found_S, Hf, operator_pod_iteration_later by lia.
  cbv zeta. rewrite running_pods_check_eq by done.
  destruct (find_ready target (pods_at w (n_pod_list st) _)) as [e|[]];
    cbv zeta; cbn [tries with_previous_pods count_pod_list]; rewrite ?Ht;
    try change (Nat.ltb (RECHECK_INTERVAL / RECHECK_INTERVAL) 1) with false;
    cbv iota.
  - simpl. repeat split; unfold RECHECK_INTERVAL; lia.
  - rewrite while_not_found_S. simpl. repeat split; unfold RECHECK_INTERVAL; lia.
  - rewrite while_not_found_S.
    cbn [after_scan found with_tries add_event with_previous_pods
         count_pod_list].
    rewrite Hf, operator_pod_iteration_later by (simpl; lia).
    cbv zeta. rewrite running_pods_check_eq by done.
    cbn [n_pod_list with_tries add_event with_previous_pods count_pod_list].
    destruct (find_ready target (pods_at w (S (n_pod_list st)) _))
      as [e|[]]; simpl; repeat split; unfold RECHECK_INTERVAL; lia.
Qed.

(** The whole wait for one pod target: at most three listings are
    scanned; only the first two can report the target ready. *)
Lemma await_operator_pod_spec fuel st :
  RECHECK_INTERVAL / RECHECK_INTERVAL + 3 <= fuel ->
  let r := await_operator_pod w fuel operator target st in
  let ns := namespace operator in
  let n1 := n_pod_list st + first_fetch st in
  let s0 := seconds_slept (trace st) in
  match find_ready target (first_listing w operator st) with
  | inl e =>
      fst r = Raise e /\ n_pod_list (snd r) = n1 /\ tries (snd r) = 0 /\
      seconds_slept (trace (snd r)) = s0
  | inr true =>
      fst r = Ok tt /\ n_pod_list (snd r) = n1 /\ tries (snd r) = 1 /\
      seconds_slept (trace (snd r)) = s0 /\
      previous_pods (snd r) = Some (first_listing w operator st) /\
      trace (snd r) =
        pod_found_log target ::
        match previous_pods st with
        | Some _ => trace st
        | None => EListPods ns :: trace st
        end
  | inr false =>
      match find_ready target (pods_at w n1 ns) with
      | inl e =>
          fst r = Raise e /\ n_pod_list (snd r) = n1 + 1 /\
          tries (snd r) = 1 /\
          seconds_slept (trace (snd r)) = s0 + RECHECK_INTERVAL
      | inr true =>
          fst r = Ok tt /\ n_pod_list (snd r) = n1 + 1 /\
          tries (snd r) = 2 /\
          seconds_slept (trace (snd r)) = s0 + RECHECK_INTERVAL /\
          previous_pods (snd r) = Some (pods_at w n1 ns)
      | inr false =>
          match find_ready target (pods_at w (S n1) ns) with
          | inl e =>
              fst r = Raise e /\ n_pod_list (snd r) = n1 + 2 /\
              tries (snd r) = 2 /\
              seconds_slept (trace (snd r)) = s0 + 2 * RECHECK_INTERVAL
          | inr hit =>
              fst r = Raise (pod_timeout target) /\
              n_pod_list (snd r) = n1 + 2 /\ tries (snd r) = 2 /\
              seconds_slept (trace (snd r)) =
                s0 + (if hit then 2 else 3) * RECHECK_INTERVAL
          end
      end
  end.
Proof.
  rewrite pod_bound. intros Hfuel. cbv zeta.
  destruct fuel as [|fuel]; [lia|].
  unfold await_operator_pod, bind, modify.
  rewrite while_not_found_S. cbn [found with_found].
  rewrite operator_pod_iteration_first by done.
  unfold first_fetch.
  replace (first_listing w operator (with_found false (with_tries 0 st)))
    with (first_listing w operator st) by reflexivity.
  cbn [previous_pods n_pod_list with_found with_tries].
  set (s1 := match previous_pods st with
             | Some _ => with_found false (with_tries 0 st)
             | None => _ end).
  assert (Hs1 : found s1 = false /\ tries s1 = 0 /\
            n_pod_list s1 = n_pod_list st +
              match previous_pods st with Some _ => 0 | None => 1 end /\
            trace s1 = match previous_pods st with
                       | Some _ => trace st
                       | None => EListPods (namespace operator) :: trace st
                       end /\
            previous_pods s1 = Some (first_listing w operator st)).
  { unfold s1, first_listing.
    destruct (previous_pods st) eqn:Hp; simpl; rewrite ?Hp;
      repeat split; unfold RECHECK_INTERVAL; lia. }
  destruct Hs1 as (Hf1 & Ht1 & Hn1 & Htr1 & Hp1).
  assert (Hsl : seconds_slept (trace s1) = seconds_slept (trace st)).
  { rewrite Htr1. by destruct (previous_pods st). }
  rewrite running_pods_check_eq by done. rewrite <- Hn1.
  destruct (find_ready target (first_listing w operator st)) as [e|[]]; cbv zeta.
  - simpl. done.
  - rewrite Ht1.
    change (Nat.ltb (RECHECK_INTERVAL / RECHECK_INTERVAL) 0) with false.
    cbv iota. destruct fuel as [|fuel]; [lia|].
    rewrite while_not_found_S. simpl. rewrite Hsl. by rewrite Htr1.
  - rewrite Ht1.
    change (Nat.ltb (RECHECK_INTERVAL / RECHECK_INTERVAL) 0) with false.
    cbv iota.
    match goal with |- context [while_not_found fuel _ ?s] =>
      pose proof (while_pod_later fuel s ltac:(lia) Hf1 eq_refl) as H' end.
    cbv zeta in H'. cbn [after_scan].
    cbn [after_scan n_pod_list trace with_tries add_event] in H'.
    rewrite seconds_slept_cons, Hsl in H'. cbn [slept] in H'.
    destruct (find_ready target (pods_at w (n_pod_list s1) _)) as [e|[]].
    + destruct H' as (?&?&?&?). repeat split; try done; unfold RECHECK_INTERVAL in *; lia.
    + destruct H' as (?&?&?&?&?). repeat split; try done; unfold RECHECK_INTERVAL in *; lia.
    + destruct (find_ready target (pods_at w (S (n_pod_list s1)) _))
        as [e|[]]; destruct H' as (?&?&?&?); repeat split; try done; unfold RECHECK_INTERVAL in *; lia.
Qed.
End OperatorPods.

(** ** Programs that issue no install request *)

Create HintDb quiet.

Section Quiet.
Context (w : World).

Lemma quiet_ret {A} (a : A) : quiet (ret a).
Proof. by intros st. Qed.

Lemma quiet_raise {A} e : quiet (@raise A e).
Proof. by intros st. Qed.

Lemma quiet_out_of_fuel {A} : quiet (@out_of_fuel A).
Proof. by intros st. Qed.

Lemma quiet_read {A} (f : State -> A) : quiet (read f).
Proof. by intros st. Qed.

Lemma quiet_bind {A B} (m : M A) (k : A -> M B) :
  quiet m -> (forall a, quiet (k a)) -> quiet (bind m k).
Proof.
  intros Hm Hk st. unfold bind. specialize (Hm st).
  destruct (m st) as [[a|e|] st']; simpl in Hm; try done.
  destruct (Hk a st') as [H1 H2]. destruct Hm as [H3 H4]. split; congruence.
Qed.

Lemma quiet_try_except {A} (body : M A) handler :
  quiet body -> (forall e, quiet (handler e)) -> quiet (try_except body handler).
Proof.
  intros Hm Hk st. unfold try_except. specialize (Hm st).
  destruct (body st) as [[a|e|] st']; simpl in Hm; try done.
  destruct (Hk e st') as [H1 H2]. destruct Hm as [H3 H4]. split; congruence.
Qed.

Lemma quiet_lift_result {A} (r : Exn + A) : quiet (lift_result r).
Proof. destruct r; by intros st. Qed.

Lemma quiet_with_tries n : quiet (modify (with_tries n)).
Proof. by intros st. Qed.

Lemma quiet_with_found b : quiet (modify (with_found b)).
Proof. by intros st. Qed.

Lemma quiet_with_previous_manifests c :
  quiet (modify (with_previous_manifests c)).
Proof. by intros st. Qed.

Lemma quiet_with_previous_pods c : quiet (modify (with_previous_pods c)).
Proof. by intros st. Qed.

Lemma quiet_log lvl msg : quiet (log lvl msg).
Proof. by intros st. Qed.

Lemma quiet_header text : quiet (header text).
Proof. by intros st. Qed.

Lemma quiet_sleep n : quiet (sleep n).
Proof. by intros st. Qed.

Lemma quiet_CatalogSource_get : quiet (CatalogSource_get w).
Proof. by intros st. Qed.

Lemma quiet_PackageManifest_get : quiet (PackageManifest_get w).
Proof. by intros st. Qed.

Lemma quiet_Pod_get ns : quiet (Pod_get w ns).
Proof. by intros st. Qed.

Lemma quiet_while_true fuel body : quiet body -> quiet (while_true fuel body).
Proof.
  intros Hb. induction fuel as [|fuel IH]; [apply quiet_out_of_fuel|].
  cbn [while_true]. apply quiet_bind; [done|].
  intros []; [done|apply quiet_ret].
Qed.

Lemma quiet_while_not_found fuel body :
  quiet body -> quiet (while_not_found fuel body).
Proof.
  intros Hb. induction fuel as [|fuel IH]; [apply quiet_out_of_fuel|].
  cbn [while_not_found]. apply quiet_bind; [apply quiet_read|].
  intros []; [apply quiet_ret|]. by apply quiet_bind.
Qed.

Lemma quiet_for_each {A} (l : list A) body :
  (forall x, quiet (body x)) -> quiet (for_each l body).
Proof.
  intros Hb. induction l as [|x l IH]; [apply quiet_ret|].
  cbn [for_each]. by apply quiet_bind.
Qed.

Lemma quiet_for_break {A} (l : list A) body :
  (forall x, quiet (body x)) -> quiet (for_break l body).
Proof.
  intros Hb. induction l as [|x l IH]; [apply quiet_ret|].
  cbn [for_break]. apply quiet_bind; [done|].
  intros []; [done|apply quiet_ret].
Qed.
End Quiet.

#[local] Hint Resolve quiet_ret quiet_raise quiet_out_of_fuel quiet_read
  quiet_lift_result quiet_with_tries quiet_with_found
  quiet_with_previous_manifests quiet_with_previous_pods quiet_log
  quiet_header quiet_sleep quiet_CatalogSource_get quiet_PackageManifest_get
  quiet_Pod_get : quiet.
#[local] Hint Resolve quiet_bind quiet_try_except quiet_while_true
  quiet_while_not_found quiet_for_each quiet_for_break : quiet.

Ltac quiet_step :=
  repeat first
    [ progress intros
    | apply quiet_bind | apply quiet_try_except | apply quiet_while_true
    | apply quiet_while_not_found | apply quiet_for_each
    | apply quiet_for_break
    | solve [auto with quiet]
    | match goal with
      | |- quiet (if ?b then _ else _) => destruct b
      | |- quiet (match ?x with _ => _ end) => destruct x
      end ].

Lemma quiet_load_config w path : quiet (load_config w path).
Proof. unfold load_config. quiet_step. Qed.

Lemma quiet_wait_for_catalog_sources w fuel ops :
  quiet (wait_for_catalog_sources w fuel ops).
Proof.
  unfold wait_for_catalog_sources, await_catalog_source,
    catalog_source_iteration.
  quiet_step.
Qed.

Lemma quiet_wait_for_package_manifests w fuel ops :
  quiet (wait_for_package_manifests w fuel ops).
Proof.
  unfold wait_for_package_manifests, await_package_manifest,
    package_manifest_iteration, cached_package_manifests,
    package_manifest_check, manifest_matches.
  quiet_step.
Qed.

(** ** Strings: replace, split and join *)

Section Strings.

Lemma prefix_nil s : String.prefix EmptyString s = true.
Proof. by destruct s. Qed.

Lemma prefix_split : forall old s,
  String.prefix old s = true -> exists t, s = old ++ t.
Proof.
  induction old as [|a old IH]; intros s H; [by exists s|].
  destruct s as [|b s]; [discriminate|]. simpl in H.
  destruct (Ascii.ascii_dec a b) as [->|]; [|discriminate].
  destruct (IH _ H) as [t ->]. by exists t.
Qed.

Lemma prefix_app : forall old u x,
  String.prefix old u = true -> String.prefix old (u ++ x) = true.
Proof.
  induction old as [|a old IH]; intros u x H; [apply prefix_nil|].
  destruct u as [|b u]; [discriminate|]. simpl in *.
  destruct (Ascii.ascii_dec a b); [by apply IH|discriminate].
Qed.

Lemma prefix_refl_app : forall old t, String.prefix old (old ++ t) = true.
Proof.
  induction old as [|a old IH]; intros t; [apply prefix_nil|]. simpl.
  destruct (Ascii.ascii_dec a a); [apply IH|done].
Qed.

Lemma length_app : forall u t,
  String.length (u ++ t) = String.length u + String.length t.
Proof. induction u as [|c u IH]; intros t; simpl; [done|by rewrite IH]. Qed.

Lemma app_String c u t : String c u ++ t = String c (u ++ t).
Proof. reflexivity. Qed.

Lemma app_Empty t : EmptyString ++ t = t.
Proof. reflexivity. Qed.

Lemma replace_from_skip old new : forall u t,
  replace_from old new (String.length u) (u ++ t) = replace_from old new 0 t.
Proof. induction u as [|c u IH]; intros t; [done|]. simpl. apply IH. Qed.

Lemma split_from_skip sep : forall u t,
  split_from sep (String.length u) (u ++ t) = split_from sep 0 t.
Proof. induction u as [|c u IH]; intros t; [done|]. simpl. apply IH. Qed.

Lemma split_from_nonempty sep : forall s k, split_from sep k s <> [].
Proof.
  induction s as [|c s IH]; intros k; [by simpl|]. cbn [split_from].
  destruct k; [|apply IH].
  destruct (String.prefix sep (String c s)); [done|].
  by destruct (split_from sep 0 s).
Qed.

Lemma replace_from_0 old new c s :
  replace_from old new 0 (String c s) =
  if String.prefix old (String c s)
  then new ++ replace_from old new (String.length old - 1) s
  else String c (replace_from old new 0 s).
Proof. reflexivity. Qed.

Lemma split_from_0 sep c s :
  split_from sep 0 (String c s) =
  if String.prefix sep (String c s)
  then EmptyString :: split_from sep (String.length sep - 1) s
  else match split_from sep 0 s with
       | seg :: rest => String c seg :: rest
       | [] => [String c EmptyString]
       end.
Proof. reflexivity. Qed.

Context (old : string) (Hold : old <> EmptyString).

Lemma replace_match new t :
  replace old new (old ++ t) = new ++ replace old new t.
Proof using Hold.
  unfold replace. destruct old as [|a old']; [done|].
  rewrite app_String, replace_from_0, <- app_String, prefix_refl_app.
  f_equal.
  replace (String.length (String a old') - 1) with (String.length old')
    by (simpl; lia).
  apply replace_from_skip.
Qed.

Lemma split_match t : split old (old ++ t) = EmptyString :: split old t.
Proof using Hold.
  unfold split. destruct old as [|a old']; [done|].
  rewrite app_String, split_from_0, <- app_String, prefix_refl_app.
  f_equal.
  replace (String.length (String a old') - 1) with (String.length old')
    by (simpl; lia).
  apply split_from_skip.
Qed.

Lemma replace_skip new c s :
  String.prefix old (String c s) = false ->
  replace old new (String c s) = String c (replace old new s).
Proof. intros H. unfold replace. by rewrite replace_from_0, H. Qed.

Lemma split_skip c s :
  String.prefix old (String c s) = false ->
  exists seg rest, split old s = seg :: rest /\
                   split old (String c s) = String c seg :: rest.
Proof.
  intros H. unfold split. rewrite split_from_0, H.
  destruct (split_from old 0 s) as [|seg rest] eqn:E.
  - by apply split_from_nonempty in E.
  - by exists seg, rest.
Qed.

Lemma join_cons sep x y l : join sep (x :: y :: l) = x ++ sep ++ join sep (y :: l).
Proof. reflexivity. Qed.

Lemma join_String sep c seg rest :
  join sep (String c seg :: rest) = String c (join sep (seg :: rest)).
Proof. destruct rest; reflexivity. Qed.

Lemma join_head sep seg rest : exists x, join sep (seg :: rest) = seg ++ x.
Proof.
  destruct rest as [|y l].
  - exists EmptyString. cbn [join]. symmetry.
    induction seg as [|c seg IH]; [done|]. by rewrite app_String, IH.
  - by exists (sep ++ join sep (y :: l)).
Qed.

Lemma str_in_empty : str_in old EmptyString = false.
Proof using Hold. by destruct old. Qed.

(** Splitting at [old] and joining with [old] gives the string back;
    joining with [new] instead is [replace]; no piece contains [old]. *)
Lemma split_join_replace new : forall n s,
  String.length s <= n ->
  join old (split old s) = s /\
  replace old new s = join new (split old s) /\
  Forall (fun seg => str_in old seg = false) (split old s).
Proof using Hold.
  assert (Hbase : join old (split old EmptyString) = EmptyString /\
            replace old new EmptyString = join new (split old EmptyString) /\
            Forall (fun seg => str_in old seg = false)
                   (split old EmptyString)).
  { split; [done|split; [done|]].
    constructor; [apply str_in_empty|done]. }
  induction n as [|n IH]; intros s Hn.
  - destruct s; [done|simpl in Hn; lia].
  - destruct s as [|c s]; [done|].
    destruct (String.prefix old (String c s)) eqn:Hp.
    + destruct (prefix_split _ _ Hp) as [t Ht]. rewrite Ht.
      assert (Hlen : String.length t <= n).
      { apply (f_equal String.length) in Ht. rewrite length_app in Ht.
        simpl in Ht, Hn. destruct old; [done|]. simpl in Ht. lia. }
      destruct (IH t Hlen) as (Hj & Hr & Hf).
      rewrite split_match, replace_match, Hr.
      destruct (split old t) as [|y l] eqn:E;
        [by apply split_from_nonempty in E|].
      rewrite !join_cons, Hj. repeat split; try done.
      constructor; [apply str_in_empty|done].
    + simpl in Hn. destruct (IH s ltac:(lia)) as (Hj & Hr & Hf).
      destruct (split_skip c s Hp) as (seg & rest & Hs & Hs').
      rewrite Hs', (replace_skip _ _ _ Hp), Hr, Hs, !join_String.
      rewrite Hs in Hj, Hf. rewrite Hj. repeat split; try done.
      inversion Hf as [|? ? Hseg Hrest]; subst.
      constructor; [|done]. cbn [str_in]. rewrite Hseg.
      destruct (String.prefix old (String c seg)) eqn:Hp'; [|done].
      destruct (join_head old seg rest) as [x Hx].
      rewrite Hx, <- app_String in Hp.
      by rewrite (prefix_app _ _ _ Hp') in Hp.
Qed.

Lemma prefix_shorter : forall a b t,
  String.prefix a (b ++ t) = true -> String.length a <= String.length b ->
  String.prefix a b = true.
Proof.
  induction a as [|x a IH]; intros b t H Hlen; [apply prefix_nil|].
  destruct b as [|y b]; [simpl in Hlen; lia|].
  rewrite app_String in H. simpl in H |- *.
  destruct (Ascii.ascii_dec x y); [|discriminate].
  apply (IH b t H). simpl in Hlen. lia.
Qed.

Lemma prefix_cut : forall u y s,
  String.prefix s (u ++ y) = true -> String.length u <= String.length s ->
  exists v, s = u ++ v /\ String.prefix v y = true.
Proof.
  induction u as [|c u IH]; intros y s H Hlen; [by exists s|].
  destruct s as [|x s]; [simpl in Hlen; lia|].
  rewrite app_String in H. simpl in H.
  destruct (Ascii.ascii_dec x c) as [->|]; [|discriminate].
  destruct (IH y s H) as (v & -> & Hv); [simpl in Hlen; lia|].
  by exists v.
Qed.

Lemma suffix_prefix_app o : forall u v,
  v <> EmptyString -> String.prefix v o = true ->
  suffix_prefix o (u ++ v) = true.
Proof.
  induction u as [|c u IH]; intros v Hv Hp.
  - rewrite app_Empty. destruct v as [|x v]; [done|].
    cbn [suffix_prefix]. by rewrite Hp.
  - rewrite app_String. cbn [suffix_prefix].
    rewrite (IH v Hv Hp). apply orb_true_r.
Qed.

(** An occurrence of an unbordered [old] cannot start inside the last
    characters before another occurrence. *)
Lemma no_straddle u t :
  has_border old = false ->
  u <> EmptyString -> String.length u < String.length old ->
  String.prefix old (u ++ old ++ t) = false.
Proof using Hold.
  intros Hb Hu Hlen.
  destruct (String.prefix old (u ++ old ++ t)) eqn:Hp; [|done].
  destruct (prefix_cut u (old ++ t) old Hp ltac:(lia)) as (v & Hv & Hpv).
  assert (Hvlen : String.length v <= String.length old).
  { apply (f_equal String.length) in Hv. rewrite length_app in Hv. lia. }
  assert (Hvne : v <> EmptyString).
  { intros ->. apply (f_equal String.length) in Hv.
    rewrite length_app in Hv. simpl in Hv. lia. }
  pose proof (prefix_shorter v old t Hpv Hvlen) as Hvo.
  destruct u as [|c u]; [done|].
  rewrite Hv in Hb at 1. rewrite app_String in Hb. cbn [has_border] in Hb.
  rewrite <- app_String, <- Hv in Hb.
  by rewrite (suffix_prefix_app old u v Hvne Hvo) in Hb.
Qed.

Lemma str_in_String c p :
  str_in old (String c p) = false ->
  String.prefix old (String c p) = false /\ str_in old p = false.
Proof.
  cbn [str_in]. by destruct (String.prefix old (String c p)).
Qed.

Lemma replace_free new : forall p,
  str_in old p = false -> replace old new p = p.
Proof.
  induction p as [|c p IH]; intros H; [reflexivity|].
  apply str_in_String in H as [Hp Hin].
  by rewrite (replace_skip new c p Hp), (IH Hin).
Qed.

(** However an unbordered, non-empty [old] cuts a string into pieces
    that do not contain it, [replace] puts [new] at every cut. *)
Lemma replace_join new :
  has_border old = false ->
  forall pieces,
  pieces <> [] ->
  Forall (fun piece => str_in old piece = false) pieces ->
  replace old new (join old pieces) = join new pieces.
Proof using Hold.
  intros Hb. induction pieces as [|p pieces IH]; intros Hne Hf; [done|].
  inversion Hf as [|? ? Hp Hrest]; subst.
  destruct pieces as [|q pieces]; [by apply replace_free|].
  specialize (IH ltac:(done) Hrest). rewrite !join_cons.
  clear Hf Hne. induction p as [|c p IHp].
  - by rewrite !app_Empty, replace_match, IH.
  - apply str_in_String in Hp as [Hpre Hin].
    rewrite !app_String, replace_skip, (IHp Hin); [done|].
    rewrite <- app_String.
    destruct (le_lt_dec (String.length old) (String.length (String c p)))
      as [Hlen|Hlen].
    + destruct (String.prefix old (String c p ++ old ++ join old (q :: pieces)))
        eqn:Hx; [|done].
      by rewrite (prefix_shorter _ _ _ Hx Hlen) in Hpre.
    + by apply no_straddle.
Qed.
End Strings.

(** ** When the three polls time out *)

Lemma find_ready_error target : forall l e,
  find_ready target l = inl e -> exists msg, e = TypeError msg.
Proof.
  induction l as [|pod l IH]; intros e H; [discriminate|].
  cbn [find_ready] in H. unfold pod_status_count in H.
  destruct (containerStatuses pod) as [statuses|].
  - unfold num_running_containers in H.
    destruct (_ && _); [discriminate|eauto].
  - injection H as <-. unfold not_iterable. eauto.
Qed.

Ltac poll_cases :=
  split; [done|split; [done|split; [unfold RECHECK_INTERVAL; lia|]]].

Lemma catalog_poll w fuel st X src :
  300 / RECHECK_INTERVAL + 2 <= fuel ->
  let r := await_catalog_source w fuel X src st in
  fst r <> OutOfFuel /\
  (forall msg, fst r = Raise (TimeoutError msg) ->
               tries (snd r) = 300 / RECHECK_INTERVAL + 1) /\
  n_catalog_list (snd r) <= n_catalog_list st + (300 / RECHECK_INTERVAL + 2) /\
  ((forall n, available w src n = false) ->
   fst r = Raise (catalog_timeout src) /\
   n_catalog_list (snd r) = n_catalog_list st + (300 / RECHECK_INTERVAL + 2)).
Proof.
  intros Hfuel. cbv zeta. unfold await_catalog_source, bind, modify.
  pose proof (while_catalog_spec w X src 61 fuel (with_tries 0 st)) as H.
  rewrite catalog_bound in *. cbv zeta in H.
  cbn [tries n_catalog_list with_tries] in H.
  specialize (H eq_refl ltac:(lia)).
  destruct (first_hit (available w src) (n_catalog_list st) 62) as [i|] eqn:Hh.
  - destruct H as (H1 & H2 & H3). rewrite H1, H2.
    apply first_hit_Some in Hh as (Hi & Hav & _).
    poll_cases.
    intros Hnever. by rewrite Hnever in Hav.
  - destruct H as (H1 & H2 & H3). rewrite H1, H2, H3.
    poll_cases; done.
Qed.

Lemma manifest_poll w fuel st operator :
  900 / RECHECK_INTERVAL + 3 <= fuel ->
  let r := await_package_manifest w fuel operator st in
  fst r <> OutOfFuel /\
  (forall msg, fst r = Raise (TimeoutError msg) ->
               tries (snd r) = 900 / RECHECK_INTERVAL + 1) /\
  n_manifest_list (snd r) <=
    n_manifest_list st + (900 / RECHECK_INTERVAL + 2) /\
  ((forall n, listed w operator n = false) ->
   (forall l, previous_manifests st = Some l ->
              has_manifest operator l = false) ->
   fst r = Raise (manifest_timeout operator)).
Proof.
  intros Hfuel. cbv zeta.
  pose proof (await_package_manifest_spec w operator fuel st Hfuel) as H.
  rewrite manifest_bound in *. cbv zeta in H. destruct H as [_ H].
  destruct (previous_manifests st) as [l|].
  - destruct (has_manifest operator l) eqn:Hl.
    + destruct H as (H1 & H2 & H3 & _). rewrite H1, H2.
      poll_cases.
      intros _ Hc. by rewrite (Hc l eq_refl) in Hl.
    + destruct (first_hit _ _ _) as [i|] eqn:Hh;
        destruct H as (H1 & H2 & H3); rewrite H1, H2.
      * apply first_hit_Some in Hh as (Hi & Hav & _).
        poll_cases.
        intros Hnever. by rewrite Hnever in Hav.
      * poll_cases; done.
  - destruct (first_hit _ _ _) as [i|] eqn:Hh;
      destruct H as (H1 & H2 & H3); rewrite H1, H2.
    + apply first_hit_Some in Hh as (Hi & Hav & _).
      poll_cases.
      intros Hnever. by rewrite Hnever in Hav.
    + poll_cases; done.
Qed.

Lemma pod_poll w fuel st operator target :
  RECHECK_INTERVAL / RECHECK_INTERVAL + 3 <= fuel ->
  let r := await_operator_pod w fuel operator target st in
  fst r <> OutOfFuel /\
  (forall msg, fst r = Raise (TimeoutError msg) ->
               tries (snd r) = RECHECK_INTERVAL / RECHECK_INTERVAL + 1) /\
  n_pod_list (snd r) <=
    n_pod_list st + (RECHECK_INTERVAL / RECHECK_INTERVAL + 2) /\
  ((forall n, find_ready target (pods_at w n (namespace operator)) = inr false) ->
   (forall l, previous_pods st = Some l -> find_ready target l = inr false) ->
   fst r = Raise (pod_timeout target) /\
   n_pod_list (snd r) = n_pod_list st + first_fetch st + 2 /\
   seconds_slept (trace (snd r)) =
     seconds_slept (trace st) + 3 * RECHECK_INTERVAL).
Proof.
  intros Hfuel. cbv zeta.
  pose proof (await_operator_pod_spec w operator target fuel st Hfuel) as H.
  rewrite pod_bound in *. cbv zeta in H.
  assert (Hff : first_fetch st <= 1)
    by (unfold first_fetch; destruct (previous_pods st); lia).
  assert (Hnever0 :
    (forall n, find_ready target (pods_at w n (namespace operator)) = inr false) ->
    (forall l, previous_pods st = Some l -> find_ready target l = inr false) ->
    find_ready target (first_listing w operator st) = inr false).
  { intros Hn Hc. unfold first_listing.
    destruct (previous_pods st); [by apply Hc|apply Hn]. }
  destruct (find_ready target (first_listing w operator st))
    as [e|[]] eqn:H0.
  - destruct (find_ready_error _ _ _ H0) as [key ->].
    destruct H as (H1 & H2 & H3 & H4). rewrite H1, H2.
    poll_cases. intros Hn Hc. by specialize (Hnever0 Hn Hc).
  - destruct H as (H1 & H2 & H3 & H4 & _ & _). rewrite H1, H2.
    poll_cases. intros Hn Hc. by specialize (Hnever0 Hn Hc).
  - destruct (find_ready target (pods_at w _ _)) as [e|[]] eqn:Hr1.
    + destruct (find_ready_error _ _ _ Hr1) as [key ->].
      destruct H as (H1 & H2 & H3 & H4). rewrite H1, H2.
      poll_cases. intros Hn Hc. by rewrite Hn in Hr1.
    + destruct H as (H1 & H2 & H3 & H4 & _). rewrite H1, H2.
      poll_cases. intros Hn Hc. by rewrite Hn in Hr1.
    + destruct (find_ready target (pods_at w (S _) _)) as [e|hit] eqn:Hr2.
      * destruct (find_ready_error _ _ _ Hr2) as [key ->].
        destruct H as (H1 & H2 & H3 & H4). rewrite H1, H2.
        poll_cases. intros Hn Hc. by rewrite Hn in Hr2.
      * destruct H as (H1 & H2 & H3 & H4). rewrite H1, H2, H3, H4.
        poll_cases. intros Hn Hc.
        rewrite Hn in Hr2. injection Hr2 as <-. repeat split; lia.
Qed.

(** ** The attempt at which each poll ends *)







(** ** wait_for_catalog_sources as a whole *)

Section AllCatalogSources.
Context (w : World) (fuel : nat) (X : gset string).
Context (Hfuel : 300 / RECHECK_INTERVAL + 2 <= fuel).

Lemma await_catalog_source_spec src st :
  let r := await_catalog_source w fuel X src st in
  match first_hit (available w src) (n_catalog_list st)
                  (300 / RECHECK_INTERVAL + 2) with
  | Some i =>
      fst r = Ok tt /\ n_catalog_list (snd r) = n_catalog_list st + S i
  | None =>
      fst r = Raise (catalog_timeout src) /\
      n_catalog_list (snd r) =
        n_catalog_list st + (300 / RECHECK_INTERVAL + 2)
  end.
Proof using Hfuel.
  cbv zeta. unfold await_catalog_source, bind, modify.
  pose proof (while_catalog_spec w X src 61 fuel (with_tries 0 st)) as H.
  rewrite catalog_bound in *. cbv zeta in H.
  cbn [tries n_catalog_list with_tries] in H.
  specialize (H eq_refl ltac:(lia)). change (60 + 2) with 62.
  destruct (first_hit (available w src) (n_catalog_list st) 62);
    destruct H as (H1 & H2 & H3); split; done.
Qed.

Lemma for_each_catalog : forall srcs st,
  let r := for_each srcs (await_catalog_source w fuel X) st in
  n_catalog_list st <= n_catalog_list (snd r) /\
  n_catalog_list (snd r) <=
    n_catalog_list st + length srcs * (300 / RECHECK_INTERVAL + 2) /\
  (fst r = Ok tt <->
   all_found w (300 / RECHECK_INTERVAL + 2) (n_catalog_list st) srcs = true) /\
  (fst r = Ok tt ->
   forall s, s ∈ srcs ->
     exists n, n_catalog_list st <= n < n_catalog_list (snd r) /\
               available w s n = true) /\
  (fst r <> Ok tt ->
   exists src, src ∈ srcs /\ fst r = Raise (catalog_timeout src)).
Proof using Hfuel.
  induction srcs as [|src srcs IH]; intros st; cbv zeta.
  - simpl. repeat split; try done; try lia.
    intros _ s Hs. by apply elem_of_nil in Hs.
  - rewrite for_each_cons. cbn [all_found length].
    pose proof (await_catalog_source_spec src st) as H. cbv zeta in H.
    destruct (first_hit _ _ _) as [i|] eqn:Hh.
    + destruct H as [H1 H2].
      destruct (await_catalog_source w fuel X src st) as [o st'].
      simpl in H1, H2. subst o.
      specialize (IH st'). cbv zeta in IH.
      destruct IH as (I1 & I2 & I3 & I4 & I5).
      apply first_hit_Some in Hh as (Hi & Hav & _).
      rewrite H2 in *. rewrite catalog_bound in *.
      split; [lia|]. split; [lia|]. split; [done|]. split.
      * intros Hok s Hs. apply elem_of_cons in Hs as [->|Hs].
        -- exists (n_catalog_list st + i). split; [lia|done].
        -- destruct (I4 Hok s Hs) as (n & Hn & Hav').
           exists n. split; [lia|done].
      * intros Hne. destruct (I5 Hne) as (s & Hs & Hr).
        exists s. split; [by apply list_elem_of_further|done].
    + destruct H as [H1 H2].
      destruct (await_catalog_source w fuel X src st) as [o st'].
      simpl in H1, H2. subst o. simpl.
      rewrite H2. rewrite catalog_bound in *.
      split; [lia|]. split; [lia|]. split; [done|]. split; [done|].
      intros _. exists src. split; [apply list_elem_of_here|done].
Qed.
End AllCatalogSources.

Lemma elements_order_ok w : set_order w = elements -> set_order_ok w.
Proof.
  intros E X. rewrite E. split; [apply NoDup_elements|].
  intros x. apply elem_of_elements.
Qed.

Lemma set_order_length w (X : gset string) :
  set_order_ok w -> length (set_order w X) = size X.
Proof.
  intros Hw. destruct (Hw X) as [Hnd Hin].
  unfold size, set_size. simpl. apply Permutation_length.
  apply NoDup_Permutation; [done|apply NoDup_elements|].
  intros x. by rewrite Hin, elem_of_elements.
Qed.

(** C2 (as amended).  For a configuration naming K distinct catalog
    sources, at most 300/5 + 2 = 62 listings are issued per awaited
    source, hence at most 62 K in all, and the function returns
    successfully exactly when every name, in the order in which the set
    is iterated, is listed in one of the 62 listings issued while it is
    the awaited one (the listings for a name start right after the one in
    which the name before it was found).  On success every configured
    name was listed by some listing of this call; on failure the error is
    the Timeout of one of the configured names. *)
Theorem catalog_sources_probe_budget w fuel (ops : list OperatorSpec) st :
  set_order_ok w ->
  300 / RECHECK_INTERVAL + 2 <= fuel ->
  let X : gset string := list_to_set (map catalogSource ops) in
  let r := wait_for_catalog_sources w fuel ops st in
  (forall src st',
     n_catalog_list (snd (await_catalog_source w fuel X src st'))
     <= n_catalog_list st' + (300 / RECHECK_INTERVAL + 2)) /\
  n_catalog_list (snd r)
    <= n_catalog_list st + size X * (300 / RECHECK_INTERVAL + 2) /\
  (fst r = Ok tt <->
   all_found w (300 / RECHECK_INTERVAL + 2) (n_catalog_list st)
             (set_order w X) = true) /\
  (fst r = Ok tt ->
   forall o, o ∈ ops ->
     exists n, n_catalog_list st <= n < n_catalog_list (snd r) /\
               available w (catalogSource o) n = true) /\
  (fst r <> Ok tt ->
   exists o, o ∈ ops /\ fst r = Raise (catalog_timeout (catalogSource o))).
Proof.
  intros Hw Hfuel X r.
  assert (HX : forall s, s ∈ set_order w X <-> exists o, o ∈ ops /\ s = catalogSource o).
  { intros s. destruct (Hw X) as [_ ->]. unfold X.
    rewrite elem_of_list_to_set, list_elem_of_In, in_map_iff.
    split; intros (o & H1 & H2).
    - exists o. by rewrite list_elem_of_In.
    - exists o. by rewrite <- list_elem_of_In. }
  split.
  { intros src st'. by apply catalog_poll. }
  subst r. unfold wait_for_catalog_sources, bind, header, log, emit, modify.
  fold X.
  pose proof (for_each_catalog w fuel X Hfuel (set_order w X)
    (add_event (ELog INFO (Fmt "============== {} =============="
                             (AStr "Waiting for Catalog Sources"))) st)) as H.
  cbv zeta in H. cbn [n_catalog_list add_event] in H.
  destruct H as (H1 & H2 & H3 & H4 & H5).
  rewrite (set_order_length w X Hw) in H2.
  split; [done|]. split; [done|]. split.
  - intros Hok o Ho. apply (H4 Hok). apply HX. eauto.
  - intros Hne. destruct (H5 Hne) as (s & Hs & Hr).
    apply HX in Hs as (o & Ho & ->). eauto.
Qed.

Lemma catalog_sources_probe_budget_witness :
  set_order_ok early_world /\ 300 / RECHECK_INTERVAL + 2 <= 62 /\
  fst (wait_for_catalog_sources early_world 62
         [sample_operator "a" "a" "ns" []] initial_state) = Ok tt.
Proof.
  assert (Hw : set_order_ok early_world) by (by apply elements_order_ok).
  assert (Hf : 300 / RECHECK_INTERVAL + 2 <= 62) by (vm_compute; lia).
  split; [exact Hw|]. split; [exact Hf|].
  destruct (catalog_sources_probe_budget early_world 62
              [sample_operator "a" "a" "ns" []] initial_state Hw Hf)
    as (_ & _ & Hiff & _).
  apply Hiff. vm_compute. reflexivity.
Defined.

(** C2 as stated fails twice.  A source that never appears costs 62
    listings, one more than 300/5 + 1; and names that all appear in some
    listing of the call do not make it succeed: here [a] and [b] are both
    in the first listing, [a] is found there, and the wait for [b], which
    starts with the second listing, times out. *)
Lemma catalog_sources_sixty_two_listings :
  (let r := wait_for_catalog_sources bare_world 100
              [sample_operator "op" "src1" "ns" []] initial_state in
   fst r = Raise (TimeoutError "Catalog Source src1 not found") /\
   n_catalog_list (snd r) = 62 /\
   ~ n_catalog_list (snd r) <= 300 / RECHECK_INTERVAL + 1) /\
  (let r := wait_for_catalog_sources early_world 100
              [sample_operator "op1" "a" "ns" [];
               sample_operator "op2" "b" "ns" []] initial_state in
   available early_world "a" 0 = true /\
   available early_world "b" 0 = true /\
   fst r = Raise (TimeoutError "Catalog Source b not found")).
Proof.
  split.
  - vm_compute. repeat split. lia.
  - vm_compute. repeat split.
Qed.

(** ** verify_operator_running as a whole *)

Lemma verify_operator_running_head w fuel operator rest target more st :
  correspondingPods operator = target :: more ->
  verify_operator_running w fuel (operator :: rest) st =
  match await_operator_pod w fuel operator target (pods_start st) with
  | (Ok _, st') =>
      (for_each more (await_operator_pod w fuel operator) ;;
       for_each rest (fun operator =>
         for_each (correspondingPods operator)
                  (await_operator_pod w fuel operator))) st'
  | (Raise e, st') => (Raise e, st')
  | (OutOfFuel, st') => (OutOfFuel, st')
  end.
Proof.
  intros Hp. unfold verify_operator_running, bind at 1 2.
  unfold header, log, emit, modify at 1 2. fold pods_header.
  change (with_previous_pods None (add_event pods_header st))
    with (pods_start st).
  cbn [for_each]. rewrite Hp. cbn [for_each]. unfold bind.
  destruct (await_operator_pod w fuel operator target (pods_start st))
    as [[[]|e|] st']; reflexivity.
Qed.




(** The count of a pod that carries its container statuses: the
    containers whose ['started'] is true; one without the key counts as
    not started. *)
Lemma pod_status_count_started pod statuses :
  containerStatuses pod = Some statuses ->
  pod_status_count pod = inr (started_count statuses).
Proof.
  unfold pod_status_count, num_running_containers, started_count.
  intros ->. f_equal.
  induction statuses as [|c cs IH]; [reflexivity|].
  cbn [List.filter]. unfold is_started at 1.
  destruct (started c) as [[]|]; [|exact IH|exact IH].
  cbn [map list_sum fold_right length]. by rewrite <- IH.
Qed.







(** A wait that starts with a cached listing scans that listing first,
    without asking the cluster; a wait that succeeds leaves a cached
    listing behind. *)
Lemma await_operator_pod_cached w fuel operator target st :
  RECHECK_INTERVAL / RECHECK_INTERVAL + 3 <= fuel ->
  let r := await_operator_pod w fuel operator target st in
  (forall l, previous_pods st = Some l -> find_ready target l = inr true ->
     fst r = Ok tt /\ n_pod_list (snd r) = n_pod_list st /\
     previous_pods (snd r) = Some l /\
     trace (snd r) = pod_found_log target :: trace st) /\
  (fst r = Ok tt -> exists l, previous_pods (snd r) = Some l).
Proof.
  intros Hfuel. cbv zeta.
  pose proof (await_operator_pod_spec w operator target fuel st Hfuel) as H.
  cbv zeta in H. unfold first_listing, first_fetch in H. split.
  - intros l Hl Hr. rewrite Hl in H. rewrite Hr in H.
    destruct H as (H1 & H2 & _ & _ & H5 & H6).
    repeat split; try done. by rewrite H2, Nat.add_0_r.
  - intros Hok. rewrite Hok in H.
    destruct (find_ready target _) as [e|[]].
    + by destruct H.
    + destruct H as (_ & _ & _ & _ & H5 & _). eauto.
    + destruct (find_ready target _) as [e|[]].
      * by destruct H.
      * destruct H as (_ & _ & _ & _ & H5). eauto.
      * destruct (find_ready target _); by destruct H.
Qed.

(** C9.  Once a pod target has been awaited successfully there is a
    cached listing, and the first iteration for every later target scans
    that listing, fetched for the namespace of an earlier operator,
    without listing the pods of the current operator's namespace.  So
    with two operators, when the first listing of the first operator's
    namespace holds ready pods for both targets, the call succeeds after
    that one listing, whatever the second operator's namespace is and
    whatever it holds. *)
Theorem cached_pods_serve_other_namespace w fuel st op1 op2 t1 t2 :
  RECHECK_INTERVAL / RECHECK_INTERVAL + 3 <= fuel ->
  correspondingPods op1 = [t1] ->
  correspondingPods op2 = [t2] ->
  find_ready t1 (pods_at w (n_pod_list st) (namespace op1)) = inr true ->
  find_ready t2 (pods_at w (n_pod_list st) (namespace op1)) = inr true ->
  let r := verify_operator_running w fuel [op1; op2] st in
  (forall operator target st' l,
     previous_pods st' = Some l -> find_ready target l = inr true ->
     let r' := await_operator_pod w fuel operator target st' in
     fst r' = Ok tt /\ n_pod_list (snd r') = n_pod_list st' /\
     trace (snd r') = pod_found_log target :: trace st') /\
  (forall operator target st',
     let r' := await_operator_pod w fuel operator target st' in
     fst r' = Ok tt -> exists l, previous_pods (snd r') = Some l) /\
  fst r = Ok tt /\
  n_pod_list (snd r) = n_pod_list st + 1 /\
  trace (snd r) =
    pod_found_log t2 :: pod_found_log t1 :: EListPods (namespace op1)
      :: pods_header :: trace st.
Proof.
  intros Hfuel Hp1 Hp2 Hr1 Hr2 r. split; [|split].
  - intros operator target st' l Hl Hr. cbv zeta.
    destruct (await_operator_pod_cached w fuel operator target st' Hfuel)
      as [H _].
    destruct (H l Hl Hr) as (?&?&?&?). done.
  - intros operator target st'.
    by destruct (await_operator_pod_cached w fuel operator target st' Hfuel).
  - subst r.
    rewrite (verify_operator_running_head w fuel op1 [op2] t1 [] st Hp1).
    pose proof (await_operator_pod_spec w op1 t1 fuel (pods_start st) Hfuel)
      as H.
    cbv zeta in H. unfold first_listing, first_fetch in H.
    cbn [previous_pods n_pod_list trace pods_start with_previous_pods
         add_event] in H.
    rewrite Hr1 in H. destruct H as (H1 & H2 & _ & _ & H5 & H6).
    destruct (await_operator_pod w fuel op1 t1 (pods_start st)) as [o st1].
    simpl in H1, H2, H5, H6. subst o.
    cbn [for_each]. rewrite Hp2. cbn [for_each]. unfold bind, ret.
    destruct (await_operator_pod_cached w fuel op2 t2 st1 Hfuel) as [H _].
    destruct (H _ H5 Hr2) as (K1 & K2 & _ & K4).
    destruct (await_operator_pod w fuel op2 t2 st1) as [o st2].
    simpl in K1, K2, K4. subst o. simpl.
    rewrite K2, H2, K4, H6. done.
Qed.

Lemma cached_pods_serve_other_namespace_witness :
  let op1 := sample_operator "one" "src" "ns1" ["a"] in
  let op2 := sample_operator "two" "src" "ns2" ["b"] in
  RECHECK_INTERVAL / RECHECK_INTERVAL + 3 <= 4 /\
  (forall n, pods_at two_namespace_world n (namespace op2) = []) /\
  let r := verify_operator_running two_namespace_world 4 [op1; op2]
             initial_state in
  fst r = Ok tt /\ n_pod_list (snd r) = 1.
Proof.
  intros op1 op2.
  assert (Hf : RECHECK_INTERVAL / RECHECK_INTERVAL + 3 <= 4)
    by (vm_compute; lia).
  split; [exact Hf|]. split; [intros n; reflexivity|].
  destruct (cached_pods_serve_other_namespace two_namespace_world 4
              initial_state op1 op2 "a" "b" Hf eq_refl eq_refl eq_refl eq_refl)
    as (_ & _ & Hok & Hn & _).
  split; [exact Hok|exact Hn].
Defined.




(** ** install_datascience_cluster *)

Lemma TOKEN_nonempty : TOKEN <> EmptyString.
Proof. discriminate. Qed.

Lemma install_datascience_cluster_trace w url st template :
  open_read w "manifests/dsc_template.yaml" = inr template ->
  trace (snd (install_datascience_cluster w url st)) =
  ECreateDSC (replace TOKEN url template)
    :: ELog INFO (Fmt "Using manifests from {}" (AStr url))
    :: dsc_header :: trace st.
Proof.
  intros Ho. unfold install_datascience_cluster, bind, header, log, emit,
    modify. rewrite Ho. unfold lift_result, ret, lift_outcome.
  destruct (dsc_create_outcome w (replace TOKEN url template)); reflexivity.
Qed.

Lemma TOKEN_unbordered : has_border TOKEN = false.
Proof. reflexivity. Qed.

(** C5.  Cut the template at the occurrences of the placeholder token,
    taken from the left: the pieces joined by the token are the template,
    and no piece contains the token.  The document that
    install_datascience_cluster submits is the same pieces joined by the
    URL instead: the URL stands where each token stood and every other
    character is unchanged.  The same holds for any way of writing the
    template as pieces without the token joined by the token, since two
    occurrences of this token cannot overlap.  (The URL is not scanned
    again, so the equations do not depend on what the URL contains.) *)
Theorem placeholder_substitution w url st template :
  str_in TOKEN url = false ->
  open_read w "manifests/dsc_template.yaml" = inr template ->
  let pieces := split TOKEN template in
  join TOKEN pieces = template /\
  Forall (fun piece => str_in TOKEN piece = false) pieces /\
  (forall pieces',
     pieces' <> [] ->
     Forall (fun piece => str_in TOKEN piece = false) pieces' ->
     join TOKEN pieces' = template ->
     replace TOKEN url template = join url pieces') /\
  trace (snd (install_datascience_cluster w url st)) =
    ECreateDSC (join url pieces)
      :: ELog INFO (Fmt "Using manifests from {}" (AStr url))
      :: dsc_header :: trace st.
Proof.
  intros _ Ho pieces.
  destruct (split_join_replace TOKEN TOKEN_nonempty url
              (String.length template) template (le_n _)) as (Hj & Hr & Hf).
  split; [done|]. split; [done|]. split.
  - intros pieces' Hne Hf' <-.
    by apply (replace_join TOKEN TOKEN_nonempty url TOKEN_unbordered).
  - rewrite (install_datascience_cluster_trace w url st template Ho).
    by rewrite Hr.
Qed.

Lemma placeholder_substitution_witness :
  str_in TOKEN "http://x" = false /\
  trace (snd (install_datascience_cluster template_world "http://x"
                initial_state)) =
  [ ECreateDSC "uri: http://x, alt: http://x;";
    ELog INFO (Fmt "Using manifests from {}" (AStr "http://x"));
    dsc_header ].
Proof.
  assert (Hu : str_in TOKEN "http://x" = false) by reflexivity.
  split; [exact Hu|].
  exact (proj2 (proj2 (proj2 (placeholder_substitution template_world
           "http://x" initial_state _ Hu eq_refl)))).
Defined.

(** ** Reading the configuration *)

Lemma load_config_error w path st e :
  config_error w path = Some e ->
  load_config w path st = (Raise e, after_config_error e st).
Proof.
  unfold config_error, load_config, try_except, bind, lift_result.
  destruct (open_read w path) as [e'|text].
  - intros [= ->]. unfold raise. by destruct e.
  - unfold ret. destruct (yaml_load w text) as [e'|ops]; [|discriminate].
    intros [= ->]. unfold raise. by destruct e.
Qed.

(** C8.  When opening the configuration file raises the file-not-found
    error, setup_cluster logs the error and the hint about the working
    directory, both at error level, and raises the same error again.  Any
    error of reading or parsing the configuration ends the run with that
    error before any stage has run: besides the two log records of the
    file-not-found case, the state is the one the run started in. *)
Theorem config_failure_is_fatal w fuel path url st :
  (forall f, open_read w path = inl (FileNotFoundError f) ->
     setup_cluster w fuel path url st =
     (Raise (FileNotFoundError f),
      add_event config_not_found_log
        (add_event (ELog ERROR (OfExn (FileNotFoundError f))) st))) /\
  (forall e, config_error w path = Some e ->
     setup_cluster w fuel path url st = (Raise e, after_config_error e st)).
Proof.
  assert (H : forall e, config_error w path = Some e ->
     setup_cluster w fuel path url st = (Raise e, after_config_error e st)).
  { intros e He. unfold setup_cluster, bind at 1.
    by rewrite (load_config_error w path st e He). }
  split; [|exact H].
  intros f Hf. apply (H (FileNotFoundError f)).
  unfold config_error. by rewrite Hf.
Qed.

Lemma config_failure_is_fatal_witness :
  open_read bare_world "setup/operators_config.yaml"
    = inl (FileNotFoundError "setup/operators_config.yaml") /\
  setup_cluster bare_world 200 "setup/operators_config.yaml" DEFAULT_REPO
    initial_state =
  (Raise (FileNotFoundError "setup/operators_config.yaml"),
   add_event config_not_found_log
     (add_event (ELog ERROR
                   (OfExn (FileNotFoundError "setup/operators_config.yaml")))
        initial_state)).
Proof.
  split; [reflexivity|].
  exact (proj1 (config_failure_is_fatal bare_world 200
           "setup/operators_config.yaml" DEFAULT_REPO initial_state)
           "setup/operators_config.yaml" eq_refl).
Defined.

(** ** The stages of setup_cluster *)

Create HintDb grows.

Section Grows.
Context (w : World).

Lemma grows_ret {A} (a : A) : grows (ret a).
Proof. intros st. by exists []. Qed.

Lemma grows_raise {A} e : grows (@raise A e).
Proof. intros st. by exists []. Qed.

Lemma grows_out_of_fuel {A} : grows (@out_of_fuel A).
Proof. intros st. by exists []. Qed.

Lemma grows_read {A} (f : State -> A) : grows (read f).
Proof. intros st. by exists []. Qed.

Lemma grows_bind {A B} (m : M A) (k : A -> M B) :
  grows m -> (forall a, grows (k a)) -> grows (bind m k).
Proof.
  intros Hm Hk st. unfold bind. destruct (Hm st) as [ev1 H1].
  destruct (m st) as [[a|e|] st']; simpl in H1; try by exists ev1.
  destruct (Hk a st') as [ev2 H2]. exists (ev2 ++ ev1)%list.
  by rewrite H2, H1, app_assoc.
Qed.

Lemma grows_lift_result {A} (r : Exn + A) : grows (lift_result r).
Proof. destruct r; intros st; by exists []. Qed.

Lemma grows_lift_outcome o : grows (lift_outcome o).
Proof. destruct o; intros st; by exists []. Qed.

Lemma grows_with_tries n : grows (modify (with_tries n)).
Proof. intros st. by exists []. Qed.

Lemma grows_with_found b : grows (modify (with_found b)).
Proof. intros st. by exists []. Qed.

Lemma grows_with_previous_manifests c :
  grows (modify (with_previous_manifests c)).
Proof. intros st. by exists []. Qed.

Lemma grows_with_previous_pods c : grows (modify (with_previous_pods c)).
Proof. intros st. by exists []. Qed.

Lemma grows_emit e : grows (emit e).
Proof. intros st. by exists [e]. Qed.

Lemma grows_CatalogSource_get : grows (CatalogSource_get w).
Proof. intros st. by exists [EListCatalogSources]. Qed.

Lemma grows_PackageManifest_get : grows (PackageManifest_get w).
Proof. intros st. by exists [EListPackageManifests]. Qed.

Lemma grows_Pod_get ns : grows (Pod_get w ns).
Proof. intros st. by exists [EListPods ns]. Qed.

Lemma grows_install_operator req : grows (install_operator w req).
Proof. intros st. by exists [EInstallOperator req]. Qed.

Lemma grows_while_true fuel body : grows body -> grows (while_true fuel body).
Proof.
  intros Hb. induction fuel as [|fuel IH]; [apply grows_out_of_fuel|].
  cbn [while_true]. apply grows_bind; [done|].
  intros []; [done|apply grows_ret].
Qed.

Lemma grows_while_not_found fuel body :
  grows body -> grows (while_not_found fuel body).
Proof.
  intros Hb. induction fuel as [|fuel IH]; [apply grows_out_of_fuel|].
  cbn [while_not_found]. apply grows_bind; [apply grows_read|].
  intros []; [apply grows_ret|]. by apply grows_bind.
Qed.

Lemma grows_for_each {A} (l : list A) body :
  (forall x, grows (body x)) -> grows (for_each l body).
Proof.
  intros Hb. induction l as [|x l IH]; [apply grows_ret|].
  cbn [for_each]. by apply grows_bind.
Qed.

Lemma grows_for_break {A} (l : list A) body :
  (forall x, grows (body x)) -> grows (for_break l body).
Proof.
  intros Hb. induction l as [|x l IH]; [apply grows_ret|].
  cbn [for_break]. apply grows_bind; [done|].
  intros []; [done|apply grows_ret].
Qed.
End Grows.

#[local] Hint Resolve grows_ret grows_raise grows_out_of_fuel grows_read
  grows_lift_result grows_lift_outcome grows_with_tries grows_with_found
  grows_with_previous_manifests grows_with_previous_pods grows_emit
  grows_CatalogSource_get grows_PackageManifest_get grows_Pod_get
  grows_install_operator : grows.

Ltac grows_step :=
  unfold header, log, sleep;
  repeat first
    [ progress intros
    | apply grows_bind | apply grows_while_true
    | apply grows_while_not_found | apply grows_for_each
    | apply grows_for_break
    | solve [auto with grows]
    | match goal with
      | |- grows (if ?b then _ else _) => destruct b
      | |- grows (match ?x with _ => _ end) => destruct x
      end ].

Lemma grows_stage w fuel url ops m :
  m ∈ stages w fuel url ops -> grows m.
Proof.
  unfold stages. rewrite !elem_of_cons, elem_of_nil.
  intros [->|[->|[->|[->|[->|[->|[]]]]]]].
  - unfold wait_for_catalog_sources, await_catalog_source,
      catalog_source_iteration. grows_step.
  - unfold wait_for_package_manifests, await_package_manifest,
      package_manifest_iteration, cached_package_manifests,
      package_manifest_check, manifest_matches. grows_step.
  - unfold install_operators. grows_step.
  - unfold verify_operator_running, await_operator_pod,
      operator_pod_iteration, cached_running_pods, running_pods_check,
      pod_matches. grows_step.
  - unfold install_dsci. grows_step.
  - unfold install_datascience_cluster. grows_step.
Qed.

Lemma grows_run_stages l : (forall m, m ∈ l -> grows m) -> grows (run_stages l).
Proof.
  induction l as [|m l IH]; intros H; [apply grows_ret|].
  cbn [run_stages]. apply grows_bind.
  - apply H, list_elem_of_here.
  - intros _. apply IH. intros m' Hm'. by apply H, list_elem_of_further.
Qed.

Lemma setup_cluster_stages w fuel path url st :
  setup_cluster w fuel path url st =
  (operator_data <- load_config w path ;;
   run_stages (stages w fuel url operator_data)) st.
Proof.
  unfold setup_cluster, stages, bind. cbn [run_stages]. unfold bind.
  destruct (load_config w path st) as [[ops|e|] st0]; [|done|done].
  repeat match goal with
  | |- context [match ?m ?s with _ => _ end] =>
      lazymatch m with
      | context [run_stages] => fail
      | _ => destruct (m s) as [[[]|?|] ?]; try reflexivity
      end
  end.
Qed.

(** A stage that raises after the stages before it have succeeded ends
    the whole sequence there. *)
Lemma run_stages_failure : forall pre s post st st1 e st',
  run_stages pre st = (Ok tt, st1) ->
  s st1 = (Raise e, st') ->
  run_stages (pre ++ s :: post)%list st = (Raise e, st').
Proof.
  induction pre as [|m pre IH]; intros s post st st1 e st' Hpre Hs.
  - injection Hpre as <-. cbn [app run_stages]. unfold bind. by rewrite Hs.
  - cbn [app run_stages] in *. unfold bind in *.
    destruct (m st) as [[[]|?|] st0]; try discriminate.
    by apply (IH s post st0 st1).
Qed.

(** C6.  setup_cluster runs its stages strictly in sequence.  When
    wait_for_package_manifests raises after the configuration was read
    and the catalog sources were found, setup_cluster ends with that
    error in the very state in which it was raised, and no
    install_operator request has been issued.  In general, the error of
    any stage that raises after the stages before it succeeded is the
    outcome of the run, the final state is the one in which the stage
    raised, so that no later stage has run, and the events of the earlier
    stages are still in the trace: nothing is rolled back. *)
Theorem stage_failure_halts_sequence w fuel path url st ops st0 :
  load_config w path st = (Ok ops, st0) ->
  (forall st1 e st2,
     wait_for_catalog_sources w fuel ops st0 = (Ok tt, st1) ->
     wait_for_package_manifests w fuel ops st1 = (Raise e, st2) ->
     setup_cluster w fuel path url st = (Raise e, st2) /\
     installs_of (trace st2) = installs_of (trace st) /\
     n_install st2 = n_install st) /\
  (forall pre s post st1 e st',
     stages w fuel url ops = (pre ++ s :: post)%list ->
     run_stages pre st0 = (Ok tt, st1) ->
     s st1 = (Raise e, st') ->
     setup_cluster w fuel path url st = (Raise e, st') /\
     exists earlier failing,
       trace st1 = (earlier ++ trace st0)%list /\
       trace st' = (failing ++ earlier ++ trace st0)%list).
Proof.
  intros Hload.
  assert (Hgen : forall pre s post st1 e st',
     stages w fuel url ops = (pre ++ s :: post)%list ->
     run_stages pre st0 = (Ok tt, st1) ->
     s st1 = (Raise e, st') ->
     setup_cluster w fuel path url st = (Raise e, st')).
  { intros pre s post st1 e st' Hst Hpre Hs.
    rewrite setup_cluster_stages. unfold bind at 1. rewrite Hload, Hst.
    by apply run_stages_failure with st1. }
  split.
  - intros st1 e st2 Hcs Hpm. split.
    + apply (Hgen [wait_for_catalog_sources w fuel ops]
               (wait_for_package_manifests w fuel ops)
               [install_operators w ops;
                verify_operator_running w fuel ops;
                install_dsci w;
                install_datascience_cluster w url] st1); [done| |done].
      cbn [run_stages]. unfold bind. by rewrite Hcs.
    + destruct (quiet_load_config w path st) as [A1 A2].
      destruct (quiet_wait_for_catalog_sources w fuel ops st0) as [B1 B2].
      destruct (quiet_wait_for_package_manifests w fuel ops st1) as [C1 C2].
      rewrite Hload in A1, A2. rewrite Hcs in B1, B2. rewrite Hpm in C1, C2.
      simpl in *. split; congruence.
  - intros pre s post st1 e st' Hst Hpre Hs. split; [by eapply Hgen|].
    assert (Hin : forall m, m ∈ (pre ++ s :: post)%list -> grows m).
    { intros m Hm. apply (grows_stage w fuel url ops). by rewrite Hst. }
    destruct (grows_run_stages pre) with (st := st0) as [earlier He].
    { intros m Hm. apply Hin, elem_of_app. by left. }
    destruct (Hin s) with (st := st1) as [failing Hf].
    { apply elem_of_app. right. apply list_elem_of_here. }
    rewrite Hpre in He. rewrite Hs in Hf. simpl in He, Hf.
    exists earlier, failing. by rewrite Hf, He.
Qed.

Lemma stage_failure_halts_sequence_witness :
  let ops := [sample_operator "op" "src" "ns" ["pod"]] in
  load_config no_manifest_world "c.yaml" initial_state
    = (Ok ops, initial_state) /\
  fst (setup_cluster no_manifest_world 183 "c.yaml" DEFAULT_REPO initial_state)
    = Raise (TimeoutError "Package Manifests for op not found") /\
  installs_of
    (trace (snd (setup_cluster no_manifest_world 183 "c.yaml" DEFAULT_REPO
                   initial_state))) = [].
Proof.
  intros ops.
  assert (Hl : load_config no_manifest_world "c.yaml" initial_state
               = (Ok ops, initial_state)) by reflexivity.
  split; [exact Hl|].
  destruct (stage_failure_halts_sequence no_manifest_world 183 "c.yaml"
              DEFAULT_REPO initial_state ops initial_state Hl) as [H _].
  destruct (wait_for_catalog_sources no_manifest_world 183 ops initial_state)
    as [o1 st1] eqn:E1.
  assert (Ho1 : o1 = Ok tt).
  { change o1 with (fst (o1, st1)). rewrite <- E1. vm_compute. reflexivity. }
  subst o1.
  destruct (wait_for_package_manifests no_manifest_world 183 ops st1)
    as [o2 st2] eqn:E2.
  assert (Ho2 : o2 = Raise (TimeoutError "Package Manifests for op not found")).
  { change o2 with (fst (o2, st2)). rewrite <- E2.
    change st1 with (snd (Ok tt, st1)). rewrite <- E1.
    vm_compute. reflexivity. }
  subst o2.
  destruct (H st1 _ st2 eq_refl E2) as (Hs & Hi & _).
  rewrite Hs. simpl. split; [reflexivity|exact Hi].
Defined.

(** ** Listings that do not change: the cache cannot be observed *)

Section StableManifests.
Context (w : World) (fuel : nat) (L : list PackageManifest).
Context (Hfuel : 900 / RECHECK_INTERVAL + 3 <= fuel).
Context (HL : forall n, package_manifests_at w n = L).

Lemma listed_stable operator n : listed w operator n = has_manifest operator L.
Proof using HL. unfold listed. by rewrite HL. Qed.

Lemma first_hit_stable operator start len :
  first_hit (listed w operator) start (S len) =
  if has_manifest operator L then Some 0 else None.
Proof using HL.
  destruct (has_manifest operator L) eqn:Hh.
  - by rewrite first_hit_S, listed_stable, Hh.
  - apply first_hit_never. intros n. by rewrite listed_stable.
Qed.

Lemma await_package_manifest_stable operator st :
  (forall l, previous_manifests st = Some l -> l = L) ->
  let r := await_package_manifest w fuel operator st in
  fst r = (if has_manifest operator L then Ok tt
           else Raise (manifest_timeout operator)) /\
  (forall l, previous_manifests (snd r) = Some l -> l = L).
Proof using Hfuel HL.
  intros Hc. cbv zeta.
  pose proof (await_package_manifest_spec w operator fuel st Hfuel) as H.
  cbv zeta in H. destruct H as [Hprev H]. split.
  - rewrite manifest_bound in H.
    destruct (previous_manifests st) as [l|] eqn:Hp.
    + rewrite (Hc l eq_refl) in H.
      destruct (has_manifest operator L) eqn:Hh; [by destruct H|].
      change 180 with (S 179) in H. rewrite first_hit_stable, Hh in H.
      by destruct H.
    + change (180 + 1) with (S 180) in H. rewrite first_hit_stable in H.
      destruct (has_manifest operator L); by destruct H.
  - intros l Hl. destruct Hprev as [[n' Hn']|(l' & Hl' & Hr)].
    + rewrite Hn', HL in Hl. by injection Hl.
    + rewrite Hr in Hl. injection Hl as <-. by apply Hc.
Qed.

Lemma for_each_manifests_stable : forall ops st,
  (forall l, previous_manifests st = Some l -> l = L) ->
  fst (for_each ops (await_package_manifest w fuel) st)
  = manifests_outcome L ops.
Proof using Hfuel HL.
  induction ops as [|operator ops IH]; intros st Hc; [reflexivity|].
  rewrite for_each_cons. cbn [manifests_outcome].
  destruct (await_package_manifest_stable operator st Hc) as [Hr Hc'].
  destruct (await_package_manifest w fuel operator st) as [o st'].
  simpl in Hr, Hc'. subst o.
  destruct (has_manifest operator L); [by apply IH|reflexivity].
Qed.

Lemma package_manifest_iteration_every_eq operator st :
  package_manifest_iteration_fetch_every_attempt w operator st =
  package_manifest_check operator
    (package_manifests_at w (n_manifest_list st)) (count_manifest_list st).
Proof. reflexivity. Qed.

(** The loop that fetches on every attempt, entered with
    [tries st = 181 - k], when every listing is [L]. *)
Lemma while_manifest_every operator : forall k fuel' st,
  found st = false ->
  tries st + k = 900 / RECHECK_INTERVAL + 1 ->
  S (S k) <= fuel' ->
  fst (while_not_found fuel'
         (package_manifest_iteration_fetch_every_attempt w operator) st)
  = (if has_manifest operator L && negb (Nat.eqb k 0) then Ok tt
     else Raise (manifest_timeout operator)).
Proof using Hfuel HL.
  rewrite manifest_bound.
  induction k as [|k IH]; intros fuel' st Hf Ht Hfl;
    (destruct fuel' as [|fuel']; [lia|]);
    rewrite while_not_found_S, Hf, package_manifest_iteration_every_eq, HL,
      package_manifest_check_eq, manifest_bound by done;
    cbv zeta; cbn [tries count_manifest_list].
  - destruct (Nat.ltb_spec 180 (tries st)); [|lia].
    by rewrite andb_false_r.
  - destruct (Nat.ltb_spec 180 (tries st)); [lia|].
    destruct (has_manifest operator L) eqn:Hh; cbn [after_scan andb negb Nat.eqb].
    + destruct fuel' as [|fuel']; [lia|]. by rewrite while_not_found_S.
    + rewrite IH; [done|done| |lia].
      cbn [tries with_tries]. lia.
Qed.

Lemma for_each_manifests_every_stable : forall ops st,
  fst (for_each ops (fun operator =>
         modify (with_tries 0) ;;
         modify (with_found false) ;;
         while_not_found fuel
           (package_manifest_iteration_fetch_every_attempt w operator)) st)
  = manifests_outcome L ops.
Proof using Hfuel HL.
  induction ops as [|operator ops IH]; intros st; [reflexivity|].
  rewrite for_each_cons. cbn [manifests_outcome].
  unfold bind at 1 2, modify at 1 2.
  pose proof (while_manifest_every operator 181 fuel
                (with_found false (with_tries 0 st)) eq_refl) as H.
  rewrite manifest_bound in H, Hfuel.
  specialize (H eq_refl ltac:(lia)).
  destruct (while_not_found fuel _ _) as [o st'].
  simpl in H. subst o. cbn [Nat.eqb negb]. rewrite andb_true_r.
  destruct (has_manifest operator L); [apply IH|reflexivity].
Qed.
End StableManifests.

Ltac state_simpl :=
  cbn [trace n_catalog_list n_manifest_list n_pod_list n_install tries found
       previous_manifests previous_pods add_event with_tries with_found
       with_previous_manifests with_previous_pods count_catalog_list
       count_manifest_list count_pod_list count_install after_scan Nat.add].

Section StablePods.
Context (w : World) (fuel : nat) (P : list Pod).
Context (Hfuel : RECHECK_INTERVAL / RECHECK_INTERVAL + 3 <= fuel).

Lemma targets_outcome_cons target rest :
  targets_outcome P (target :: rest) =
  match target_outcome P target with
  | Ok _ => targets_outcome P rest
  | r => r
  end.
Proof.
  cbn [targets_outcome]. unfold target_outcome.
  by destruct (find_ready target P) as [e|[]].
Qed.

Lemma await_operator_pod_stable operator target st :
  (forall n, pods_at w n (namespace operator) = P) ->
  (forall l, previous_pods st = Some l -> l = P) ->
  let r := await_operator_pod w fuel operator target st in
  fst r = target_outcome P target /\
  (fst r = Ok tt -> forall l, previous_pods (snd r) = Some l -> l = P).
Proof using Hfuel.
  intros HP Hc. cbv zeta.
  pose proof (await_operator_pod_spec w operator target fuel st Hfuel) as H.
  cbv zeta in H.
  assert (Hfl : first_listing w operator st = P).
  { unfold first_listing. destruct (previous_pods st) eqn:Hp; [by apply Hc|].
    apply HP. }
  rewrite Hfl, !HP in H. unfold target_outcome.
  destruct (find_ready target P) as [e|[]].
  - destruct H as (-> & _). done.
  - destruct H as (-> & _ & _ & _ & Hp & _).
    split; [done|]. intros _ l Hl. rewrite Hp in Hl. by injection Hl.
  - destruct H as (-> & _). done.
Qed.

Lemma for_each_targets_stable operator :
  (forall n, pods_at w n (namespace operator) = P) ->
  forall targets st,
  (forall l, previous_pods st = Some l -> l = P) ->
  let r := for_each targets (await_operator_pod w fuel operator) st in
  fst r = targets_outcome P targets /\
  (fst r = Ok tt -> forall l, previous_pods (snd r) = Some l -> l = P).
Proof using Hfuel.
  intros HP. induction targets as [|target targets IH]; intros st Hc; cbv zeta.
  - split; [reflexivity|]. intros _. exact Hc.
  - rewrite for_each_cons, targets_outcome_cons.
    destruct (await_operator_pod_stable operator target st HP Hc) as [Hr Hc'].
    destruct (await_operator_pod w fuel operator target st) as [o st'].
    simpl in Hr, Hc'. rewrite <- Hr.
    destruct o as [[]|e|]; [by apply IH, Hc'|done|done].
Qed.

Lemma for_each_operators_stable : forall ops st,
  (forall o n, o ∈ ops -> pods_at w n (namespace o) = P) ->
  (forall l, previous_pods st = Some l -> l = P) ->
  fst (for_each ops (fun operator =>
         for_each (correspondingPods operator)
                  (await_operator_pod w fuel operator)) st)
  = pods_outcome P ops.
Proof using Hfuel.
  induction ops as [|operator ops IH]; intros st HP Hc; [reflexivity|].
  rewrite for_each_cons. cbn [pods_outcome].
  destruct (for_each_targets_stable operator
              (fun n => HP operator n (list_elem_of_here _ _))
              (correspondingPods operator) st Hc) as [Hr Hc'].
  destruct (for_each (correspondingPods operator) _ st) as [o st'].
  simpl in Hr, Hc'. rewrite <- Hr.
  destruct o as [[]|e|]; [|done|done].
  apply IH; [|by apply Hc'].
  intros o n Ho. by apply HP, list_elem_of_further.
Qed.

Lemma operator_pod_iteration_every_eq operator target st :
  operator_pod_iteration_fetch_every_attempt w operator target st =
  running_pods_check target
    (pods_at w (n_pod_list st) (namespace operator))
    (count_pod_list (namespace operator) st).
Proof. reflexivity. Qed.

Lemma await_every_stable operator target st fuel' :
  RECHECK_INTERVAL / RECHECK_INTERVAL + 3 <= fuel' ->
  (forall n, pods_at w n (namespace operator) = P) ->
  fst ((modify (with_tries 0) ;;
        modify (with_found false) ;;
        while_not_found fuel'
          (operator_pod_iteration_fetch_every_attempt w operator target)) st)
  = target_outcome P target.
Proof.
  intros Hf HP. rewrite pod_bound in Hf.
  do 4 (destruct fuel' as [|fuel']; [lia|]). clear Hf.
  unfold bind at 1 2, modify at 1 2, target_outcome.
  rewrite while_not_found_S. cbn [found with_found].
  rewrite operator_pod_iteration_every_eq, HP, running_pods_check_eq by done.
  destruct (find_ready target P) as [e|[]] eqn:Hr; [reflexivity| |].
  - cbv zeta. state_simpl.
    change (Nat.ltb (RECHECK_INTERVAL / RECHECK_INTERVAL) 0) with false.
    cbv iota. by rewrite while_not_found_S.
  - cbv zeta. state_simpl.
    change (Nat.ltb (RECHECK_INTERVAL / RECHECK_INTERVAL) 0) with false.
    cbv iota. rewrite while_not_found_S. state_simpl.
    rewrite operator_pod_iteration_every_eq, HP, running_pods_check_eq, Hr
      by done.
    cbv zeta. state_simpl.
    change (Nat.ltb (RECHECK_INTERVAL / RECHECK_INTERVAL) 1) with false.
    cbv iota. rewrite while_not_found_S. state_simpl.
    rewrite operator_pod_iteration_every_eq, HP, running_pods_check_eq, Hr
      by done.
    cbv zeta. state_simpl.
    change (Nat.ltb (RECHECK_INTERVAL / RECHECK_INTERVAL) 2) with true.
    reflexivity.
Qed.

Lemma for_each_operators_every_stable : forall ops st,
  (forall o n, o ∈ ops -> pods_at w n (namespace o) = P) ->
  fst (for_each ops (fun operator =>
         for_each (correspondingPods operator) (fun target_pod_name =>
           modify (with_tries 0) ;;
           modify (with_found false) ;;
           while_not_found fuel
             (operator_pod_iteration_fetch_every_attempt w operator
                target_pod_name))) st)
  = pods_outcome P ops.
Proof using Hfuel.
  induction ops as [|operator ops IH]; intros st HP; [reflexivity|].
  rewrite for_each_cons. cbn [pods_outcome].
  assert (Ht : forall targets st0,
    fst (for_each targets (fun target_pod_name =>
           modify (with_tries 0) ;;
           modify (with_found false) ;;
           while_not_found fuel
             (operator_pod_iteration_fetch_every_attempt w operator
                target_pod_name)) st0) = targets_outcome P targets).
  { induction targets as [|target targets IHt]; intros st0; [reflexivity|].
    rewrite for_each_cons, targets_outcome_cons.
    rewrite <- (await_every_stable operator target st0 fuel Hfuel
                  (fun n => HP operator n (list_elem_of_here _ _))).
    destruct ((modify (with_tries 0) ;; _) st0) as [[[]|e|] st1];
      [apply IHt|done|done]. }
  specialize (Ht (correspondingPods operator) st).
  destruct (for_each (correspondingPods operator) _ st) as [o st'].
  simpl in Ht. rewrite <- Ht.
  destruct o as [[]|e|]; [|done|done].
  apply IH. intros o n Ho. by apply HP, list_elem_of_further.
Qed.
End StablePods.

(** C7 (as amended).  When the listing of package manifests is the same
    at every call, and the listing of pods is the same at every call and
    for the namespace of every configured operator, the source's cached
    variant and the variant that fetches on every attempt have the same
    outcome: success, or the error of the same first target that is not
    ready.  The outcome is the one read off the fixed listing target by
    target. *)
Theorem caching_invisible_when_listings_stable w fuel ops st st' L P :
  900 / RECHECK_INTERVAL + 3 <= fuel ->
  (forall n, package_manifests_at w n = L) ->
  (forall o n, o ∈ ops -> pods_at w n (namespace o) = P) ->
  (fst (wait_for_package_manifests w fuel ops st) = manifests_outcome L ops /\
   fst (wait_for_package_manifests_fetch_every_attempt w fuel ops st')
   = manifests_outcome L ops) /\
  (fst (verify_operator_running w fuel ops st) = pods_outcome P ops /\
   fst (verify_operator_running_fetch_every_attempt w fuel ops st')
   = pods_outcome P ops).
Proof.
  intros Hfuel HL HP.
  assert (Hfuel' : RECHECK_INTERVAL / RECHECK_INTERVAL + 3 <= fuel).
  { rewrite manifest_bound in Hfuel. rewrite pod_bound. lia. }
  repeat split.
  - unfold wait_for_package_manifests, bind at 1 2, header, log, emit,
      modify at 1 2.
    by apply for_each_manifests_stable.
  - unfold wait_for_package_manifests_fetch_every_attempt, bind at 1, header,
      log, emit, modify at 1.
    by apply for_each_manifests_every_stable.
  - unfold verify_operator_running, bind at 1 2, header, log, emit,
      modify at 1 2.
    by apply for_each_operators_stable.
  - unfold verify_operator_running_fetch_every_attempt, bind at 1, header,
      log, emit, modify at 1.
    by apply for_each_operators_every_stable.
Qed.

Lemma caching_invisible_when_listings_stable_witness :
  let ops := [sample_operator "a" "src" "ns1" ["a"];
              sample_operator "b" "src" "ns2" ["b"]] in
  900 / RECHECK_INTERVAL + 3 <= 183 /\
  fst (wait_for_package_manifests stable_world 183 ops initial_state)
  = fst (wait_for_package_manifests_fetch_every_attempt stable_world 183 ops
           initial_state) /\
  fst (verify_operator_running stable_world 183 ops initial_state)
  = fst (verify_operator_running_fetch_every_attempt stable_world 183 ops
           initial_state).
Proof.
  intros ops.
  assert (Hf : 900 / RECHECK_INTERVAL + 3 <= 183) by (vm_compute; lia).
  split; [exact Hf|].
  destruct (caching_invisible_when_listings_stable stable_world 183 ops
              initial_state initial_state _ _ Hf (fun n => eq_refl)
              (fun o n _ => eq_refl))
    as [[H1 H2] [H3 H4]].
  split.
  - exact (eq_trans H1 (eq_sym H2)).
  - exact (eq_trans H3 (eq_sym H4)).
Defined.

(** C7 as stated fails.  When the first listing of package manifests has
    both names and the later ones are empty, the cached variant finds the
    second name in the cached first listing and succeeds, while the
    variant that fetches on every attempt times out.  Likewise for pods
    when the ready pods of both targets are in the first operator's
    namespace only. *)
Lemma caching_observable_when_listings_change :
  let ops := [sample_operator "a" "src" "ns1" ["a"];
              sample_operator "b" "src" "ns2" ["b"]] in
  (fst (wait_for_package_manifests early_world 183 ops initial_state)
   = Ok tt /\
   fst (wait_for_package_manifests_fetch_every_attempt early_world 183 ops
          initial_state)
   = Raise (TimeoutError "Package Manifests for b not found")) /\
  (fst (verify_operator_running two_namespace_world 4 ops initial_state)
   = Ok tt /\
   fst (verify_operator_running_fetch_every_attempt two_namespace_world 4 ops
          initial_state)
   = Raise (TimeoutError "Timeout waiting for b pod")).
Proof. vm_compute. repeat split. Qed.

(** ** The last iteration of each loop *)

(** In the iteration in which [tries] exceeds the bound, the catalog
    loop still accepts a source that is listed just then, because it
    leaves the loop before the comparison. *)
Example catalog_source_found_in_last_iteration :
  let r := await_catalog_source late_world 62 ∅ "src" initial_state in
  fst r = Ok tt /\ tries (snd r) = 61 /\ n_catalog_list (snd r) = 62.
Proof. vm_compute. repeat split. Qed.

(** The package manifest loop makes the comparison also after a
    successful scan: a manifest first listed in that iteration is
    logged as found and the Timeout is raised all the same. *)
Example package_manifest_found_in_last_iteration :
  let operator := sample_operator "op" "src" "ns" [] in
  let r := await_package_manifest late_world 183 operator initial_state in
  fst r = Raise (manifest_timeout operator) /\
  tries (snd r) = 181 /\ found (snd r) = true /\
  n_manifest_list (snd r) = 182.
Proof. vm_compute. repeat split. Qed.

(** * Further properties of the script *)

(** ** install_operators *)

Lemma install_operator_eq w req st :
  install_operator w req st =
  (match install_operator_outcome w (n_install st) req with
   | Some e => Raise e
   | None => Ok tt
   end, count_install req st).
Proof. reflexivity. Qed.

Lemma for_each_install w : forall ops st,
  let r := for_each ops
             (fun operator => install_operator w (install_request operator))
             st in
  let n := n_install st in
  ((forall i o, ops !! i = Some o ->
      install_operator_outcome w (n + i) (install_request o) = None) ->
   fst r = Ok tt /\
   n_install (snd r) = n + length ops /\
   installs_of (trace (snd r))
   = (rev (map install_request ops) ++ installs_of (trace st))%list) /\
  (forall k o e,
     ops !! k = Some o ->
     install_operator_outcome w (n + k) (install_request o) = Some e ->
     (forall i o', i < k -> ops !! i = Some o' ->
        install_operator_outcome w (n + i) (install_request o') = None) ->
     fst r = Raise e /\
     n_install (snd r) = n + S k /\
     installs_of (trace (snd r))
     = (rev (map install_request (take (S k) ops))
        ++ installs_of (trace st))%list).
Proof.
  induction ops as [|o ops IH]; intros st; cbv zeta.
  - split; [intros _; simpl; repeat split; lia|].
    intros k o e Hk. by rewrite lookup_nil in Hk.
  - rewrite for_each_cons, install_operator_eq.
    destruct (install_operator_outcome w (n_install st) (install_request o))
      as [e0|] eqn:H0.
    + split.
      * intros Hall. specialize (Hall 0 o eq_refl).
        rewrite Nat.add_0_r in Hall. congruence.
      * intros k o' e Hk He Hbefore. destruct k as [|k].
        -- injection Hk as <-. rewrite Nat.add_0_r in He.
           rewrite H0 in He. injection He as <-.
           simpl. repeat split; lia.
        -- specialize (Hbefore 0 o ltac:(lia) eq_refl).
           rewrite Nat.add_0_r in Hbefore. congruence.
    + specialize (IH (count_install (install_request o) st)).
      cbv zeta in IH. cbn [n_install trace count_install installs_of] in IH.
      destruct IH as [IHok IHfail]. split.
      * intros Hall. destruct IHok as (H1 & H2 & H3).
        { intros i o' Hi. specialize (Hall (S i) o' Hi).
          by rewrite <- Nat.add_succ_comm in Hall. }
        rewrite H1, H2, H3. cbn [map rev length].
        repeat split; [lia|]. by rewrite <- app_assoc.
      * intros k o' e Hk He Hbefore. destruct k as [|k].
        { injection Hk as <-. rewrite Nat.add_0_r in He. congruence. }
        destruct (IHfail k o' e) as (H1 & H2 & H3).
        { exact Hk. }
        { by rewrite Nat.add_succ_comm. }
        { intros i o'' Hi Ho''. rewrite Nat.add_succ_comm.
          apply Hbefore; [lia|exact Ho'']. }
        rewrite H1, H2, H3. cbn [take map rev].
        repeat split; [lia|]. by rewrite <- app_assoc.
Qed.

(** X1.  install_operators issues its requests in the order of the
    configuration, each with no target namespace, the operator's name,
    channel, catalog source and namespace, the timeout 600, manual
    approval and the starting version [name.vversion].  When no request
    fails it issues one per entry and returns; when the request for
    entry [k] is the first to fail, its error is raised and the requests
    issued are exactly those of entries 0 to [k]: no later entry is
    installed. *)
Theorem install_operators_stops_at_first_failure w ops st :
  let request (o : OperatorSpec) :=
    {| target_namespaces := [];
       req_name := name o;
       req_channel := channel o;
       source := catalogSource o;
       operator_namespace := namespace o;
       timeout := 600;
       install_plan_approval := "Manual";
       starting_csv := name o ++ ".v" ++ version o |} in
  let r := install_operators w ops st in
  let n := n_install st in
  ((forall i o, ops !! i = Some o ->
      install_operator_outcome w (n + i) (request o) = None) ->
   fst r = Ok tt /\
   n_install (snd r) = n + length ops /\
   installs_of (trace (snd r))
   = (rev (map request ops) ++ installs_of (trace st))%list) /\
  (forall k o e,
     ops !! k = Some o ->
     install_operator_outcome w (n + k) (request o) = Some e ->
     (forall i o', i < k -> ops !! i = Some o' ->
        install_operator_outcome w (n + i) (request o') = None) ->
     fst r = Raise e /\
     n_install (snd r) = n + S k /\
     installs_of (trace (snd r))
     = (rev (map request (take (S k) ops))
        ++ installs_of (trace st))%list).
Proof.
  cbv zeta. unfold install_operators, bind, header, log, emit, modify.
  exact (for_each_install w ops (add_event installs_header st)).
Qed.

Lemma install_operators_stops_at_first_failure_witness :
  let ops := [sample_operator "a" "src" "ns" [];
              sample_operator "b" "src" "ns" [];
              sample_operator "c" "src" "ns" []] in
  let r := install_operators failing_install_world ops initial_state in
  fst r = Raise (OtherError "install") /\
  n_install (snd r) = 2 /\
  installs_of (trace (snd r))
  = [ {| target_namespaces := []; req_name := "b"; req_channel := "stable";
         source := "src"; operator_namespace := "ns"; timeout := 600;
         install_plan_approval := "Manual"; starting_csv := "b.v1.0" |};
      {| target_namespaces := []; req_name := "a"; req_channel := "stable";
         source := "src"; operator_namespace := "ns"; timeout := 600;
         install_plan_approval := "Manual"; starting_csv := "a.v1.0" |} ].
Proof.
  intros ops r.
  destruct (proj2 (install_operators_stops_at_first_failure
                     failing_install_world ops initial_state)
              1 (sample_operator "b" "src" "ns" []) (OtherError "install")
              eq_refl eq_refl) as (H1 & H2 & H3).
  - intros i o' Hi Ho'. destruct i as [|i]; [reflexivity|lia].
  - split; [exact H1|]. split; [exact H2|exact H3].
Defined.

(** ** Termination and the order of the cluster-changing calls *)

Create HintDb silent.
Create HintDb terminates.

Section SilentTerminates.
Context (w : World).

Lemma silent_ret {A} (a : A) : silent (ret a).
Proof. by intros st. Qed.

Lemma silent_raise {A} e : silent (@raise A e).
Proof. by intros st. Qed.

Lemma silent_out_of_fuel {A} : silent (@out_of_fuel A).
Proof. by intros st. Qed.

Lemma silent_read {A} (f : State -> A) : silent (read f).
Proof. by intros st. Qed.

Lemma silent_bind {A B} (m : M A) (k : A -> M B) :
  silent m -> (forall a, silent (k a)) -> silent (bind m k).
Proof.
  intros Hm Hk st. unfold bind. specialize (Hm st).
  destruct (m st) as [[a|e|] st']; simpl in Hm; try done.
  by rewrite (Hk a st').
Qed.

Lemma silent_try_except {A} (body : M A) handler :
  silent body -> (forall e, silent (handler e)) ->
  silent (try_except body handler).
Proof.
  intros Hm Hk st. unfold try_except. specialize (Hm st).
  destruct (body st) as [[a|e|] st']; simpl in Hm; try done.
  by rewrite (Hk e st').
Qed.

Lemma silent_lift_result {A} (r : Exn + A) : silent (lift_result r).
Proof. destruct r; by intros st. Qed.

Lemma silent_with_tries n : silent (modify (with_tries n)).
Proof. by intros st. Qed.

Lemma silent_with_found b : silent (modify (with_found b)).
Proof. by intros st. Qed.

Lemma silent_with_previous_manifests c :
  silent (modify (with_previous_manifests c)).
Proof. by intros st. Qed.

Lemma silent_with_previous_pods c : silent (modify (with_previous_pods c)).
Proof. by intros st. Qed.

Lemma silent_log lvl msg : silent (log lvl msg).
Proof. by intros st. Qed.

Lemma silent_sleep n : silent (sleep n).
Proof. by intros st. Qed.

Lemma silent_CatalogSource_get : silent (CatalogSource_get w).
Proof. by intros st. Qed.

Lemma silent_PackageManifest_get : silent (PackageManifest_get w).
Proof. by intros st. Qed.

Lemma silent_Pod_get ns : silent (Pod_get w ns).
Proof. by intros st. Qed.

Lemma silent_while_true fuel body :
  silent body -> silent (while_true fuel body).
Proof.
  intros Hb. induction fuel as [|fuel IH]; [apply silent_out_of_fuel|].
  cbn [while_true]. apply silent_bind; [done|].
  intros []; [done|apply silent_ret].
Qed.

Lemma silent_while_not_found fuel body :
  silent body -> silent (while_not_found fuel body).
Proof.
  intros Hb. induction fuel as [|fuel IH]; [apply silent_out_of_fuel|].
  cbn [while_not_found]. apply silent_bind; [apply silent_read|].
  intros []; [apply silent_ret|]. by apply silent_bind.
Qed.

Lemma silent_for_each {A} (l : list A) body :
  (forall x, silent (body x)) -> silent (for_each l body).
Proof.
  intros Hb. induction l as [|x l IH]; [apply silent_ret|].
  cbn [for_each]. by apply silent_bind.
Qed.

Lemma silent_for_break {A} (l : list A) body :
  (forall x, silent (body x)) -> silent (for_break l body).
Proof.
  intros Hb. induction l as [|x l IH]; [apply silent_ret|].
  cbn [for_break]. apply silent_bind; [done|].
  intros []; [done|apply silent_ret].
Qed.

Lemma terminates_ret {A} (a : A) : terminates (ret a).
Proof. by intros st. Qed.

Lemma terminates_raise {A} e : terminates (@raise A e).
Proof. by intros st. Qed.

Lemma terminates_read {A} (f : State -> A) : terminates (read f).
Proof. by intros st. Qed.

Lemma terminates_modify f : terminates (modify f).
Proof. by intros st. Qed.

Lemma terminates_bind {A B} (m : M A) (k : A -> M B) :
  terminates m -> (forall a, terminates (k a)) -> terminates (bind m k).
Proof.
  intros Hm Hk st. unfold bind. specialize (Hm st).
  destruct (m st) as [[a|e|] st']; simpl in Hm; try done. apply Hk.
Qed.

Lemma terminates_try_except {A} (body : M A) handler :
  terminates body -> (forall e, terminates (handler e)) ->
  terminates (try_except body handler).
Proof.
  intros Hm Hk st. unfold try_except. specialize (Hm st).
  destruct (body st) as [[a|e|] st']; simpl in Hm; try done. apply Hk.
Qed.

Lemma terminates_lift_result {A} (r : Exn + A) : terminates (lift_result r).
Proof. destruct r; by intros st. Qed.

Lemma terminates_lift_outcome o : terminates (lift_outcome o).
Proof. destruct o; by intros st. Qed.

Lemma terminates_install_operator req : terminates (install_operator w req).
Proof.
  intros st. rewrite install_operator_eq. simpl.
  by destruct (install_operator_outcome w (n_install st) req).
Qed.

Lemma terminates_for_each {A} (l : list A) body :
  (forall x, terminates (body x)) -> terminates (for_each l body).
Proof.
  intros Hb. induction l as [|x l IH]; [apply terminates_ret|].
  cbn [for_each]. by apply terminates_bind.
Qed.
End SilentTerminates.

#[local] Hint Resolve silent_ret silent_raise silent_out_of_fuel silent_read
  silent_lift_result silent_with_tries silent_with_found
  silent_with_previous_manifests silent_with_previous_pods silent_log
  silent_sleep silent_CatalogSource_get silent_PackageManifest_get
  silent_Pod_get : silent.

#[local] Hint Resolve terminates_ret terminates_raise terminates_read
  terminates_modify terminates_lift_result terminates_lift_outcome
  terminates_install_operator : terminates.

Ltac silent_step :=
  unfold header;
  repeat first
    [ progress intros
    | apply silent_bind | apply silent_try_except | apply silent_while_true
    | apply silent_while_not_found | apply silent_for_each
    | apply silent_for_break
    | solve [auto with silent]
    | match goal with
      | |- silent (if ?b then _ else _) => destruct b
      | |- silent (match ?x with _ => _ end) => destruct x
      end ].

Ltac terminates_step :=
  unfold header, log, sleep, emit;
  repeat first
    [ progress intros
    | apply terminates_bind | apply terminates_try_except
    | apply terminates_for_each
    | solve [auto with terminates]
    | match goal with
      | |- terminates (if ?b then _ else _) => destruct b
      | |- terminates (match ?x with _ => _ end) => destruct x
      end ].

Lemma silent_load_config w path : silent (load_config w path).
Proof. unfold load_config. silent_step. Qed.

Lemma silent_wait_for_catalog_sources w fuel ops :
  silent (wait_for_catalog_sources w fuel ops).
Proof.
  unfold wait_for_catalog_sources, await_catalog_source,
    catalog_source_iteration.
  silent_step.
Qed.

Lemma silent_wait_for_package_manifests w fuel ops :
  silent (wait_for_package_manifests w fuel ops).
Proof.
  unfold wait_for_package_manifests, await_package_manifest,
    package_manifest_iteration, cached_package_manifests,
    package_manifest_check, manifest_matches.
  silent_step.
Qed.

Lemma silent_verify_operator_running w fuel ops :
  silent (verify_operator_running w fuel ops).
Proof.
  unfold verify_operator_running, await_operator_pod,
    operator_pod_iteration, cached_running_pods, running_pods_check,
    pod_matches.
  silent_step.
Qed.

Lemma terminates_load_config w path : terminates (load_config w path).
Proof. unfold load_config. terminates_step. Qed.

Lemma terminates_wait_for_catalog_sources w fuel ops :
  300 / RECHECK_INTERVAL + 2 <= fuel ->
  terminates (wait_for_catalog_sources w fuel ops).
Proof.
  intros Hfuel. unfold wait_for_catalog_sources.
  apply terminates_bind; [terminates_step|]. intros _.
  apply terminates_for_each. intros src st. by apply catalog_poll.
Qed.

Lemma terminates_wait_for_package_manifests w fuel ops :
  900 / RECHECK_INTERVAL + 3 <= fuel ->
  terminates (wait_for_package_manifests w fuel ops).
Proof.
  intros Hfuel. unfold wait_for_package_manifests.
  apply terminates_bind; [terminates_step|]. intros _.
  apply terminates_bind; [terminates_step|]. intros _.
  apply terminates_for_each. intros operator st. by apply manifest_poll.
Qed.

Lemma terminates_verify_operator_running w fuel ops :
  RECHECK_INTERVAL / RECHECK_INTERVAL + 3 <= fuel ->
  terminates (verify_operator_running w fuel ops).
Proof.
  intros Hfuel. unfold verify_operator_running.
  apply terminates_bind; [terminates_step|]. intros _.
  apply terminates_bind; [terminates_step|]. intros _.
  apply terminates_for_each. intros operator.
  apply terminates_for_each. intros target st. by apply pod_poll.
Qed.

(** X2.  setup_cluster always ends: every loop gives up after a bounded
    number of iterations, so with fuel for the longest loop (900/5 + 3
    steps) a run never exhausts it, whatever the cluster answers; it
    returns or raises. *)
Theorem setup_cluster_terminates w fuel path url st :
  900 / RECHECK_INTERVAL + 3 <= fuel ->
  fst (setup_cluster w fuel path url st) = Ok tt \/
  exists e, fst (setup_cluster w fuel path url st) = Raise e.
Proof.
  intros Hfuel.
  assert (H : terminates (setup_cluster w fuel path url)).
  { unfold setup_cluster.
    apply terminates_bind; [apply terminates_load_config|]. intros ops.
    apply terminates_bind.
    { apply terminates_wait_for_catalog_sources.
      rewrite catalog_bound. rewrite manifest_bound in Hfuel. lia. }
    intros _. apply terminates_bind.
    { by apply terminates_wait_for_package_manifests. }
    intros _. apply terminates_bind.
    { unfold install_operators. terminates_step. }
    intros _. apply terminates_bind.
    { apply terminates_verify_operator_running.
      rewrite pod_bound. rewrite manifest_bound in Hfuel. lia. }
    intros _. apply terminates_bind.
    { unfold install_dsci. terminates_step. }
    intros _. unfold install_datascience_cluster. terminates_step. }
  specialize (H st).
  destruct (fst (setup_cluster w fuel path url st)) as [[]|e|];
    [by left|right; eauto|done].
Qed.

Lemma setup_cluster_terminates_witness :
  let run fuel :=
    setup_cluster no_manifest_world fuel "c.yaml" DEFAULT_REPO initial_state in
  900 / RECHECK_INTERVAL + 3 <= 183 /\
  (fst (run 183) = Ok tt \/ exists e, fst (run 183) = Raise e) /\
  n_catalog_list (snd (run 183)) = 1 /\
  n_manifest_list (snd (run 183)) = 182 /\
  seconds_slept (trace (snd (run 183))) = 182 * RECHECK_INTERVAL /\
  fst (run 181) = OutOfFuel.
Proof.
  intros run.
  assert (Hf : 900 / RECHECK_INTERVAL + 3 <= 183) by (vm_compute; lia).
  split; [exact Hf|].
  split; [exact (setup_cluster_terminates no_manifest_world 183 "c.yaml"
                   DEFAULT_REPO initial_state Hf)|].
  vm_compute. repeat split.
Defined.

Lemma bind_Ok {A} (m : M A) (k : A -> M unit) st :
  fst (bind m k st) = Ok tt ->
  exists a st1, m st = (Ok a, st1) /\ bind m k st = k a st1.
Proof.
  unfold bind. destruct (m st) as [[a|e|] st1]; simpl.
  - intros _. by exists a, st1.
  - discriminate.
  - discriminate.
Qed.

Lemma for_each_install_actions w : forall ops st,
  let r := for_each ops
             (fun operator => install_operator w (install_request operator))
             st in
  fst r = Ok tt ->
  actions_of (trace (snd r))
  = (install_events ops ++ actions_of (trace st))%list.
Proof.
  induction ops as [|o ops IH]; intros st; cbv zeta; [done|].
  rewrite for_each_cons, install_operator_eq.
  destruct (install_operator_outcome w (n_install st) (install_request o));
    [discriminate|].
  intros Hok. rewrite (IH _ Hok). unfold install_events.
  cbn [map rev trace count_install actions_of]. by rewrite <- app_assoc.
Qed.

(** What the five stages before the last have done to the cluster once
    they have all succeeded. *)
Lemma five_stages_actions w fuel ops st0 st1 st2 st3 st4 st5 :
  wait_for_catalog_sources w fuel ops st0 = (Ok tt, st1) ->
  wait_for_package_manifests w fuel ops st1 = (Ok tt, st2) ->
  install_operators w ops st2 = (Ok tt, st3) ->
  verify_operator_running w fuel ops st3 = (Ok tt, st4) ->
  install_dsci w st4 = (Ok tt, st5) ->
  actions_of (trace st5) =
    (ECreateDSCI "manifests/dsci.yaml"
       :: install_events ops ++ actions_of (trace st0))%list.
Proof.
  intros Hcs Hpm Hio Hvr Hdsci.
  pose proof (silent_wait_for_catalog_sources w fuel ops st0) as A1.
  pose proof (silent_wait_for_package_manifests w fuel ops st1) as A2.
  pose proof (silent_verify_operator_running w fuel ops st3) as A4.
  rewrite Hcs in A1. rewrite Hpm in A2. rewrite Hvr in A4.
  simpl in A1, A2, A4.
  assert (A3 : actions_of (trace st3)
               = (install_events ops ++ actions_of (trace st2))%list).
  { unfold install_operators, bind, header, log, emit, modify in Hio.
    pose proof (for_each_install_actions w ops
                  (add_event installs_header st2)) as H.
    cbv zeta in H. fold installs_header in Hio. rewrite Hio in H.
    by apply H. }
  unfold install_dsci, bind, header, log, emit, modify, lift_outcome in Hdsci.
  destruct (dsci_create_outcome w); [discriminate|].
  injection Hdsci as <-. simpl. by rewrite A4, A3, A2, A1.
Qed.

(** A successful run is a successful run of each stage in turn. *)
Lemma setup_cluster_Ok_inv w fuel path url st :
  fst (setup_cluster w fuel path url st) = Ok tt ->
  exists ops st0 st1 st2 st3 st4 st5,
    load_config w path st = (Ok ops, st0) /\
    wait_for_catalog_sources w fuel ops st0 = (Ok tt, st1) /\
    wait_for_package_manifests w fuel ops st1 = (Ok tt, st2) /\
    install_operators w ops st2 = (Ok tt, st3) /\
    verify_operator_running w fuel ops st3 = (Ok tt, st4) /\
    install_dsci w st4 = (Ok tt, st5) /\
    setup_cluster w fuel path url st = install_datascience_cluster w url st5.
Proof.
  intros Hok. unfold setup_cluster in Hok |- *.
  destruct (bind_Ok _ _ _ Hok) as (ops & st0 & Hload & Hk).
  rewrite Hk in *. clear Hk.
  destruct (bind_Ok _ _ _ Hok) as ([] & st1 & Hcs & Hk).
  rewrite Hk in *. clear Hk.
  destruct (bind_Ok _ _ _ Hok) as ([] & st2 & Hpm & Hk).
  rewrite Hk in *. clear Hk.
  destruct (bind_Ok _ _ _ Hok) as ([] & st3 & Hio & Hk).
  rewrite Hk in *. clear Hk.
  destruct (bind_Ok _ _ _ Hok) as ([] & st4 & Hvr & Hk).
  rewrite Hk in *. clear Hk.
  destruct (bind_Ok _ _ _ Hok) as ([] & st5 & Hdsci & Hk).
  rewrite Hk in *. clear Hk.
  by exists ops, st0, st1, st2, st3, st4, st5.
Qed.

Lemma load_config_Ok w path st text ops :
  open_read w path = inr text -> yaml_load w text = inr ops ->
  load_config w path st = (Ok ops, st).
Proof.
  intros Hopen Hyaml. unfold load_config, try_except, bind, lift_result.
  rewrite Hopen. unfold ret. by rewrite Hyaml.
Qed.

(** X3.  On a successful run the calls that change the cluster are, in
    this order: one install request per configured operator, in the order
    of the configuration; then the creation of the DSCI from
    ["manifests/dsci.yaml"]; then, last, the creation of the data science
    cluster from the template with the URL substituted.  No call of the
    three waiting stages changes the cluster. *)
Theorem setup_cluster_success_order w fuel path url st text ops :
  open_read w path = inr text ->
  yaml_load w text = inr ops ->
  fst (setup_cluster w fuel path url st) = Ok tt ->
  exists template,
    open_read w "manifests/dsc_template.yaml" = inr template /\
    actions_of (trace (snd (setup_cluster w fuel path url st))) =
      (ECreateDSC (replace TOKEN url template)
         :: ECreateDSCI "manifests/dsci.yaml"
         :: install_events ops ++ actions_of (trace st))%list.
Proof.
  intros Hopen Hyaml Hok.
  destruct (setup_cluster_Ok_inv w fuel path url st Hok)
    as (ops' & st0 & st1 & st2 & st3 & st4 & st5
        & Hload & Hcs & Hpm & Hio & Hvr & Hdsci & Heq).
  rewrite (load_config_Ok w path st text ops Hopen Hyaml) in Hload.
  injection Hload as <- <-.
  pose proof (five_stages_actions w fuel ops st _ _ _ _ _
                Hcs Hpm Hio Hvr Hdsci) as Ha.
  rewrite Heq in Hok |- *.
  unfold install_datascience_cluster, bind, header, log, emit, modify,
    lift_result in Hok |- *.
  destruct (open_read w "manifests/dsc_template.yaml") as [e|template];
    [discriminate|].
  exists template. split; [done|].
  unfold ret, lift_outcome in *.
  destruct (dsc_create_outcome w (replace TOKEN url template));
    [discriminate|].
  simpl. by rewrite Ha.
Qed.

Lemma setup_cluster_success_order_witness :
  fst (setup_cluster ready_world 183 "c.yaml" "http://x" initial_state)
    = Ok tt /\
  actions_of
    (trace (snd (setup_cluster ready_world 183 "c.yaml" "http://x"
                   initial_state))) =
  [ ECreateDSC "uri: http://x";
    ECreateDSCI "manifests/dsci.yaml";
    EInstallOperator (install_request (sample_operator "op" "src" "ns" ["pod"])) ].
Proof.
  assert (Hok : fst (setup_cluster ready_world 183 "c.yaml" "http://x"
                       initial_state) = Ok tt) by (vm_compute; reflexivity).
  split; [exact Hok|].
  destruct (setup_cluster_success_order ready_world 183 "c.yaml" "http://x"
              initial_state "config" _ eq_refl eq_refl Hok)
    as (template & Ht & Ha).
  injection Ht as <-. exact Ha.
Defined.

(** ** An empty configuration *)

Lemma set_order_empty w : set_order_ok w -> set_order w ∅ = [].
Proof.
  intros Hw. destruct (Hw ∅) as [_ Hin].
  destruct (set_order w ∅) as [|x l]; [done|].
  exfalso. apply (not_elem_of_empty (C := gset string) x).
  apply Hin, list_elem_of_here.
Qed.

(** X4.  With a configuration that lists no operator, setup_cluster asks
    the cluster nothing and waits for nothing: no listing of catalog
    sources, package manifests or pods, no sleep, no install request,
    whatever the fuel.  It goes straight to the two create calls, and its
    outcome is theirs: the error of the DSCI creation, else the error of
    reading the template, else the error of the cluster creation, else
    success. *)
Theorem empty_configuration_skips_waits w fuel path url st text :
  set_order_ok w ->
  open_read w path = inr text ->
  yaml_load w text = inr [] ->
  let r := setup_cluster w fuel path url st in
  n_catalog_list (snd r) = n_catalog_list st /\
  n_manifest_list (snd r) = n_manifest_list st /\
  n_pod_list (snd r) = n_pod_list st /\
  n_install (snd r) = n_install st /\
  seconds_slept (trace (snd r)) = seconds_slept (trace st) /\
  fst r =
    match dsci_create_outcome w with
    | Some e => Raise e
    | None =>
        match open_read w "manifests/dsc_template.yaml" with
        | inl e => Raise e
        | inr template =>
            match dsc_create_outcome w (replace TOKEN url template) with
            | Some e => Raise e
            | None => Ok tt
            end
        end
    end.
Proof.
  intros Hw Hopen Hyaml r.
  assert (Hload : load_config w path st = (Ok [], st)).
  { unfold load_config, try_except, bind, lift_result.
    rewrite Hopen. unfold ret. by rewrite Hyaml. }
  cut (exists o st', r = (o, st') /\
         n_catalog_list st' = n_catalog_list st /\
         n_manifest_list st' = n_manifest_list st /\
         n_pod_list st' = n_pod_list st /\
         n_install st' = n_install st /\
         seconds_slept (trace st') = seconds_slept (trace st) /\
         o = match dsci_create_outcome w with
             | Some e => Raise e
             | None =>
                 match open_read w "manifests/dsc_template.yaml" with
                 | inl e => Raise e
                 | inr template =>
                     match dsc_create_outcome w (replace TOKEN url template)
                     with
                     | Some e => Raise e
                     | None => Ok tt
                     end
                 end
             end).
  { intros (o & st' & -> & H). exact H. }
  subst r. unfold setup_cluster. unfold bind at 1. rewrite Hload.
  unfold wait_for_catalog_sources. cbn [map].
  change (list_to_set (@nil string)) with (∅ : gset string).
  rewrite (set_order_empty w Hw).
  unfold wait_for_package_manifests, install_operators,
    verify_operator_running, install_dsci, install_datascience_cluster.
  cbn [for_each].
  unfold bind, header, log, emit, modify, lift_outcome, lift_result, ret,
    raise.
  destruct (dsci_create_outcome w);
    [eexists _, _; split; [reflexivity|simpl; done]|].
  destruct (open_read w "manifests/dsc_template.yaml") as [e|template];
    [eexists _, _; split; [reflexivity|simpl; done]|].
  destruct (dsc_create_outcome w (replace TOKEN url template));
    eexists _, _; (split; [reflexivity|simpl; done]).
Qed.

Lemma empty_configuration_skips_waits_witness :
  set_order_ok empty_config_world /\
  let r := setup_cluster empty_config_world 0 "c.yaml" "http://x"
             initial_state in
  fst r = Ok tt /\ n_catalog_list (snd r) = 0 /\
  seconds_slept (trace (snd r)) = 0.
Proof.
  assert (Hw : set_order_ok empty_config_world)
    by (by apply elements_order_ok).
  split; [exact Hw|]. intros r.
  destruct (empty_configuration_skips_waits empty_config_world 0 "c.yaml"
              "http://x" initial_state "config" Hw eq_refl eq_refl)
    as (H1 & _ & _ & _ & H5 & H6).
  split; [exact H6|]. split; [exact H1|exact H5].
Defined.

(** ** The template of install_datascience_cluster *)

Lemma install_datascience_cluster_unreadable w url st e :
  open_read w "manifests/dsc_template.yaml" = inl e ->
  install_datascience_cluster w url st =
  (Raise e,
   add_event (ELog INFO (Fmt "Using manifests from {}" (AStr url)))
     (add_event dsc_header st)).
Proof.
  intros Ho. unfold install_datascience_cluster, bind, header, log, emit,
    modify. by rewrite Ho.
Qed.

(** X5.  The template is read only in the last stage and the error of
    reading it is not handled.  With a template that cannot be read no
    run succeeds and no create call for the data science cluster is ever
    issued; and when the five stages before have succeeded, the run
    raises the error of the read after every operator has been installed
    and the DSCI has been created. *)
Theorem unreadable_template_fails_after_dsci w fuel path url st e :
  open_read w "manifests/dsc_template.yaml" = inl e ->
  let r := setup_cluster w fuel path url st in
  fst r <> Ok tt /\
  (forall st', install_datascience_cluster w url st' =
     (Raise e,
      add_event (ELog INFO (Fmt "Using manifests from {}" (AStr url)))
        (add_event dsc_header st'))) /\
  (forall ops st0 st5,
     load_config w path st = (Ok ops, st0) ->
     run_stages (take 5 (stages w fuel url ops)) st0 = (Ok tt, st5) ->
     fst r = Raise e /\
     actions_of (trace (snd r)) =
       (ECreateDSCI "manifests/dsci.yaml"
          :: install_events ops ++ actions_of (trace st0))%list).
Proof.
  intros Ho r. split; [|split].
  - intros Hok.
    destruct (setup_cluster_Ok_inv w fuel path url st Hok)
      as (ops & st0 & st1 & st2 & st3 & st4 & st5 & _ & _ & _ & _ & _ & _ & Heq).
    unfold r in Hok. rewrite Heq in Hok.
    by rewrite (install_datascience_cluster_unreadable w url st5 e Ho) in Hok.
  - intros st'. by apply install_datascience_cluster_unreadable.
  - intros ops st0 st5 Hload Hrun.
    cbn [take stages run_stages] in Hrun.
    assert (Hok : fst (run_stages (take 5 (stages w fuel url ops)) st0) = Ok tt).
    { cbn [take stages run_stages]. by rewrite Hrun. }
    cbn [take stages run_stages] in Hok.
    destruct (bind_Ok _ _ _ Hok) as ([] & st1 & Hcs & Hk).
    rewrite Hk in *. clear Hk.
    destruct (bind_Ok _ _ _ Hok) as ([] & st2 & Hpm & Hk).
    rewrite Hk in *. clear Hk.
    destruct (bind_Ok _ _ _ Hok) as ([] & st3 & Hio & Hk).
    rewrite Hk in *. clear Hk.
    destruct (bind_Ok _ _ _ Hok) as ([] & st4 & Hvr & Hk).
    rewrite Hk in *. clear Hk.
    destruct (bind_Ok _ _ _ Hok) as ([] & st5' & Hdsci & Hk).
    rewrite Hk in *. clear Hk. unfold ret in Hrun. injection Hrun as ->.
    pose proof (five_stages_actions w fuel ops st0 _ _ _ _ _
                  Hcs Hpm Hio Hvr Hdsci) as Ha.
    assert (Hr : r = (Raise e,
              add_event (ELog INFO (Fmt "Using manifests from {}" (AStr url)))
                (add_event dsc_header st5))).
    { unfold r, setup_cluster, bind.
      rewrite Hload, Hcs, Hpm, Hio, Hvr, Hdsci.
      by apply install_datascience_cluster_unreadable. }
    rewrite Hr. simpl. by rewrite Ha.
Qed.

Lemma unreadable_template_fails_after_dsci_witness :
  let r := setup_cluster no_template_world 183 "c.yaml" "http://x"
             initial_state in
  open_read no_template_world "manifests/dsc_template.yaml"
    = inl (FileNotFoundError "manifests/dsc_template.yaml") /\
  fst r = Raise (FileNotFoundError "manifests/dsc_template.yaml") /\
  actions_of (trace (snd r)) =
    [ ECreateDSCI "manifests/dsci.yaml";
      EInstallOperator
        (install_request (sample_operator "op" "src" "ns" ["pod"])) ].
Proof.
  intros r.
  assert (Ho : open_read no_template_world "manifests/dsc_template.yaml"
               = inl (FileNotFoundError "manifests/dsc_template.yaml"))
    by reflexivity.
  split; [exact Ho|].
  destruct (unreadable_template_fails_after_dsci no_template_world 183
              "c.yaml" "http://x" initial_state _ Ho) as (_ & _ & H).
  destruct (run_stages
              (take 5 (stages no_template_world 183 "http://x"
                         [sample_operator "op" "src" "ns" ["pod"]]))
              initial_state) as [o st5] eqn:E.
  assert (Ho5 : o = Ok tt).
  { change o with (fst (o, st5)). rewrite <- E. vm_compute. reflexivity. }
  subst o.
  exact (H [sample_operator "op" "src" "ns" ["pod"]] initial_state st5
           eq_refl E).
Defined.

(** X6.  A template that does not contain the placeholder is submitted
    as it is, whatever the URL. *)
Theorem template_without_placeholder_unchanged w url st template :
  open_read w "manifests/dsc_template.yaml" = inr template ->
  str_in TOKEN template = false ->
  trace (snd (install_datascience_cluster w url st)) =
    ECreateDSC template
      :: ELog INFO (Fmt "Using manifests from {}" (AStr url))
      :: dsc_header :: trace st.
Proof.
  intros Ho Hfree.
  rewrite (install_datascience_cluster_trace w url st template Ho).
  by rewrite (replace_free TOKEN url template Hfree).
Qed.

Lemma template_without_placeholder_unchanged_witness :
  str_in TOKEN "kind: DataScienceCluster" = false /\
  trace (snd (install_datascience_cluster plain_template_world DEFAULT_REPO
                initial_state)) =
  [ ECreateDSC "kind: DataScienceCluster";
    ELog INFO (Fmt "Using manifests from {}" (AStr DEFAULT_REPO));
    dsc_header ].
Proof.
  assert (Hfree : str_in TOKEN "kind: DataScienceCluster" = false)
    by reflexivity.
  split; [exact Hfree|].
  exact (template_without_placeholder_unchanged plain_template_world
           DEFAULT_REPO initial_state _ eq_refl Hfree).
Defined.

(** ** The readiness test of verify_operator_running *)

Lemma str_in_unfold t s :
  str_in t s =
  if String.prefix t s then true
  else match s with
       | EmptyString => false
       | String _ s' => str_in t s'
       end.
Proof. by destruct s. Qed.

(** [t in s] holds exactly when [t] occurs somewhere in [s]. *)
Lemma str_in_iff t : forall s,
  str_in t s = true <-> exists u v, s = u ++ t ++ v.
Proof.
  intros s. split.
  - induction s as [|c s IH]; rewrite str_in_unfold.
    + destruct (String.prefix t EmptyString) eqn:Hp; [|discriminate].
      intros _. destruct (prefix_split _ _ Hp) as [v Hv].
      by exists EmptyString, v.
    + destruct (String.prefix t (String c s)) eqn:Hp.
      * intros _. destruct (prefix_split _ _ Hp) as [v Hv].
        by exists EmptyString, v.
      * intros H. destruct (IH H) as (u & v & ->).
        by exists (String c u), v.
  - intros (u & v & ->). induction u as [|c u IH].
    + rewrite app_Empty, str_in_unfold. by rewrite prefix_refl_app.
    + rewrite app_String, str_in_unfold, IH.
      by destruct (String.prefix t _).
Qed.

Lemma num_running_containers_count : forall statuses,
  Forall (fun c => started c <> None) statuses ->
  num_running_containers statuses = inr (started_count statuses).
Proof.
  intros statuses _.
  exact (pod_status_count_started
           {| pod_name := ""; containerStatuses := Some statuses |}
           statuses eq_refl).
Qed.

(** X7.  The name test of the readiness check is containment: a scanned
    pod is taken as the awaited one exactly when the target occurs
    somewhere in its name (at the start, in the middle or at the end)
    and exactly one of its containers has started.  The count is the
    number of containers whose ['started'] is true. *)
Theorem pod_accepted_iff_name_contains_target target pod statuses st :
  found st = false ->
  containerStatuses pod = Some statuses ->
  Forall (fun c => started c <> None) statuses ->
  let r := for_break [pod] (pod_matches target) st in
  (found (snd r) = true <->
   (exists u v, pod_name pod = u ++ target ++ v) /\
   started_count statuses = 1) /\
  fst r = Ok tt.
Proof.
  intros Hf Hs Hall r. subst r. rewrite for_break_pods.
  cbn [find_ready]. unfold pod_status_count. rewrite Hs.
  rewrite (num_running_containers_count statuses Hall).
  rewrite <- str_in_iff.
  destruct (str_in target (pod_name pod)) eqn:Hn;
    destruct (Nat.eqb_spec (started_count statuses) 1) as [Hc|Hc];
    simpl; rewrite ?Hf; (split; [|done]); split; try done;
    try (by intros [? ?]).
Qed.

Lemma pod_accepted_iff_name_contains_target_witness :
  found initial_state = false /\
  found (snd (for_break [infix_pod] (pod_matches "operator") initial_state))
    = true.
Proof.
  split; [reflexivity|].
  apply (proj1 (pod_accepted_iff_name_contains_target "operator" infix_pod
                  [ {| started := Some true |} ] initial_state eq_refl eq_refl
                  ltac:(repeat constructor; discriminate))).
  split; [|reflexivity].
  by exists "my-", "-7f9".
Defined.




(** ** How long wait_for_catalog_sources sleeps *)

Tactic Notation "state_simpl" "in" hyp(H) :=
  cbn [trace n_catalog_list n_manifest_list n_pod_list n_install tries found
       previous_manifests previous_pods add_event with_tries with_found
       with_previous_manifests with_previous_pods count_catalog_list
       count_manifest_list count_pod_list count_install after_scan Nat.add]
    in H.

Section CatalogSleep.
Context (w : World) (X : gset string).

(** Every listing but a successful one is followed by one sleep. *)
Lemma while_catalog_sleep src : forall fuel st,
  let r := while_true fuel (catalog_source_iteration w X src) st in
  fst r <> OutOfFuel ->
  n_catalog_list st + returned (fst r) <= n_catalog_list (snd r) /\
  seconds_slept (trace (snd r)) =
    seconds_slept (trace st) +
    RECHECK_INTERVAL *
      (n_catalog_list (snd r) - n_catalog_list st - returned (fst r)).
Proof.
  induction fuel as [|fuel IH]; intros st; cbv zeta; [done|].
  rewrite while_true_S, catalog_source_iteration_eq.
  destruct (available w src (n_catalog_list st)).
  - intros _. simpl. split; [lia|]. unfold RECHECK_INTERVAL. lia.
  - destruct (Nat.ltb _ (tries st)).
    + intros _. simpl. split; [lia|]. unfold RECHECK_INTERVAL. lia.
    + intros Hne. destruct (IH _ Hne) as [H1 H2]. rewrite H2.
      state_simpl. rewrite !seconds_slept_cons. cbn [slept].
      state_simpl in H1. split; [lia|]. unfold RECHECK_INTERVAL in *. lia.
Qed.

Lemma await_catalog_sleep fuel src st :
  300 / RECHECK_INTERVAL + 2 <= fuel ->
  let r := await_catalog_source w fuel X src st in
  n_catalog_list st + returned (fst r) <= n_catalog_list (snd r) /\
  n_catalog_list (snd r) <= n_catalog_list st + (300 / RECHECK_INTERVAL + 2) /\
  seconds_slept (trace (snd r)) =
    seconds_slept (trace st) +
    RECHECK_INTERVAL *
      (n_catalog_list (snd r) - n_catalog_list st - returned (fst r)).
Proof.
  intros Hfuel. cbv zeta.
  destruct (catalog_poll w fuel st X src Hfuel) as (Hne & _ & Hle & _).
  unfold await_catalog_source, bind, modify in *.
  destruct (while_catalog_sleep src fuel (with_tries 0 st) Hne) as [H1 H2].
  split; [exact H1|]. split; [exact Hle|exact H2].
Qed.

Lemma for_each_catalog_sleep fuel :
  300 / RECHECK_INTERVAL + 2 <= fuel ->
  forall srcs st,
  let r := for_each srcs (await_catalog_source w fuel X) st in
  n_catalog_list st <= n_catalog_list (snd r) /\
  seconds_slept (trace (snd r)) <=
    seconds_slept (trace st) +
    RECHECK_INTERVAL * (n_catalog_list (snd r) - n_catalog_list st) /\
  (fst r = Ok tt ->
   length srcs <= n_catalog_list (snd r) - n_catalog_list st /\
   seconds_slept (trace (snd r)) =
     seconds_slept (trace st) +
     RECHECK_INTERVAL *
       (n_catalog_list (snd r) - n_catalog_list st - length srcs)).
Proof.
  intros Hfuel. induction srcs as [|src srcs IH]; intros st; cbv zeta.
  - simpl. repeat split; unfold RECHECK_INTERVAL; lia.
  - rewrite for_each_cons.
    destruct (await_catalog_sleep fuel src st Hfuel) as (H1 & _ & H2).
    destruct (await_catalog_source w fuel X src st) as [[[]|e|] st'];
      cbn [fst snd returned] in H1, H2 |- *.
    + destruct (IH st') as (I1 & I2 & I3).
      split; [lia|]. split.
      * rewrite H2 in I2. unfold RECHECK_INTERVAL in *. lia.
      * intros Hok. destruct (I3 Hok) as [I4 I5]. cbn [length].
        split; [lia|]. rewrite I5, H2. unfold RECHECK_INTERVAL. lia.
    + split; [lia|]. split; [|done]. rewrite H2.
      unfold RECHECK_INTERVAL. lia.
    + split; [lia|]. split; [|done]. rewrite H2.
      unfold RECHECK_INTERVAL. lia.
Qed.

Lemma for_each_catalog_present fuel :
  300 / RECHECK_INTERVAL + 2 <= fuel ->
  forall srcs st,
  (forall s n, s ∈ srcs -> available w s n = true) ->
  let r := for_each srcs (await_catalog_source w fuel X) st in
  fst r = Ok tt /\
  n_catalog_list (snd r) = n_catalog_list st + length srcs.
Proof.
  intros Hfuel. induction srcs as [|src srcs IH]; intros st Hav; cbv zeta.
  - simpl. split; [done|lia].
  - rewrite for_each_cons.
    pose proof (await_catalog_source_spec w fuel X Hfuel src st) as H.
    cbv zeta in H. rewrite catalog_bound in H. change (60 + 2) with (S 61) in H.
    rewrite first_hit_S, (Hav src _ (list_elem_of_here _ _)) in H.
    destruct H as [H1 H2].
    destruct (await_catalog_source w fuel X src st) as [o st'].
    simpl in H1, H2. subst o.
    destruct (IH st') as [I1 I2].
    { intros s n Hs. by apply Hav, list_elem_of_further. }
    rewrite I1, I2, H2. cbn [length]. split; [done|lia].
Qed.
End CatalogSleep.

(** X9.  wait_for_catalog_sources sleeps one recheck interval after every
    listing that does not show the awaited source, and only then.  So a
    run that issues [n] listings for K distinct sources has slept at most
    5 n seconds, and exactly 5 (n - K) seconds when it succeeds; as [n] is
    at most 62 K, the whole call sleeps at most 310 K seconds.  When
    every listing shows all the configured sources, the call succeeds
    after exactly K listings without sleeping. *)
Theorem catalog_sources_sleep_accounting w fuel (ops : list OperatorSpec) st :
  set_order_ok w ->
  300 / RECHECK_INTERVAL + 2 <= fuel ->
  let X : gset string := list_to_set (map catalogSource ops) in
  let r := wait_for_catalog_sources w fuel ops st in
  let listings := n_catalog_list (snd r) - n_catalog_list st in
  let slept := seconds_slept (trace (snd r)) - seconds_slept (trace st) in
  seconds_slept (trace st) <= seconds_slept (trace (snd r)) /\
  slept <= RECHECK_INTERVAL * listings /\
  listings <= size X * (300 / RECHECK_INTERVAL + 2) /\
  (fst r = Ok tt ->
   size X <= listings /\ slept = RECHECK_INTERVAL * (listings - size X)) /\
  ((forall o n, o ∈ ops -> available w (catalogSource o) n = true) ->
   fst r = Ok tt /\ listings = size X /\ slept = 0).
Proof.
  intros Hw Hfuel X r listings slept. subst r listings slept.
  unfold wait_for_catalog_sources, bind, header, log, emit, modify. fold X.
  fold catalog_header.
  pose proof (set_order_length w X Hw) as Hlen.
  destruct (for_each_catalog_sleep w X fuel Hfuel (set_order w X)
              (add_event catalog_header st)) as (H1 & H2 & H3).
  state_simpl in H1. state_simpl in H2. state_simpl in H3.
  change (seconds_slept (catalog_header :: trace st))
    with (seconds_slept (trace st)) in *.
  rewrite Hlen in H3.
  split; [|split; [|split; [|split]]].
  - assert (seconds_slept (trace st) <=
            seconds_slept (trace (snd (for_each (set_order w X)
              (await_catalog_source w fuel X) (add_event catalog_header st))))).
    { destruct (for_each_catalog_sleep w X fuel Hfuel (set_order w X)
                  (add_event catalog_header st)) as (_ & _ & K3).
      clear K3.
      assert (G : grows (for_each (set_order w X)
                           (await_catalog_source w fuel X))).
      { apply grows_for_each. intros src.
        unfold await_catalog_source, catalog_source_iteration. grows_step. }
      destruct (G (add_event catalog_header st)) as [events Hev].
      rewrite Hev. state_simpl. clear.
      induction events as [|e events IH]; [done|].
      cbn [app]. rewrite seconds_slept_cons. lia. }
    done.
  - unfold RECHECK_INTERVAL in *. lia.
  - destruct (for_each_catalog w fuel X Hfuel (set_order w X)
                (add_event catalog_header st)) as (_ & K & _).
    state_simpl in K. rewrite Hlen in K. lia.
  - intros Hok. destruct (H3 Hok) as [H4 H5]. split; [done|].
    unfold RECHECK_INTERVAL in *. lia.
  - intros Hav.
    destruct (for_each_catalog_present w X fuel Hfuel (set_order w X)
                (add_event catalog_header st)) as [K1 K2].
    { intros s n Hs. destruct (Hw X) as [_ Hin]. apply Hin in Hs.
      unfold X in Hs.
      rewrite elem_of_list_to_set, list_elem_of_In, in_map_iff in Hs.
      destruct Hs as (o & <- & Ho). apply Hav. by rewrite list_elem_of_In. }
    state_simpl in K2. rewrite Hlen in K2.
    destruct (H3 K1) as [H4 H5].
    split; [done|]. split; [lia|]. rewrite H5, K2.
    replace (n_catalog_list st + size X - n_catalog_list st - size X) with 0
      by lia.
    unfold RECHECK_INTERVAL. lia.
Qed.

Lemma catalog_sources_sleep_accounting_witness :
  let ops := [sample_operator "a" "s1" "ns" [];
              sample_operator "b" "s2" "ns" [];
              sample_operator "c" "s1" "ns" []] in
  let r := wait_for_catalog_sources two_sources_world 62 ops initial_state in
  set_order_ok two_sources_world /\
  300 / RECHECK_INTERVAL + 2 <= 62 /\
  fst r = Ok tt /\
  n_catalog_list (snd r) - n_catalog_list initial_state = 2 /\
  seconds_slept (trace (snd r)) - seconds_slept (trace initial_state) = 0.
Proof.
  intros ops r.
  assert (Hw : set_order_ok two_sources_world) by (by apply elements_order_ok).
  assert (Hf : 300 / RECHECK_INTERVAL + 2 <= 62) by (vm_compute; lia).
  split; [exact Hw|]. split; [exact Hf|].
  destruct (catalog_sources_sleep_accounting two_sources_world 62 ops
              initial_state Hw Hf) as (_ & _ & _ & _ & H).
  destruct H as (H1 & H2 & H3).
  - intros o n Ho. unfold ops in Ho.
    rewrite !elem_of_cons, elem_of_nil in Ho.
    destruct Ho as [->|[->|[->|[]]]]; reflexivity.
  - split; [exact H1|]. split; [|exact H3].
    refine (eq_trans H2 _). vm_compute. reflexivity.
Defined.

(** ** wait_for_package_manifests as a whole *)

Section AllPackageManifests.
Context (w : World).

(** A wait whose first scan finds the manifest: in the cached listing
    without a call, else in a listing fetched by one call. *)
Lemma await_package_manifest_hit fuel operator st :
  2 <= fuel ->
  let l := match previous_manifests st with
           | Some l => l
           | None => package_manifests_at w (n_manifest_list st)
           end in
  has_manifest operator l = true ->
  let r := await_package_manifest w fuel operator st in
  fst r = Ok tt /\
  previous_manifests (snd r) = Some l /\
  n_manifest_list (snd r) =
    n_manifest_list st +
    match previous_manifests st with Some _ => 0 | None => 1 end /\
  seconds_slept (trace (snd r)) = seconds_slept (trace st).
Proof.
  intros Hfuel l Hl. cbv zeta.
  do 2 (destruct fuel as [|fuel]; [lia|]).
  unfold await_package_manifest, bind, modify.
  rewrite while_not_found_S. cbn [found with_found].
  subst l. destruct (previous_manifests st) as [l|] eqn:Hp.
  - rewrite (package_manifest_iteration_cached _ _ _ l),
      package_manifest_check_eq by done.
    cbv zeta. rewrite Hl. state_simpl. rewrite manifest_bound.
    change (Nat.ltb 180 0) with false. cbv iota.
    rewrite while_not_found_S. simpl.
    repeat split; [done|lia].
  - rewrite package_manifest_iteration_fresh by (by right).
    cbv zeta. rewrite package_manifest_check_eq by done.
    cbv zeta. state_simpl. rewrite Hl. state_simpl. rewrite manifest_bound.
    change (Nat.ltb 180 0) with false. cbv iota.
    rewrite while_not_found_S. simpl.
    repeat split; lia.
Qed.

Lemma for_each_manifests_hit fuel L : 2 <= fuel ->
  forall ops st,
  previous_manifests st = Some L ->
  (forall o, o ∈ ops -> has_manifest o L = true) ->
  let r := for_each ops (await_package_manifest w fuel) st in
  fst r = Ok tt /\
  n_manifest_list (snd r) = n_manifest_list st /\
  seconds_slept (trace (snd r)) = seconds_slept (trace st).
Proof.
  intros Hfuel. induction ops as [|o ops IH]; intros st Hp Hall; cbv zeta.
  - done.
  - rewrite for_each_cons.
    pose proof (await_package_manifest_hit fuel o st Hfuel) as H.
    cbv zeta in H. rewrite Hp in H.
    destruct (H (Hall o (list_elem_of_here _ _))) as (H1 & H2 & H3 & H4).
    destruct (await_package_manifest w fuel o st) as [r st'].
    simpl in H1, H2, H3, H4. subst r.
    destruct (IH st' H2) as (I1 & I2 & I3).
    { intros o' Ho'. by apply Hall, list_elem_of_further. }
    rewrite I1, I2, I3, H3, H4. repeat split; lia.
Qed.

(** A successful wait found the manifest either in the cached listing,
    which it keeps, or in a listing it fetched, the last of which it
    leaves in the cache. *)
Lemma await_package_manifest_provenance fuel operator st :
  900 / RECHECK_INTERVAL + 3 <= fuel ->
  let r := await_package_manifest w fuel operator st in
  fst r = Ok tt ->
  (exists l, previous_manifests st = Some l /\
             has_manifest operator l = true /\
             previous_manifests (snd r) = Some l /\
             n_manifest_list (snd r) = n_manifest_list st) \/
  (exists m, n_manifest_list st <= m < n_manifest_list (snd r) /\
             listed w operator m = true /\
             previous_manifests (snd r) =
               Some (package_manifests_at w (pred (n_manifest_list (snd r))))).
Proof.
  rewrite manifest_bound. intros Hfuel. cbv zeta.
  unfold await_package_manifest, bind, modify.
  destruct (previous_manifests st) as [l|] eqn:Hp.
  - destruct fuel as [|fuel]; [lia|].
    rewrite while_not_found_S. cbn [found with_found].
    rewrite (package_manifest_iteration_cached _ _ _ l),
      package_manifest_check_eq by done.
    cbv zeta. cbn [tries with_found with_tries]. rewrite manifest_bound.
    change (Nat.ltb 180 0) with false. cbv iota.
    destruct (has_manifest operator l) eqn:Hl.
    + destruct fuel as [|fuel]; [lia|].
      rewrite while_not_found_S. state_simpl. intros _. left.
      exists l. simpl. by rewrite Hp.
    + match goal with |- context [while_not_found fuel _ ?s] =>
        pose proof (while_manifest_fresh w operator 180 fuel s) as H' end.
      state_simpl in H'.
      destruct (H' eq_refl ltac:(lia) ltac:(by rewrite manifest_bound)
                   ltac:(lia)) as [Hprev H''].
      state_simpl. intros Hok. right.
      destruct (first_hit (listed w operator) (n_manifest_list st) 180)
        as [i|] eqn:Hh; destruct H'' as (H1 & H2 & H3);
        [|rewrite H1 in Hok; discriminate].
      apply first_hit_Some in Hh as (Hi & Hav & _).
      exists (n_manifest_list st + i). rewrite H2. split; [lia|].
      split; [done|]. by rewrite Hprev, H2.
  - match goal with |- context [while_not_found fuel _ ?s] =>
      pose proof (while_manifest_fresh w operator 181 fuel s) as H' end.
    state_simpl in H'.
    destruct (H' eq_refl ltac:(by right) ltac:(by rewrite manifest_bound)
                 ltac:(lia)) as [Hprev H''].
    intros Hok. right.
    destruct (first_hit (listed w operator) (n_manifest_list st) 181)
      as [i|] eqn:Hh; destruct H'' as (H1 & H2 & H3);
      [|rewrite H1 in Hok; discriminate].
    apply first_hit_Some in Hh as (Hi & Hav & _).
    exists (n_manifest_list st + i). rewrite H2. split; [lia|].
    split; [done|]. by rewrite Hprev, H2.
Qed.

Lemma for_each_manifests_sound fuel n0 :
  900 / RECHECK_INTERVAL + 3 <= fuel ->
  forall ops st,
  manifests_cache_from w n0 st ->
  let r := for_each ops (await_package_manifest w fuel) st in
  fst r = Ok tt ->
  manifests_cache_from w n0 (snd r) /\
  n_manifest_list st <= n_manifest_list (snd r) /\
  forall o, o ∈ ops ->
    exists m, n0 <= m < n_manifest_list (snd r) /\ listed w o m = true.
Proof.
  intros Hfuel. induction ops as [|o ops IH]; intros st Hinv; cbv zeta.
  - intros _. split; [done|]. split; [done|].
    intros o Ho. by apply elem_of_nil in Ho.
  - rewrite for_each_cons.
    pose proof (await_package_manifest_provenance fuel o st Hfuel) as H.
    cbv zeta in H.
    destruct (await_package_manifest w fuel o st) as [[[]|e|] st'];
      [|discriminate|discriminate].
    cbn [fst snd] in H. specialize (H eq_refl). intros Hok.
    destruct Hinv as [Hn0 Hcache].
    assert (Hstep : manifests_cache_from w n0 st' /\
                    n_manifest_list st <= n_manifest_list st' /\
                    exists m, n0 <= m < n_manifest_list st' /\
                              listed w o m = true).
    { destruct H as [(l & Hl & Hhas & Hl' & Hn)|(m & Hm & Hlisted & Hl')].
      - destruct (Hcache l Hl) as (m & Hm & ->).
        split; [|split; [lia|]].
        + split; [lia|]. intros l' Hl''. rewrite Hl' in Hl''.
          injection Hl'' as <-. exists m. split; [lia|done].
        + exists m. split; [lia|done].
      - split; [|split; [lia|]].
        + split; [lia|]. intros l' Hl''. rewrite Hl' in Hl''.
          injection Hl'' as <-.
          exists (pred (n_manifest_list st')). split; [lia|done].
        + exists m. split; [lia|done]. }
    destruct Hstep as (Hinv' & Hmono & Ho).
    destruct (IH st' Hinv' Hok) as (I1 & I2 & I3).
    split; [done|]. split; [lia|].
    intros o' Ho'. apply elem_of_cons in Ho' as [->|Ho'].
    + destruct Ho as (m & Hm & Hl). exists m. split; [lia|done].
    + by apply I3.
Qed.
End AllPackageManifests.

(** X10.  wait_for_package_manifests keeps the last listing it fetched
    and starts the wait for each further operator on it.  So when the
    first listing it fetches has the package manifests of all the
    configured operators, the call succeeds after that single listing,
    however many operators there are, without sleeping. *)
Theorem one_listing_serves_all_operators w fuel (ops : list OperatorSpec) st :
  2 <= fuel ->
  ops <> [] ->
  (forall o, o ∈ ops -> listed w o (n_manifest_list st) = true) ->
  let r := wait_for_package_manifests w fuel ops st in
  fst r = Ok tt /\
  n_manifest_list (snd r) = n_manifest_list st + 1 /\
  seconds_slept (trace (snd r)) = seconds_slept (trace st).
Proof.
  intros Hfuel Hne Hall r. subst r.
  destruct ops as [|o ops]; [done|].
  change (wait_for_package_manifests w fuel (o :: ops) st)
    with (for_each (o :: ops) (await_package_manifest w fuel)
            (with_previous_manifests None (add_event manifests_header st))).
  rewrite for_each_cons.
  pose proof (await_package_manifest_hit w fuel o
                (with_previous_manifests None (add_event manifests_header st))
                Hfuel) as H.
  cbv zeta in H. state_simpl in H.
  destruct (H (Hall o (list_elem_of_here _ _))) as (H1 & H2 & H3 & H4).
  destruct (await_package_manifest w fuel o _) as [r st'].
  simpl in H1, H2, H3, H4. subst r.
  destruct (for_each_manifests_hit w fuel _ Hfuel ops st' H2)
    as (I1 & I2 & I3).
  { intros o' Ho'. by apply Hall, list_elem_of_further. }
  rewrite I1, I2, I3, H3, H4. done.
Qed.

Lemma one_listing_serves_all_operators_witness :
  let ops := [sample_operator "a" "src" "ns" [];
              sample_operator "b" "src" "ns" [];
              sample_operator "c" "src" "ns" []] in
  let r := wait_for_package_manifests three_manifests_world 2 ops
             initial_state in
  2 <= 2 /\ fst r = Ok tt /\ n_manifest_list (snd r) = 1 /\
  seconds_slept (trace (snd r)) = 0.
Proof.
  intros ops r. split; [lia|].
  apply (one_listing_serves_all_operators three_manifests_world 2 ops
           initial_state (le_n 2)).
  - discriminate.
  - intros o Ho. unfold ops in Ho.
    rewrite !elem_of_cons, elem_of_nil in Ho.
    destruct Ho as [->|[->|[->|[]]]]; reflexivity.
Defined.

(** X11.  A successful wait_for_package_manifests has seen the package
    manifest of every configured operator: each name was in a listing
    returned by one of the listing calls of this very call (the cache is
    emptied when the call starts, so nothing older is trusted). *)
Theorem package_manifests_success_is_sound
    w fuel (ops : list OperatorSpec) st :
  900 / RECHECK_INTERVAL + 3 <= fuel ->
  let r := wait_for_package_manifests w fuel ops st in
  fst r = Ok tt ->
  forall o, o ∈ ops ->
    exists m, n_manifest_list st <= m < n_manifest_list (snd r) /\
              has_manifest o (package_manifests_at w m) = true.
Proof.
  intros Hfuel r Hok. subst r.
  change (wait_for_package_manifests w fuel ops st)
    with (for_each ops (await_package_manifest w fuel)
            (with_previous_manifests None (add_event manifests_header st)))
    in Hok |- *.
  destruct (for_each_manifests_sound w fuel (n_manifest_list st) Hfuel ops
              (with_previous_manifests None (add_event manifests_header st)))
    as (_ & _ & H); [|exact Hok|exact H].
  split; [done|]. intros l Hl. discriminate.
Qed.

Lemma package_manifests_success_is_sound_witness :
  let ops := [sample_operator "a" "src" "ns" [];
              sample_operator "b" "src" "ns" []] in
  900 / RECHECK_INTERVAL + 3 <= 183 /\
  fst (wait_for_package_manifests early_world 183 ops initial_state) = Ok tt /\
  exists m, has_manifest (sample_operator "b" "src" "ns" [])
              (package_manifests_at early_world m) = true.
Proof.
  intros ops.
  assert (Hf : 900 / RECHECK_INTERVAL + 3 <= 183) by (vm_compute; lia).
  assert (Hok : fst (wait_for_package_manifests early_world 183 ops
                       initial_state) = Ok tt) by (vm_compute; reflexivity).
  split; [exact Hf|]. split; [exact Hok|].
  destruct (package_manifests_success_is_sound early_world 183 ops
              initial_state Hf Hok (sample_operator "b" "src" "ns" []))
    as (m & _ & Hm).
  - apply list_elem_of_further, list_elem_of_here.
  - exists m. exact Hm.
Defined.

(** ** verify_operator_running as a whole *)

Section AllOperatorPods.
Context (w : World) (fuel : nat).
Context (Hfuel : RECHECK_INTERVAL / RECHECK_INTERVAL + 3 <= fuel).

(** A successful wait found a ready pod either in the cached listing,
    which it keeps, or in the last listing it fetched, which it leaves in
    the cache. *)
Lemma await_operator_pod_provenance operator target st :
  let r := await_operator_pod w fuel operator target st in
  fst r = Ok tt ->
  (exists l, previous_pods st = Some l /\
             find_ready target l = inr true /\
             previous_pods (snd r) = Some l /\
             n_pod_list (snd r) = n_pod_list st) \/
  (n_pod_list st < n_pod_list (snd r) /\
   find_ready target
     (pods_at w (pred (n_pod_list (snd r))) (namespace operator)) = inr true /\
   previous_pods (snd r) =
     Some (pods_at w (pred (n_pod_list (snd r))) (namespace operator))).
Proof using Hfuel.
  cbv zeta.
  pose proof (await_operator_pod_spec w operator target fuel st Hfuel) as H.
  cbv zeta in H. unfold first_listing, first_fetch in H.
  destruct (previous_pods st) as [l|] eqn:Hp.
  - destruct (find_ready target l) as [e|[]] eqn:H0.
    + destruct H as (H1 & _). rewrite H1. discriminate.
    + destruct H as (H1 & H2 & _ & _ & H5 & _). intros _. left.
      exists l. repeat split; [done|done|lia].
    + destruct (find_ready target (pods_at w _ _)) as [e|[]] eqn:Hr1.
      * destruct H as (H1 & _). rewrite H1. discriminate.
      * destruct H as (H1 & H2 & _ & _ & H5). intros _. right.
        rewrite H2. replace (pred (n_pod_list st + 0 + 1))
          with (n_pod_list st + 0) by lia.
        repeat split; [lia|done|done].
      * destruct (find_ready target (pods_at w (S _) _)) as [e|hit];
          destruct H as (H1 & _); rewrite H1; discriminate.
  - destruct (find_ready target (pods_at w (n_pod_list st) _))
      as [e|[]] eqn:H0.
    + destruct H as (H1 & _). rewrite H1. discriminate.
    + destruct H as (H1 & H2 & _ & _ & H5 & _). intros _. right.
      rewrite H2. replace (pred (n_pod_list st + 1))
        with (n_pod_list st) by lia.
      repeat split; [lia|done|done].
    + destruct (find_ready target (pods_at w (n_pod_list st + 1) _))
        as [e|[]] eqn:Hr1.
      * destruct H as (H1 & _). rewrite H1. discriminate.
      * destruct H as (H1 & H2 & _ & _ & H5). intros _. right.
        rewrite H2. replace (pred (n_pod_list st + 1 + 1))
          with (n_pod_list st + 1) by lia.
        repeat split; [lia|done|done].
      * destruct (find_ready target (pods_at w (S _) _)) as [e|hit];
          destruct H as (H1 & _); rewrite H1; discriminate.
Qed.

Lemma for_each_targets_sound ops n0 operator : operator ∈ ops ->
  forall targets st,
  pods_cache_from w ops n0 st ->
  let r := for_each targets (await_operator_pod w fuel operator) st in
  fst r = Ok tt ->
  pods_cache_from w ops n0 (snd r) /\
  n_pod_list st <= n_pod_list (snd r) /\
  forall t, t ∈ targets ->
    exists m o, n0 <= m < n_pod_list (snd r) /\ o ∈ ops /\
                find_ready t (pods_at w m (namespace o)) = inr true.
Proof using Hfuel.
  intros Hop. induction targets as [|t targets IH]; intros st Hinv; cbv zeta.
  - intros _. split; [done|]. split; [done|].
    intros t Ht. by apply elem_of_nil in Ht.
  - rewrite for_each_cons.
    pose proof (await_operator_pod_provenance operator t st) as H.
    cbv zeta in H.
    destruct (await_operator_pod w fuel operator t st) as [[[]|e|] st'];
      [|discriminate|discriminate].
    cbn [fst snd] in H. specialize (H eq_refl). intros Hok.
    destruct Hinv as [Hn0 Hcache].
    assert (Hstep : pods_cache_from w ops n0 st' /\
                    n_pod_list st <= n_pod_list st' /\
                    exists m o, n0 <= m < n_pod_list st' /\ o ∈ ops /\
                      find_ready t (pods_at w m (namespace o)) = inr true).
    { destruct H as [(l & Hl & Hhas & Hl' & Hn)|(Hlt & Hready & Hl')].
      - destruct (Hcache l Hl) as (m & o & Hm & Ho & ->).
        split; [|split; [lia|]].
        + split; [lia|]. intros l' Hl''. rewrite Hl' in Hl''.
          injection Hl'' as <-. exists m, o. split; [lia|done].
        + exists m, o. split; [lia|done].
      - split; [|split; [lia|]].
        + split; [lia|]. intros l' Hl''. rewrite Hl' in Hl''.
          injection Hl'' as <-.
          exists (pred (n_pod_list st')), operator. split; [lia|done].
        + exists (pred (n_pod_list st')), operator. split; [lia|done]. }
    destruct Hstep as (Hinv' & Hmono & Ht).
    destruct (IH st' Hinv' Hok) as (I1 & I2 & I3).
    split; [done|]. split; [lia|].
    intros t' Ht'. apply elem_of_cons in Ht' as [->|Ht'].
    + destruct Ht as (m & o & Hm & Hl). exists m, o. split; [lia|done].
    + by apply I3.
Qed.

Lemma for_each_operators_sound ops n0 :
  forall some st,
  (forall o, o ∈ some -> o ∈ ops) ->
  pods_cache_from w ops n0 st ->
  let r := for_each some (fun operator =>
             for_each (correspondingPods operator)
                      (await_operator_pod w fuel operator)) st in
  fst r = Ok tt ->
  pods_cache_from w ops n0 (snd r) /\
  n_pod_list st <= n_pod_list (snd r) /\
  forall o' t, o' ∈ some -> t ∈ correspondingPods o' ->
    exists m o, n0 <= m < n_pod_list (snd r) /\ o ∈ ops /\
                find_ready t (pods_at w m (namespace o)) = inr true.
Proof using Hfuel.
  induction some as [|o some IH]; intros st Hsub Hinv; cbv zeta.
  - intros _. split; [done|]. split; [done|].
    intros o t Ho. by apply elem_of_nil in Ho.
  - rewrite for_each_cons.
    pose proof (for_each_targets_sound ops n0 o
                  (Hsub o (list_elem_of_here _ _))
                  (correspondingPods o) st Hinv) as H.
    cbv zeta in H.
    destruct (for_each (correspondingPods o) _ st) as [[[]|e|] st'];
      [|discriminate|discriminate].
    cbn [fst snd] in H. destruct (H eq_refl) as (Hinv' & Hmono & Ht).
    intros Hok.
    destruct (IH st' (fun o' Ho' => Hsub o' (list_elem_of_further _ _ _ Ho'))
                 Hinv' Hok) as (I1 & I2 & I3).
    split; [done|]. split; [lia|].
    intros o' t Ho' Ht'. apply elem_of_cons in Ho' as [->|Ho'].
    + destruct (Ht t Ht') as (m & o'' & Hm & Hl).
      exists m, o''. split; [lia|done].
    + exact (I3 o' t Ho' Ht').
Qed.

(** The cost of one wait: at most two listings beyond the first scan and
    three sleeps; a successful one fetched at most once after the first
    scan, slept at most once and leaves a cached listing. *)
Lemma await_operator_pod_budget operator target st :
  let r := await_operator_pod w fuel operator target st in
  n_pod_list (snd r) <= n_pod_list st + first_fetch st + 2 /\
  seconds_slept (trace (snd r)) <=
    seconds_slept (trace st) + 3 * RECHECK_INTERVAL /\
  (fst r = Ok tt ->
   n_pod_list (snd r) <= n_pod_list st + first_fetch st + 1 /\
   seconds_slept (trace (snd r)) <=
     seconds_slept (trace st) + RECHECK_INTERVAL /\
   first_fetch (snd r) = 0).
Proof using Hfuel.
  cbv zeta.
  pose proof (await_operator_pod_spec w operator target fuel st Hfuel) as H.
  cbv zeta in H.
  destruct (find_ready target (first_listing w operator st)) as [e|[]].
  - destruct H as (H1 & H2 & _ & H4). rewrite H1, H2, H4.
    split; [lia|]. split; [lia|]. discriminate.
  - destruct H as (H1 & H2 & _ & H4 & H5 & _). rewrite H2, H4.
    split; [lia|]. split; [lia|]. intros _.
    split; [lia|]. split; [lia|]. unfold first_fetch. by rewrite H5.
  - destruct (find_ready target (pods_at w _ _)) as [e|[]].
    + destruct H as (H1 & H2 & _ & H4). rewrite H1, H2, H4.
      unfold RECHECK_INTERVAL.
      split; [lia|]. split; [lia|]. discriminate.
    + destruct H as (H1 & H2 & _ & H4 & H5). rewrite H2, H4.
      unfold RECHECK_INTERVAL.
      split; [lia|]. split; [lia|]. intros _.
      split; [lia|]. split; [lia|]. unfold first_fetch. by rewrite H5.
    + destruct (find_ready target (pods_at w (S _) _)) as [e|hit];
        destruct H as (H1 & H2 & _ & H4); rewrite H1, H2, H4;
        unfold RECHECK_INTERVAL;
        (split; [lia|]); (split; [try destruct hit; lia|]); discriminate.
Qed.

Lemma for_each_targets_budget operator : forall targets st,
  let r := for_each targets (await_operator_pod w fuel operator) st in
  n_pod_list (snd r) +
    match fst r with Ok _ => first_fetch (snd r) + 1 | _ => 0 end <=
    n_pod_list st + first_fetch st + length targets + 1 /\
  seconds_slept (trace (snd r)) +
    match fst r with Ok _ => 2 * RECHECK_INTERVAL | _ => 0 end <=
    seconds_slept (trace st) + RECHECK_INTERVAL * (length targets + 2).
Proof using Hfuel.
  induction targets as [|t targets IH]; intros st; cbv zeta.
  - simpl. unfold RECHECK_INTERVAL. split; lia.
  - rewrite for_each_cons.
    pose proof (await_operator_pod_budget operator t st) as H.
    cbv zeta in H. destruct H as (H1 & H2 & H3).
    destruct (await_operator_pod w fuel operator t st) as [[[]|e|] st'];
      cbn [fst snd length] in *.
    + destruct (H3 eq_refl) as (H4 & H5 & H6).
      specialize (IH st'). cbv zeta in IH. destruct IH as (I1 & I2).
      rewrite H6 in I1.
      destruct (fst (for_each targets _ st'));
        unfold RECHECK_INTERVAL in *; split; lia.
    + unfold RECHECK_INTERVAL in *. split; lia.
    + unfold RECHECK_INTERVAL in *. split; lia.
Qed.

Lemma for_each_operators_budget : forall ops st,
  let r := for_each ops (fun operator =>
             for_each (correspondingPods operator)
                      (await_operator_pod w fuel operator)) st in
  n_pod_list (snd r) +
    match fst r with Ok _ => first_fetch (snd r) + 1 | _ => 0 end <=
    n_pod_list st + first_fetch st + target_count ops + 1 /\
  seconds_slept (trace (snd r)) +
    match fst r with Ok _ => 2 * RECHECK_INTERVAL | _ => 0 end <=
    seconds_slept (trace st) + RECHECK_INTERVAL * (target_count ops + 2).
Proof using Hfuel.
  induction ops as [|o ops IH]; intros st; cbv zeta.
  - simpl. unfold RECHECK_INTERVAL. split; lia.
  - rewrite for_each_cons.
    pose proof (for_each_targets_budget o (correspondingPods o) st) as H.
    cbv zeta in H. destruct H as (H1 & H2).
    destruct (for_each (correspondingPods o) _ st) as [[[]|e|] st'];
      cbn [fst snd target_count] in *.
    + specialize (IH st'). cbv zeta in IH. destruct IH as (I1 & I2).
      destruct (fst (for_each ops _ st'));
        unfold RECHECK_INTERVAL in *; split; lia.
    + unfold RECHECK_INTERVAL in *. split; lia.
    + unfold RECHECK_INTERVAL in *. split; lia.
Qed.
End AllOperatorPods.

(** X12.  A successful verify_operator_running has seen, for every pod
    target of every configured operator, a pod whose name contains the
    target and which has exactly one started container, in a listing
    returned by one of the listing calls of this very call.  The listing
    is that of the namespace of some configured operator, not
    necessarily of the operator the target belongs to. *)
Theorem operator_pods_success_is_sound w fuel (ops : list OperatorSpec) st :
  RECHECK_INTERVAL / RECHECK_INTERVAL + 3 <= fuel ->
  let r := verify_operator_running w fuel ops st in
  fst r = Ok tt ->
  forall operator target,
    operator ∈ ops -> target ∈ correspondingPods operator ->
    exists m o, n_pod_list st <= m < n_pod_list (snd r) /\ o ∈ ops /\
                find_ready target (pods_at w m (namespace o)) = inr true.
Proof.
  intros Hfuel r Hok. subst r.
  change (verify_operator_running w fuel ops st)
    with (for_each ops (fun operator =>
            for_each (correspondingPods operator)
                     (await_operator_pod w fuel operator)) (pods_start st))
    in Hok |- *.
  destruct (for_each_operators_sound w fuel Hfuel ops (n_pod_list st) ops
              (pods_start st)) as (_ & _ & H); [done| |exact Hok|exact H].
  split; [done|]. intros l Hl. discriminate.
Qed.

Lemma operator_pods_success_is_sound_witness :
  let ops := [sample_operator "a" "src" "ns" ["pod"]] in
  RECHECK_INTERVAL / RECHECK_INTERVAL + 3 <= 4 /\
  fst (verify_operator_running ready_world 4 ops initial_state) = Ok tt /\
  exists m o, o ∈ ops /\
    find_ready "pod" (pods_at ready_world m (namespace o)) =
    inr true.
Proof.
  intros ops.
  assert (Hf : RECHECK_INTERVAL / RECHECK_INTERVAL + 3 <= 4)
    by (vm_compute; lia).
  assert (Hok : fst (verify_operator_running ready_world 4 ops initial_state)
                = Ok tt) by (vm_compute; reflexivity).
  split; [exact Hf|]. split; [exact Hok|].
  destruct (operator_pods_success_is_sound ready_world 4 ops initial_state
              Hf Hok (sample_operator "a" "src" "ns" ["pod"])
              "pod") as (m & o & _ & Ho & Hm).
  - apply list_elem_of_here.
  - apply list_elem_of_here.
  - exists m, o. split; [exact Ho|exact Hm].
Defined.

(** X13.  The cost of verify_operator_running for a configuration with
    [T] pod targets in all: whatever its outcome, it lists pods at most
    [T + 2] times and sleeps at most [T + 2] recheck intervals; when it
    succeeds, it has listed pods at most [T + 1] times and slept at most
    [T] intervals, that is one interval per target. *)
Theorem operator_pods_budget w fuel (ops : list OperatorSpec) st :
  RECHECK_INTERVAL / RECHECK_INTERVAL + 3 <= fuel ->
  let r := verify_operator_running w fuel ops st in
  let T := target_count ops in
  n_pod_list (snd r) <= n_pod_list st + T + 2 /\
  seconds_slept (trace (snd r)) <=
    seconds_slept (trace st) + RECHECK_INTERVAL * (T + 2) /\
  (fst r = Ok tt ->
   n_pod_list (snd r) <= n_pod_list st + T + 1 /\
   seconds_slept (trace (snd r)) <=
     seconds_slept (trace st) + RECHECK_INTERVAL * T).
Proof.
  intros Hfuel r T. subst r T.
  change (verify_operator_running w fuel ops st)
    with (for_each ops (fun operator =>
            for_each (correspondingPods operator)
                     (await_operator_pod w fuel operator)) (pods_start st)).
  pose proof (for_each_operators_budget w fuel Hfuel ops (pods_start st))
    as H.
  cbv zeta in H. destruct H as (H1 & H2).
  change (first_fetch (pods_start st)) with 1 in H1.
  change (n_pod_list (pods_start st)) with (n_pod_list st) in H1.
  change (seconds_slept (trace (pods_start st)))
    with (seconds_slept (trace st)) in H2.
  destruct (for_each ops _ (pods_start st)) as [[[]|e|] st'];
    cbn [fst snd] in *; unfold RECHECK_INTERVAL in *;
    (split; [lia|]); (split; [lia|]); [|discriminate|discriminate].
  intros _. split; lia.
Qed.

Lemma operator_pods_budget_witness :
  let ops := [sample_operator "a" "src" "ns" ["pod"]] in
  let r := verify_operator_running ready_world 4 ops initial_state in
  RECHECK_INTERVAL / RECHECK_INTERVAL + 3 <= 4 /\
  n_pod_list (snd r) <= 3 /\ seconds_slept (trace (snd r)) <= 15.
Proof.
  intros ops r.
  assert (Hf : RECHECK_INTERVAL / RECHECK_INTERVAL + 3 <= 4)
    by (vm_compute; lia).
  split; [exact Hf|].
  destruct (operator_pods_budget ready_world 4 ops initial_state Hf)
    as (H1 & H2 & _).
  split; [exact H1|exact H2].
Defined.

(** X14.  The configuration load and the three waiting stages only read
    and sleep: whatever their outcome and however long they poll, they
    issue no install request and create no DSCI or DSC, so the
    cluster-changing calls recorded after them are those recorded
    before. *)
Theorem waiting_stages_change_nothing w fuel path (ops : list OperatorSpec) st :
  actions_of (trace (snd (load_config w path st))) = actions_of (trace st) /\
  actions_of (trace (snd (wait_for_catalog_sources w fuel ops st))) =
    actions_of (trace st) /\
  actions_of (trace (snd (wait_for_package_manifests w fuel ops st))) =
    actions_of (trace st) /\
  actions_of (trace (snd (verify_operator_running w fuel ops st))) =
    actions_of (trace st).
Proof.
  split; [apply silent_load_config|].
  split; [apply silent_wait_for_catalog_sources|].
  split; [apply silent_wait_for_package_manifests|].
  apply silent_verify_operator_running.
Qed.
